(** * els_utils.results: search and explain result wrappers

    A shallow embedding of [src/els_utils/results.py].  The two classes
    [SearchResults] and [ExplainResult] wrap the decoded JSON body of an
    HTTP response.  Python dictionaries and lists are mutable objects
    that are passed around by reference, so the embedding keeps them in
    an explicit store and threads that store, together with Python's
    exceptions, through a small state-and-error monad.

    What lies outside the module is modelled only as far as the module
    uses it:
    - a response carries the document its body decodes to, or nothing
      when the body is not valid JSON; the decoder itself is not
      modelled, only that it builds new objects and may fail;
    - pandas tables are built from lists of mappings and from lists of
      tuples; pandas converts the values of a column to one column
      type, and that conversion is not modelled: a cell is given by the
      values supplied for its column and the position of its row, not
      by a Python value; row labels are left out;
    - the nested calls of [walk] are bounded by a budget; the
      interpreter's own limit on the depth of the call stack, which
      also bounds the nesting of a body it can decode, is not modelled. *)

From Stdlib Require Import ZArith String Ascii DecimalString.
From Stdlib Require Import Floats.SpecFloat.
From stdpp Require Import base option list.

Set Warnings "-register-all".

Local Open Scope string_scope.
Local Open Scope Z_scope.
Local Open Scope list_scope.

(** ** JSON documents *)

(** The document a response body denotes once decoded.  Numbers are
    Python [int]s or [float]s; an object keeps its members in document
    order (the keys of a decoded object are pairwise distinct; lookups
    below take the first binding). *)
Inductive document : Type :=
| JNull
| JBool (b : bool)
| JInt (z : Z)
| JFloat (f : spec_float)
| JStr (s : string)
| JArr (items : list document)
| JObj (members : list (string * document)).

(** ** Association lists: the contents of a Python [dict] *)

Fixpoint assoc_get {A : Type} (key : string) (items : list (string * A)) : option A :=
  match items with
  | [] => None
  | (k, v) :: rest => if String.eqb key k then Some v else assoc_get key rest
  end.

(** [d[key] = v]: an existing key keeps its position, a new key goes last. *)
Fixpoint assoc_set {A : Type} (key : string) (v : A) (items : list (string * A))
  : list (string * A) :=
  match items with
  | [] => [(key, v)]
  | (k, w) :: rest =>
      if String.eqb key k then (k, v) :: rest else (k, w) :: assoc_set key v rest
  end.

(** ** Python values and the object store *)

Abbreviation loc := nat.

(** Immutable values are carried directly; a [dict] or a [list] is a
    reference into the store. *)
Inductive val : Type :=
| VNone
| VBool (b : bool)
| VInt (z : Z)
| VFloat (f : spec_float)
| VStr (s : string)
| VTuple (items : list val)
| VRef (l : loc).

Inductive obj : Type :=
| ODict (items : list (string * val))
| OList (items : list val).

(** The store, and the number of times a response body has been decoded. *)
Record state : Type := State {
  heap : list obj;
  parses : nat
}.

Inductive exn : Type :=
| JSONDecodeError
| KeyError
| AttributeError
| TypeError.

(** [Raise] is a Python exception leaving the call.  [Undefined] marks a
    run the model does not determine: the recursion budget of [walk] is
    used up, a reference points outside the store, or pandas is given
    data that is not a list of mappings or tuples. *)
Inductive outcome (A : Type) : Type :=
| Ok (a : A)
| Raise (e : exn)
| Undefined.
Arguments Ok {A} a.
Arguments Raise {A} e.
Arguments Undefined {A}.

Definition M (A : Type) : Type := state -> outcome A * state.

Definition ret {A : Type} (a : A) : M A := fun s => (Ok a, s).

Definition bind {A B : Type} (m : M A) (f : A -> M B) : M B :=
  fun s =>
    match m s with
    | (Ok a, s') => f a s'
    | (Raise e, s') => (Raise e, s')
    | (Undefined, s') => (Undefined, s')
    end.

Definition raise {A : Type} (e : exn) : M A := fun s => (Raise e, s).

Definition undefined {A : Type} : M A := fun s => (Undefined, s).

Notation "'let*' x := m 'in' k" := (bind m (fun x => k))
  (at level 10, x name, m at level 100, k at level 200).
Notation "'exec' m 'in' k" := (bind m (fun _ => k))
  (at level 10, m at level 100, k at level 200).

(** *** Store primitives *)

Definition alloc (o : obj) : M val :=
  fun s => (Ok (VRef (length (heap s))),
            {| heap := heap s ++ [o]; parses := parses s |}).

Definition deref (l : loc) : M obj :=
  fun s => match heap s !! l with
           | Some o => (Ok o, s)
           | None => (Undefined, s)
           end.

Definition store (l : loc) (o : obj) : M unit :=
  fun s => match heap s !! l with
           | Some _ => (Ok tt, {| heap := <[l := o]> (heap s); parses := parses s |})
           | None => (Undefined, s)
           end.

Definition tick_parse : M unit :=
  fun s => (Ok tt, {| heap := heap s; parses := S (parses s) |}).

(** *** Operations of the built-in types *)

(** [o.get(key, default)].  The attribute is looked up first (only a
    [dict] has it), then the default expression is evaluated, then the
    call is made. *)
Definition dict_get (o : val) (key : string) (default : M val) : M val :=
  match o with
  | VRef l =>
      let* ob := deref l in
      match ob with
      | ODict items =>
          let* d := default in
          ret (from_option id d (assoc_get key items))
      | OList _ => raise AttributeError
      end
  | _ => raise AttributeError
  end.

(** [o[key]] with a [str] key. *)
Definition subscript (o : val) (key : string) : M val :=
  match o with
  | VRef l =>
      let* ob := deref l in
      match ob with
      | ODict items =>
          match assoc_get key items with
          | Some v => ret v
          | None => raise KeyError
          end
      | OList _ => raise TypeError
      end
  | _ => raise TypeError
  end.

(** [o.copy()]: a shallow copy, for a [dict] and for a [list]. *)
Definition copy (o : val) : M val :=
  match o with
  | VRef l => let* ob := deref l in alloc ob
  | _ => raise AttributeError
  end.

(** [o[key] = v] with a [str] key. *)
Definition setitem (o : val) (key : string) (v : val) : M unit :=
  match o with
  | VRef l =>
      let* ob := deref l in
      match ob with
      | ODict items => store l (ODict (assoc_set key v items))
      | OList _ => raise TypeError
      end
  | _ => raise TypeError
  end.

(** [o.append(v)]. *)
Definition list_append (o : val) (v : val) : M unit :=
  match o with
  | VRef l =>
      let* ob := deref l in
      match ob with
      | OList items => store l (OList (items ++ [v]))
      | ODict _ => raise AttributeError
      end
  | _ => raise AttributeError
  end.

Fixpoint chars (s : string) : list val :=
  match s with
  | EmptyString => []
  | String c rest => VStr (String c EmptyString) :: chars rest
  end.

(** The elements [for x in o] runs over.  A list is read when the loop
    starts; no loop of this module changes the list it runs over. *)
Definition iterate (o : val) : M (list val) :=
  match o with
  | VRef l =>
      let* ob := deref l in
      match ob with
      | OList items => ret items
      | ODict items => ret (map (fun kv => VStr (fst kv)) items)
      end
  | VTuple items => ret items
  | VStr s => ret (chars s)
  | _ => raise TypeError
  end.

Fixpoint for_each (xs : list val) (body : val -> M unit) : M unit :=
  match xs with
  | [] => ret tt
  | x :: rest => exec body x in for_each rest body
  end.

(** ** The response object (requests) *)

Module Response.

(** What the wrappers use of a [requests.Response]: the status code and
    the document its body decodes to, [None] when the body is not valid
    JSON. *)
Record t : Type := {
  status_code : Z;
  body : option document
}.

(** Decoding builds a fresh object graph, children before their parent. *)
Fixpoint load (j : document) : M val :=
  match j with
  | JNull => ret VNone
  | JBool b => ret (VBool b)
  | JInt z => ret (VInt z)
  | JFloat f => ret (VFloat f)
  | JStr s => ret (VStr s)
  | JArr items =>
      let* vs :=
        (fix load_items (js : list document) : M (list val) :=
           match js with
           | [] => ret []
           | j' :: rest =>
               let* v := load j' in
               let* vs := load_items rest in
               ret (v :: vs)
           end) items in
      alloc (OList vs)
  | JObj members =>
      let* kvs :=
        (fix load_members (ms : list (string * document)) : M (list (string * val)) :=
           match ms with
           | [] => ret []
           | (k, j') :: rest =>
               let* v := load j' in
               let* kvs := load_members rest in
               ret ((k, v) :: kvs)
           end) members in
      alloc (ODict kvs)
  end.

(** [response.json()]: decodes the body anew on every call. *)
Definition json (response : t) : M val :=
  exec tick_parse in
  match body response with
  | Some j => load j
  | None => raise JSONDecodeError
  end.

End Response.

(** ** Tables (pandas) *)

Module pd.

(** pandas stores a table column by column, each column as one array of
    a single type that it chooses from all the values of the column: an
    integer in a column that also holds a float, or that lacks a value
    in some row, is stored as a float, a missing value as NaN.  A cell
    is therefore not the Python value its row supplied.  The conversion
    is pandas' own and is left out; a cell is given by what determines
    it: the values supplied for its column, in row order ([None] for a
    row that supplied none), and the position of its row. *)
Record cell : Type := {
  inputs : list (option val);
  position : nat
}.

(** A table: its column labels and, per row, one cell per column. *)
Record DataFrame : Type := {
  columns : list string;
  rows : list (list cell)
}.

Definition has_column (cols : list string) (c : string) : bool :=
  existsb (String.eqb c) cols.

(** Column labels of a list of records: every key, in order of first
    appearance. *)
Fixpoint union_keys (seen : list string) (records : list (list (string * val)))
  : list string :=
  match records with
  | [] => seen
  | r :: rest =>
      union_keys
        (fold_left (fun (acc : list string) (kv : string * val) =>
                      if has_column acc (fst kv) then acc else acc ++ [fst kv])
                   r seen)
        rest
  end.

(** The table with the labels [labels] whose columns are read off
    [data] by the keys [keys]: [supply k d] is what the row [d] supplies
    for the column of [k]. *)
Definition table {K D : Type} (labels : list string) (keys : list K)
    (supply : K -> D -> option val) (data : list D) : DataFrame :=
  {| columns := labels;
     rows := map (fun i => map (fun k => {| inputs := map (supply k) data;
                                            position := i |}) keys)
                 (seq 0 (length data)) |}.

Definition of_records (records : list (list (string * val))) : DataFrame :=
  let cols := union_keys [] records in
  table cols cols (fun c r => assoc_get c r) records.

Definition of_tuples (cols : list string) (tuples : list (list val)) : DataFrame :=
  table cols (seq 0 (length cols)) (fun k (t : list val) => t !! k) tuples.

Fixpoint as_records (items : list val) : M (list (list (string * val))) :=
  match items with
  | [] => ret []
  | VRef l :: rest =>
      let* ob := deref l in
      match ob with
      | ODict r => let* rs := as_records rest in ret (r :: rs)
      | OList _ => undefined
      end
  | _ :: _ => undefined
  end.

(** [pd.DataFrame(data)] for a list of mappings: a column per key, a
    row per mapping. *)
Definition DataFrame_ (data : val) : M DataFrame :=
  match data with
  | VRef l =>
      let* ob := deref l in
      match ob with
      | OList items => let* rs := as_records items in ret (of_records rs)
      | ODict _ => undefined
      end
  | _ => undefined
  end.

Fixpoint as_tuples (width : nat) (items : list val) : M (list (list val)) :=
  match items with
  | [] => ret []
  | VTuple cells :: rest =>
      if Nat.eqb (length cells) width
      then let* rs := as_tuples width rest in ret (cells :: rs)
      else undefined
  | _ :: _ => undefined
  end.

(** [pd.DataFrame(data, columns=cols)] for a list of tuples, each as
    wide as [cols]. *)
Definition DataFrame_columns (data : val) (cols : list string) : M DataFrame :=
  match data with
  | VRef l =>
      let* ob := deref l in
      match ob with
      | OList items =>
          let* ts := as_tuples (length cols) items in
          ret (of_tuples cols ts)
      | ODict _ => undefined
      end
  | _ => undefined
  end.

Fixpoint index_of (c : string) (cols : list string) : option nat :=
  match cols with
  | [] => None
  | c' :: rest => if String.eqb c c' then Some O else option_map S (index_of c rest)
  end.

(** The cell of [row], a row of [df], under the label [c]. *)
Definition select (df : DataFrame) (row : list cell) (c : string) : option cell :=
  match index_of c (columns df) with
  | Some i => row !! i
  | None => None
  end.

(** The cell of [df] in the row at position [i], under the label [c]. *)
Definition cell_at (df : DataFrame) (i : nat) (c : string) : option cell :=
  match rows df !! i with
  | Some row => select df row c
  | None => None
  end.

(** All the results of [f], when it has one for every element. *)
Fixpoint collect {A B : Type} (f : A -> option B) (xs : list A) : option (list B) :=
  match xs with
  | [] => Some []
  | x :: rest =>
      match f x, collect f rest with
      | Some y, Some ys => Some (y :: ys)
      | _, _ => None
      end
  end.

(** [df[cols]] with a list of labels: the named columns of [df], as they
    are, in the given order; [KeyError] when a label is not a column of
    [df]. *)
Definition getitem (df : DataFrame) (cols : list string) : M DataFrame :=
  if forallb (has_column (columns df)) cols
  then match collect (fun row => collect (select df row) cols) (rows df) with
       | Some rs => ret {| columns := cols; rows := rs |}
       | None => undefined
       end
  else raise KeyError.

End pd.

(** Python's truth value of an optional list: [None] and [[]] are false. *)
Definition truthy {A : Type} (o : option (list A)) : bool :=
  match o with
  | Some (_ :: _) => true
  | _ => false
  end.

Definition new_dict : M val := alloc (ODict []).
Definition new_list : M val := alloc (OList []).

(** [str(v)], as an f-string renders a value: for [None], booleans,
    integers and strings.  The text of a [float], a [dict] or a [list] is
    not modelled. *)
Definition py_str (v : val) : option string :=
  match v with
  | VNone => Some "None"
  | VBool true => Some "True"
  | VBool false => Some "False"
  | VInt z => Some (NilZero.string_of_int (Z.to_int z))
  | VStr s => Some s
  | VFloat _ | VTuple _ | VRef _ => None
  end.

(** ** class SearchResults *)

Module SearchResults.

Record t : Type := {
  _response : Response.t;
  _json : val
}.

Definition __init__ (response : Response.t) : M t :=
  let* j := Response.json response in
  ret {| _response := response; _json := j |}.

Definition status_code (self : t) : M Z :=
  ret (Response.status_code (_response self)).

Definition raw (self : t) : M Response.t :=
  ret (_response self).

Definition hits (self : t) : M val :=
  let* h := dict_get (_json self) "hits" new_dict in
  dict_get h "hits" new_list.

Definition total (self : t) : M val :=
  let* h := dict_get (_json self) "hits" new_dict in
  let* t := dict_get h "total" new_dict in
  dict_get t "value" (ret (VInt 0)).

(** [[hit[key] for hit in hits]]: the iterable is evaluated, then the
    new list is built element by element. *)
Definition comprehension (hits : val) (key : string) : M val :=
  let* xs := iterate hits in
  let* out := new_list in
  exec for_each xs (fun hit =>
         let* v := subscript hit key in
         list_append out v) in
  ret out.

Definition get_sources (include_id include_score : bool) (self : t) : M val :=
  if negb include_id && negb include_score then
    let* hs := hits self in
    comprehension hs "_source"
  else
    let* results := new_list in
    let* hs := hits self in
    let* xs := iterate hs in
    exec for_each xs (fun hit =>
           let* src := subscript hit "_source" in
           let* item := copy src in
           exec (if include_id
                 then let* v := subscript hit "_id" in setitem item "_id" v
                 else ret tt) in
           exec (if include_score
                 then let* v := subscript hit "_score" in setitem item "_score" v
                 else ret tt) in
           list_append results item) in
    ret results.

Definition get_ids (self : t) : M val :=
  let* hs := hits self in
  comprehension hs "_id".

Definition to_dataframe (columns : option (list string))
    (include_id include_score : bool) (self : t) : M pd.DataFrame :=
  let* data := get_sources include_id include_score self in
  let* df := pd.DataFrame_ data in
  if truthy columns
  then pd.getitem df (default [] columns)
  else ret df.

Definition __repr__ (self : t) : M string :=
  let* v := total self in
  match py_str v with
  | Some text => ret (String.append "<SearchResults total_hits=" (String.append text ">"))
  | None => undefined
  end.

End SearchResults.

(** ** class ExplainResult *)

Module ExplainResult.

Record t : Type := {
  _response : Response.t;
  _json : val
}.

Definition __init__ (response : Response.t) : M t :=
  let* j := Response.json response in
  ret {| _response := response; _json := j |}.

Definition explanation (self : t) : M val :=
  dict_get (_json self) "explanation" new_dict.

Definition score (self : t) : M val :=
  let* e := explanation self in
  dict_get e "value" (ret VNone).

(** The closure [walk] of [get_breakdown]; [result] is the list it
    captures.  [fuel] bounds the nesting of the calls. *)
Fixpoint walk (fuel : nat) (result : val) (node : val) (depth : Z) : M unit :=
  match fuel with
  | O => undefined
  | S fuel' =>
      let* desc := dict_get node "description" (ret (VStr "")) in
      let* value := dict_get node "value" (ret (VInt 0)) in
      exec list_append result (VTuple [VInt depth; value; desc]) in
      let* details := dict_get node "details" new_list in
      let* ds := iterate details in
      for_each ds (fun detail => walk fuel' result detail (depth + 1))
  end.

Definition get_breakdown (fuel : nat) (self : t) : M val :=
  let* result := new_list in
  let* e := explanation self in
  exec walk fuel result e 0 in
  ret result.

Definition to_dataframe (fuel : nat) (self : t) : M pd.DataFrame :=
  let* rows := get_breakdown fuel self in
  pd.DataFrame_columns rows ["depth"; "score"; "description"].

Definition __repr__ (self : t) : M string :=
  let* v := score self in
  match py_str v with
  | Some text =>
      ret (String.append "<ExplainResult explanation_value=" (String.append text ">"))
  | None => undefined
  end.

End ExplainResult.

Definition empty_state : state := {| heap := []; parses := O |}.

(** ** Documents held in the store *)

(** [repr h v j]: in store [h] the value [v] is the object graph of the
    document [j]. *)
Inductive repr (h : list obj) : val -> document -> Prop :=
| repr_null : repr h VNone JNull
| repr_bool b : repr h (VBool b) (JBool b)
| repr_int z : repr h (VInt z) (JInt z)
| repr_float f : repr h (VFloat f) (JFloat f)
| repr_str s : repr h (VStr s) (JStr s)
| repr_arr l vs js :
    h !! l = Some (OList vs) ->
    Forall2 (repr h) vs js ->
    repr h (VRef l) (JArr js)
| repr_obj l items members :
    h !! l = Some (ODict items) ->
    map fst items = map fst members ->
    Forall2 (repr h) (map snd items) (map snd members) ->
    repr h (VRef l) (JObj members).

(** One row of a breakdown: depth, value, description. *)
Definition BreakdownRow : Type := Z * document * document.

Definition repr_row (h : list obj) (v : val) (row : BreakdownRow) : Prop :=
  exists value desc,
    v = VTuple [VInt (fst (fst row)); value; desc] /\
    repr h value (snd (fst row)) /\ repr h desc (snd row).

(** [s'] has every object of [s] unchanged, possibly more objects, and
    no further decoding has taken place. *)
Definition extends (s s' : state) : Prop :=
  heap s `prefix_of` heap s' /\ parses s' = parses s.

(** As [extends], but the object at [r] may differ. *)
Definition mutates_only (r : loc) (s s' : state) : Prop :=
  (length (heap s) <= length (heap s'))%nat /\
  (forall l o, l <> r -> heap s !! l = Some o -> heap s' !! l = Some o) /\
  parses s' = parses s.

(** ** Explanation trees *)

Inductive ExplanationNode : Type :=
| Node (value : document) (description : document) (details : list ExplanationNode).

Definition field (key : string) (dflt : document) (members : list (string * document))
  : document :=
  default dflt (assoc_get key members).

(** A document is an explanation tree when it is a mapping whose
    [details], if present, is an array of explanation trees; an absent
    [value] reads as 0 and an absent [description] as the empty text. *)
Inductive denotes : document -> ExplanationNode -> Prop :=
| denotes_leaf members :
    assoc_get "details" members = None ->
    denotes (JObj members)
            (Node (field "value" (JInt 0) members)
                  (field "description" (JStr "") members) [])
| denotes_inner members js ts :
    assoc_get "details" members = Some (JArr js) ->
    Forall2 denotes js ts ->
    denotes (JObj members)
            (Node (field "value" (JInt 0) members)
                  (field "description" (JStr "") members) ts).

Fixpoint height (t : ExplanationNode) : nat :=
  match t with
  | Node _ _ ts => S (foldr (fun c m => Nat.max (height c) m) O ts)
  end.

(** Pre-order traversal: the node, then its children in order, one
    level deeper. *)
Fixpoint preorder (depth : Z) (t : ExplanationNode) : list BreakdownRow :=
  match t with
  | Node v d ts => (depth, v, d) :: flat_map (preorder (depth + 1)) ts
  end.

(** ** The wrappers read on documents

    The same methods with the store left out: what each one computes
    from the decoded document alone.  This reading is related to the
    methods themselves by the refinement lemmas further down. *)

Module Doc.

Definition and_then {A B : Type} (o : outcome A) (f : A -> outcome B) : outcome B :=
  match o with
  | Ok a => f a
  | Raise e => Raise e
  | Undefined => Undefined
  end.

Definition get (o : document) (key : string) (dflt : document) : outcome document :=
  match o with
  | JObj members => Ok (field key dflt members)
  | _ => Raise AttributeError
  end.

Definition subscript (o : document) (key : string) : outcome document :=
  match o with
  | JObj members =>
      match assoc_get key members with
      | Some v => Ok v
      | None => Raise KeyError
      end
  | _ => Raise TypeError
  end.

Fixpoint chars (s : string) : list document :=
  match s with
  | EmptyString => []
  | String c rest => JStr (String c EmptyString) :: chars rest
  end.

Definition iterate (o : document) : outcome (list document) :=
  match o with
  | JArr items => Ok items
  | JObj members => Ok (map (fun kv => JStr (fst kv)) members)
  | JStr s => Ok (chars s)
  | _ => Raise TypeError
  end.

(** A loop that appends to a result list: the elements appended, and
    how the loop ended. *)
Fixpoint each {B : Type} (g : document -> list B * outcome unit) (ds : list document)
  : list B * outcome unit :=
  match ds with
  | [] => ([], Ok tt)
  | d :: rest =>
      match g d with
      | (bs, Ok _) => let (bs', o) := each g rest in (bs ++ bs', o)
      | (bs, o) => (bs, o)
      end
  end.

Definition collect {B : Type} (r : list B * outcome unit) : outcome (list B) :=
  match snd r with
  | Ok _ => Ok (fst r)
  | Raise e => Raise e
  | Undefined => Undefined
  end.

Definition single {B : Type} (o : outcome B) : list B * outcome unit :=
  match o with
  | Ok b => ([b], Ok tt)
  | Raise e => ([], Raise e)
  | Undefined => ([], Undefined)
  end.

Definition hits (body : document) : outcome document :=
  and_then (get body "hits" (JObj [])) (fun h => get h "hits" (JArr [])).

Definition total (body : document) : outcome document :=
  and_then (get body "hits" (JObj [])) (fun h =>
  and_then (get h "total" (JObj [])) (fun t =>
  get t "value" (JInt 0))).

(** The mapping [get_sources] builds for one hit when a flag is set. *)
Definition merged (include_id include_score : bool) (hit : document) : outcome document :=
  and_then (subscript hit "_source") (fun src =>
  match src with
  | JObj members =>
      and_then (if include_id
                then and_then (subscript hit "_id") (fun v => Ok (assoc_set "_id" v members))
                else Ok members) (fun m1 =>
      and_then (if include_score
                then and_then (subscript hit "_score") (fun v => Ok (assoc_set "_score" v m1))
                else Ok m1) (fun m2 =>
      Ok (JObj m2)))
  | JArr items =>
      and_then (if include_id
                then and_then (subscript hit "_id") (fun _ => Raise TypeError)
                else Ok tt) (fun _ =>
      and_then (if include_score
                then and_then (subscript hit "_score") (fun _ => Raise TypeError)
                else Ok tt) (fun _ =>
      Ok (JArr items)))
  | _ => Raise AttributeError
  end).

Definition comprehension (hs : document) (key : string) : outcome (list document) :=
  and_then (iterate hs) (fun xs =>
  collect (each (fun hit => single (subscript hit key)) xs)).

Definition get_sources (include_id include_score : bool) (body : document)
  : outcome (list document) :=
  and_then (hits body) (fun hs =>
  if negb include_id && negb include_score then comprehension hs "_source"
  else
    and_then (iterate hs) (fun xs =>
    collect (each (fun hit => single (merged include_id include_score hit)) xs))).

Definition get_ids (body : document) : outcome (list document) :=
  and_then (hits body) (fun hs => comprehension hs "_id").

Definition explanation (body : document) : outcome document :=
  get body "explanation" (JObj []).

Definition score (body : document) : outcome document :=
  and_then (explanation body) (fun e => get e "value" JNull).

Fixpoint walk (fuel : nat) (node : document) (depth : Z)
  : list BreakdownRow * outcome unit :=
  match fuel with
  | O => ([], Undefined)
  | S fuel' =>
      match node with
      | JObj members =>
          let row := (depth, field "value" (JInt 0) members,
                      field "description" (JStr "") members) in
          match iterate (field "details" (JArr []) members) with
          | Ok ds =>
              let (rows, o) := each (fun d => walk fuel' d (depth + 1)) ds in
              (row :: rows, o)
          | Raise e => ([row], Raise e)
          | Undefined => ([row], Undefined)
          end
      | _ => ([], Raise AttributeError)
      end
  end.

Definition get_breakdown (fuel : nat) (body : document) : outcome (list BreakdownRow) :=
  and_then (explanation body) (fun e => collect (walk fuel e 0)).

End Doc.

Local Close Scope Z_scope.

(** ** Refinement and frames *)

(** An outcome of a method against an outcome of its document-level
    reading: the same exception, or results related by [R]. *)
Definition agrees {A B : Type} (R : A -> B -> Prop) (res : outcome A) (d : outcome B)
  : Prop :=
  match d, res with
  | Ok b, Ok a => R a b
  | Raise e, Raise e' => e' = e
  | Undefined, Undefined => True
  | _, _ => False
  end.

(** [m], run from [s], ends as the document-level reading [d] says, and
    it leaves every object of [s] as it was. *)
Definition refines {A B : Type} (R : list obj -> A -> B -> Prop)
    (m : M A) (d : outcome B) (s : state) : Prop :=
  exists res s', m s = (res, s') /\ extends s s' /\ agrees (R (heap s')) res d.

(** [v] is a list of rows of the store [h] that hold [rows]. *)
Definition repr_rows (h : list obj) (v : val) (rows : list BreakdownRow) : Prop :=
  exists l vs, v = VRef l /\ h !! l = Some (OList vs) /\ Forall2 (repr_row h) vs rows.

(** Every object of [h] is, at the same place, an object of [h']. *)
Definition sub_store (h h' : list obj) : Prop :=
  forall l o, h !! l = Some o -> h' !! l = Some o.

(** [m], run from [s] where [r] is a list, ends as [d] says, appends to
    [r] values related by [Rel] to the elements of [d], and changes no
    other object. *)
Definition appends {B : Type} (r : loc) (Rel : state -> val -> B -> Prop)
    (m : M unit) (d : list B * outcome unit) (s : state) : Prop :=
  forall acc, heap s !! r = Some (OList acc) ->
    exists s' vs,
      m s = (snd d, s') /\
      mutates_only r s s' /\
      heap s' !! r = Some (OList (acc ++ vs)) /\
      Forall2 (Rel s') vs (fst d).

(** [v] is a list made since [s], whose elements are related by [item]
    to [docs]. *)
Definition fresh_list (s s' : state) (item : val -> document -> Prop)
    (v : val) (docs : list document) : Prop :=
  exists l vs,
    v = VRef l /\ length (heap s) <= l /\
    heap s' !! l = Some (OList vs) /\ Forall2 item vs docs.

(** A mapping or list built by the running call: it sits above the
    result list [r], and its elements are in the store below [r]. *)
Definition owned (r : loc) (s : state) (v : val) (doc : document) : Prop :=
  exists c, v = VRef c /\ r < c /\
    match doc with
    | JObj ms =>
        exists items, heap s !! c = Some (ODict items) /\
          map fst items = map fst ms /\
          Forall2 (repr (take r (heap s))) (map snd items) (map snd ms)
    | JArr js =>
        exists vs, heap s !! c = Some (OList vs) /\
          Forall2 (repr (take r (heap s))) vs js
    | _ => False
    end.

(** A value that is a document of the part [h] of the store, or an
    empty container standing in for an absent field. *)
Definition held (h : list obj) (s : state) (v : val) (d : document) : Prop :=
  repr h v d \/
  exists l, v = VRef l /\
    ((heap s !! l = Some (ODict []) /\ d = JObj []) \/
     (heap s !! l = Some (OList []) /\ d = JArr [])).

(** [s'] has the first [n] objects of [s] unchanged, no fewer objects,
    and no further decoding has taken place. *)
Definition keeps (n : nat) (s s' : state) : Prop :=
  length (heap s) <= length (heap s') /\
  take n (heap s') = take n (heap s) /\
  parses s' = parses s.

(** Run from any store with at least [n] objects, [m] keeps the first
    [n] of them, and its result satisfies [Q]. *)
Definition framed {A : Type} (n : nat) (m : M A) (Q : A -> Prop) : Prop :=
  forall s, n <= length (heap s) ->
    keeps n s (snd (m s)) /\ forall a, fst (m s) = Ok a -> Q a.

(** A reference to an object that the first [n] do not include. *)
Definition above (n : nat) (v : val) : Prop := forall l, v = VRef l -> n <= l.

Definition any {A : Type} (a : A) : Prop := True.

(** ** Records and tables *)

Definition has_key (r : list (string * val)) (c : string) : bool :=
  match assoc_get c r with
  | Some _ => true
  | None => false
  end.

(** Some record has the key [c]. *)
Definition mentions (records : list (list (string * val))) (c : string) : bool :=
  existsb (fun r => has_key r c) records.

(** [v] is a reference to a mapping with the items [r]. *)
Definition record_at (s : state) (v : val) (r : list (string * val)) : Prop :=
  exists c, v = VRef c /\ heap s !! c = Some (ODict r).

(** The table of [records] with exactly the columns [cols], in that
    order: one row per record, one cell per column, the column of a
    label made of what the records have for it. *)
Definition project (cols : list string) (records : list (list (string * val)))
  : pd.DataFrame :=
  pd.table cols cols (fun c r => assoc_get c r) records.

(** ** Hit records *)

Definition hit_id (hit : document) : option document :=
  match hit with
  | JObj ms => assoc_get "_id" ms
  | _ => None
  end.

(** A hit record with a mapping under [_source], an [_id], and, when the
    score is asked for, a [_score]. *)
Definition complete_hit (include_score : bool) (hit : document) : Prop :=
  match hit with
  | JObj ms =>
      (exists src, assoc_get "_source" ms = Some (JObj src)) /\
      is_Some (assoc_get "_id" ms) /\
      (include_score = true -> is_Some (assoc_get "_score" ms))
  | _ => False
  end.

Definition is_mapping (d : document) : Prop :=
  match d with
  | JObj _ => True
  | _ => False
  end.

(** A hit record without the key [key]. *)
Definition lacks (key : string) (hit : document) : Prop :=
  match hit with
  | JObj ms => assoc_get key ms = None
  | _ => False
  end.

(** A hit record whose [_source], if it has one, is a mapping. *)
Definition mapping_source (hit : document) : Prop :=
  match hit with
  | JObj ms =>
      match assoc_get "_source" ms with
      | Some (JObj _) | None => True
      | Some _ => False
      end
  | _ => False
  end.

(** The keys [get_sources] reads from a hit. *)
Definition needs (include_id include_score : bool) (key : string) : Prop :=
  key = "_source" \/
  (include_id = true /\ key = "_id") \/
  (include_score = true /\ key = "_score").

(** ** Sequences of calls *)

(** A call of an accessor or a method on an instance of either class. *)
Inductive call : Type :=
| search_status_code (self : SearchResults.t)
| search_raw (self : SearchResults.t)
| search_hits (self : SearchResults.t)
| search_total (self : SearchResults.t)
| search_get_sources (include_id include_score : bool) (self : SearchResults.t)
| search_get_ids (self : SearchResults.t)
| search_to_dataframe (columns : option (list string)) (include_id include_score : bool)
    (self : SearchResults.t)
| explain_explanation (self : ExplainResult.t)
| explain_score (self : ExplainResult.t)
| explain_get_breakdown (fuel : nat) (self : ExplainResult.t)
| explain_to_dataframe (fuel : nat) (self : ExplainResult.t).

(** The state a call leaves, whatever its outcome. *)
Definition after {A : Type} (m : M A) (s : state) : state := snd (m s).

Definition run_call (c : call) (s : state) : state :=
  match c with
  | search_status_code self => after (SearchResults.status_code self) s
  | search_raw self => after (SearchResults.raw self) s
  | search_hits self => after (SearchResults.hits self) s
  | search_total self => after (SearchResults.total self) s
  | search_get_sources i sc self => after (SearchResults.get_sources i sc self) s
  | search_get_ids self => after (SearchResults.get_ids self) s
  | search_to_dataframe cols i sc self => after (SearchResults.to_dataframe cols i sc self) s
  | explain_explanation self => after (ExplainResult.explanation self) s
  | explain_score self => after (ExplainResult.score self) s
  | explain_get_breakdown fuel self => after (ExplainResult.get_breakdown fuel self) s
  | explain_to_dataframe fuel self => after (ExplainResult.to_dataframe fuel self) s
  end.

(** The calls in order, each from the state the one before left; a
    caller may go on after an exception. *)
Definition run_calls (calls : list call) (s : state) : state :=
  fold_left (fun s c => run_call c s) calls s.

(** ** Example responses *)

Definition response_of (j : document) : Response.t :=
  {| Response.status_code := 200; Response.body := Some j |}.

Definition invalid_response : Response.t :=
  {| Response.status_code := 502; Response.body := None |}.

(** The instance and the state a constructor call leaves, started from
    the empty store. *)
Definition explain_of (j : document) : ExplainResult.t * state :=
  match ExplainResult.__init__ (response_of j) empty_state with
  | (Ok self, s) => (self, s)
  | (_, s) => ({| ExplainResult._response := response_of j;
                  ExplainResult._json := VNone |}, s)
  end.

Definition search_of (j : document) : SearchResults.t * state :=
  match SearchResults.__init__ (response_of j) empty_state with
  | (Ok self, s) => (self, s)
  | (_, s) => ({| SearchResults._response := response_of j;
                  SearchResults._json := VNone |}, s)
  end.

Definition example_tree : document :=
  JObj [("value", JInt 10); ("description", JStr "root");
        ("details", JArr [
           JObj [("value", JInt 4); ("description", JStr "a")];
           JObj [("value", JInt 6); ("description", JStr "b");
                 ("details", JArr [JObj [("value", JInt 6); ("description", JStr "c")]])]])].

Definition example_node : ExplanationNode :=
  Node (JInt 10) (JStr "root")
       [Node (JInt 4) (JStr "a") [];
        Node (JInt 6) (JStr "b") [Node (JInt 6) (JStr "c") []]].

Definition example_response : Response.t :=
  response_of (JObj [("explanation", example_tree)]).

Definition example_explain : ExplainResult.t * state :=
  explain_of (JObj [("explanation", example_tree)]).

Definition total_body : list (string * document) :=
  [("hits", JObj [("total", JObj [("value", JInt 42)]); ("hits", JArr [])])].

(** Two hits; the source of the first has an [_id] field of its own. *)
Definition hits_body : list (string * document) :=
  [("hits",
    JObj [("total", JObj [("value", JInt 2)]);
          ("hits",
           JArr [JObj [("_id", JStr "1"); ("_score", JFloat (S754_finite false 3 (-1)));
                       ("_source", JObj [("title", JStr "x"); ("_id", JStr "old")])];
                 JObj [("_id", JStr "2"); ("_score", JInt 1);
                       ("_source", JObj [("title", JStr "y")])]])])].

(** One hit without [_id] and [_score]. *)
Definition missing_id_body : list (string * document) :=
  [("hits", JObj [("hits", JArr [JObj [("_source", JObj [("a", JInt 1)])]])])].

(** One hit without [_source]. *)
Definition missing_source_body : list (string * document) :=
  [("hits", JObj [("hits", JArr [JObj [("_id", JStr "1"); ("_score", JInt 1)]])])].

Definition one_hit_body : list (string * document) :=
  [("hits", JObj [("hits", JArr [JObj [("_id", JStr "1");
                                       ("_source", JObj [("a", JInt 1)])]])])].

(** ** Values in the store *)

(** In [h], [x] is a mapping that binds [key] to [v]. *)
Definition field_at (h : list obj) (key : string) (x v : val) : Prop :=
  exists l items,
    x = VRef l /\ h !! l = Some (ODict items) /\ assoc_get key items = Some v.

(** In [h], [v] is a list with the elements [items]. *)
Definition list_at (h : list obj) (v : val) (items : list val) : Prop :=
  exists l, v = VRef l /\ h !! l = Some (OList items).

(** In [h], the body [json] has the value [hv] under [hits], [hits]. *)
Definition hits_at (h : list obj) (json hv : val) : Prop :=
  exists inner, field_at h "hits" json inner /\ field_at h "hits" inner hv.

(** The number of nodes of a tree. *)
Fixpoint size (t : ExplanationNode) : nat :=
  match t with
  | Node _ _ ts => S (foldr (fun c n => size c + n) O ts)
  end.

(** The elements of a tuple. *)
Definition elements (v : val) : list val :=
  match v with
  | VTuple cells => cells
  | _ => []
  end.

(** The element at position [k] of a tuple. *)
Definition component (k : nat) (v : val) : option val := elements v !! k.

(** A document that is neither an array nor an object. *)
Definition scalar (d : document) : Prop :=
  match d with
  | JArr _ | JObj _ => False
  | _ => True
  end.

(** The binding of [key] in the mapping [items] of the store is the one
    of the document [members]: both absent, or the value held. *)
Definition same_binding (h : list obj) (key : string)
    (items : list (string * val)) (members : list (string * document)) : Prop :=
  match assoc_get key items, assoc_get key members with
  | Some v, Some j => repr h v j
  | None, None => True
  | _, _ => False
  end.

(** A document a [for] loop cannot run over. *)
Definition not_iterable (d : document) : Prop :=
  match d with
  | JNull | JBool _ | JInt _ | JFloat _ => True
  | _ => False
  end.

(** A row of a breakdown as the store holds it: a tuple of the depth,
    a value and a description. *)
Definition is_row (v : val) : Prop :=
  exists depth value desc, v = VTuple [VInt depth; value; desc].

(** The instance and the state of the two-hit example. *)
Definition example_search : SearchResults.t * state := search_of (JObj hits_body).

(** ** Keys of a merged record *)

(** The keys of a mapping after [d[key] = v]. *)
Definition with_key (key : string) (keys : list string) : list string :=
  if existsb (String.eqb key) keys then keys else keys ++ [key].

(** The keys of a source mapping after the requested keys are set. *)
Definition merged_keys (include_id include_score : bool) (keys : list string)
  : list string :=
  let ks := if include_id then with_key "_id" keys else keys in
  if include_score then with_key "_score" ks else ks.

(** [key] is one of the requested keys, which [get_sources] takes from
    the hit rather than from its source. *)
Definition from_hit (include_id include_score : bool) (key : string) : bool :=
  (include_id && String.eqb key "_id") || (include_score && String.eqb key "_score").

(** A response document that has no hit: the outer or the inner [hits]
    is absent, or the inner one is the empty array. *)
Definition no_hits (body : list (string * document)) : Prop :=
  assoc_get "hits" body = None \/
  exists hd,
    assoc_get "hits" body = Some (JObj hd) /\
    (assoc_get "hits" hd = None \/ assoc_get "hits" hd = Some (JArr [])).

(** Two hits, the second with a null [_source]. *)
Definition null_source_body : list (string * document) :=
  [("hits",
    JObj [("hits",
           JArr [JObj [("_id", JStr "1"); ("_score", JInt 2);
                       ("_source", JObj [("a", JInt 1)])];
                 JObj [("_id", JStr "2"); ("_score", JInt 1); ("_source", JNull)]])])].

(** A hit record whose source is a mapping without the key [key]. *)
Definition source_lacks (key : string) (hit : document) : Prop :=
  match hit with
  | JObj ms =>
      match assoc_get "_source" ms with
      | Some (JObj src) => assoc_get key src = None
      | _ => False
      end
  | _ => False
  end.

(** A response as Elasticsearch 6 writes it: [hits.total] is a number. *)
Definition legacy_total_body : list (string * document) :=
  [("hits", JObj [("total", JInt 7); ("hits", JArr [])])].

(** * Properties *)

(** ** Association lists *)

Lemma assoc_get_set_eq {A : Type} (key : string) (v : A) items :
  assoc_get key (assoc_set key v items) = Some v.
Proof.
  induction items as [|[k w] rest IH]; simpl.
  - by rewrite String.eqb_refl.
  - destruct (String.eqb key k) eqn:E; simpl; rewrite E; auto.
Qed.

Lemma assoc_get_set_ne {A : Type} (key key' : string) (v : A) items :
  key <> key' ->
  assoc_get key' (assoc_set key v items) = assoc_get key' items.
Proof.
  intros Hne. induction items as [|[k w] rest IH]; simpl.
  - destruct (String.eqb_spec key' key); congruence.
  - destruct (String.eqb_spec key k) as [->|]; simpl.
    + destruct (String.eqb_spec key' k); congruence.
    + by rewrite IH.
Qed.

Lemma map_fst_assoc_set {A B : Type} (key : string) (v : A) (w : B) items members :
  map fst items = map fst members ->
  map fst (assoc_set key v items) = map fst (assoc_set key w members).
Proof.
  revert members. induction items as [|[k x] rest IH]; intros [|[k' y] ms]; simpl; try done.
  intros [= -> Hrest]. destruct (String.eqb key k'); simpl; f_equal; auto.
Qed.

(** ** Induction on documents *)

Lemma document_induction (P : document -> Prop) :
  P JNull ->
  (forall b, P (JBool b)) ->
  (forall z, P (JInt z)) ->
  (forall f, P (JFloat f)) ->
  (forall s, P (JStr s)) ->
  (forall js, Forall P js -> P (JArr js)) ->
  (forall ms, Forall P (map snd ms) -> P (JObj ms)) ->
  forall j, P j.
Proof.
  intros Hnull Hbool Hnum Hfloat Hstr Harr Hobj.
  fix IH 1. intros [| b | z | f | s | js | ms].
  - exact Hnull.
  - apply Hbool.
  - apply Hnum.
  - apply Hfloat.
  - apply Hstr.
  - apply Harr. induction js as [|j js IHjs]; constructor; [apply IH | exact IHjs].
  - apply Hobj. induction ms as [|[k j] ms IHms]; constructor; [apply IH | exact IHms].
Qed.

(** ** Documents in the store *)

Lemma Forall2_repr_mono h h' js :
  Forall (fun j => forall v, repr h v j -> repr h' v j) js ->
  forall vs, Forall2 (repr h) vs js -> Forall2 (repr h') vs js.
Proof.
  induction 1 as [|j js Hj _ IH]; intros vs Hvs; inversion Hvs; subst; constructor; auto.
Qed.

Lemma repr_mono h h' v j : repr h v j -> sub_store h h' -> repr h' v j.
Proof.
  intros Hr Hsub. revert v Hr.
  induction j as [| b | z | f | s | js IH | ms IH] using document_induction;
    intros v Hr;
    inversion Hr as [ | | | | | l vs js' Hl Hvs | l items ms' Hl Hk Hvs]; subst.
  - constructor.
  - constructor.
  - constructor.
  - constructor.
  - constructor.
  - econstructor; [by apply Hsub|]. by apply (Forall2_repr_mono h h' js).
  - econstructor; [by apply Hsub|done|]. by apply (Forall2_repr_mono h h' (map snd ms)).
Qed.

Lemma sub_store_prefix h h' : h `prefix_of` h' -> sub_store h h'.
Proof. intros [k ->] l o Hl. by apply lookup_app_l_Some. Qed.

Lemma sub_store_take n h : sub_store (take n h) h.
Proof. apply sub_store_prefix, prefix_take. Qed.

Lemma repr_members h items members key :
  map fst items = map fst members ->
  Forall2 (repr h) (map snd items) (map snd members) ->
  match assoc_get key items, assoc_get key members with
  | Some v, Some j => repr h v j
  | None, None => True
  | _, _ => False
  end.
Proof.
  revert members. induction items as [|[k v] rest IH]; intros [|[k' j] ms]; simpl; try done.
  intros [= -> Hk] Hv. inversion Hv; subst.
  destruct (String.eqb key k'); [done | by apply IH].
Qed.

Lemma repr_field h items members key d dj :
  map fst items = map fst members ->
  Forall2 (repr h) (map snd items) (map snd members) ->
  repr h d dj ->
  repr h (from_option id d (assoc_get key items)) (field key dj members).
Proof.
  intros Hk Hv Hd. pose proof (repr_members h items members key Hk Hv) as H.
  unfold field. destruct (assoc_get key items), (assoc_get key members); simpl; done.
Qed.

Lemma repr_assoc_set h items members key v j :
  map fst items = map fst members ->
  Forall2 (repr h) (map snd items) (map snd members) ->
  repr h v j ->
  Forall2 (repr h) (map snd (assoc_set key v items)) (map snd (assoc_set key j members)).
Proof.
  revert members. induction items as [|[k x] rest IH]; intros [|[k' y] ms]; simpl; try done.
  - intros _ _ Hv. by repeat constructor.
  - intros [= -> Hk] Hv Hr. inversion Hv; subst.
    destruct (String.eqb key k'); simpl; constructor; auto.
Qed.

Lemma repr_keys h (items : list (string * val)) (members : list (string * document)) :
  map fst items = map fst members ->
  Forall2 (repr h) (map (fun kv => VStr (fst kv)) items)
                   (map (fun kv => JStr (fst kv)) members).
Proof.
  revert members. induction items as [|[k x] rest IH]; intros [|[k' y] ms]; simpl; try done.
  intros [= -> Hk]. constructor; [constructor | auto].
Qed.

Lemma repr_chars h s : Forall2 (repr h) (chars s) (Doc.chars s).
Proof. induction s; simpl; constructor; [constructor | auto]. Qed.

(** ** Frames *)

Lemma extends_refl s : extends s s.
Proof. split; done. Qed.

Lemma extends_trans s1 s2 s3 : extends s1 s2 -> extends s2 s3 -> extends s1 s3.
Proof. intros [H1 P1] [H2 P2]. split; [by etrans | congruence]. Qed.

Lemma extends_sub_store s s' : extends s s' -> sub_store (heap s) (heap s').
Proof. intros [H _]. by apply sub_store_prefix. Qed.

Lemma extends_length s s' : extends s s' -> length (heap s) <= length (heap s').
Proof. intros [H _]. by apply prefix_length. Qed.

Lemma extends_repr s s' v j : extends s s' -> repr (heap s) v j -> repr (heap s') v j.
Proof. intros H Hr. eapply repr_mono; [done | by apply extends_sub_store]. Qed.

Lemma extends_mutates_only r s s' : extends s s' -> mutates_only r s s'.
Proof.
  intros H. split; [by apply extends_length|]. split; [|by destruct H].
  intros l o _. by apply extends_sub_store.
Qed.

Lemma mutates_only_refl r s : mutates_only r s s.
Proof. apply extends_mutates_only, extends_refl. Qed.

Lemma mutates_only_trans r s1 s2 s3 :
  mutates_only r s1 s2 -> mutates_only r s2 s3 -> mutates_only r s1 s3.
Proof.
  intros (L1 & F1 & P1) (L2 & F2 & P2). split; [lia|]. split; [|congruence].
  intros l o Hl Ho. auto.
Qed.

Lemma mutates_only_take r s s' :
  mutates_only r s s' -> r <= length (heap s) -> take r (heap s') = take r (heap s).
Proof.
  intros (L & F & _) Hr. apply list_eq. intros i.
  destruct (decide (i < r)) as [Hi|Hi].
  - rewrite !lookup_take_lt by done.
    destruct (lookup_lt_is_Some_2 (heap s) i ltac:(lia)) as [o Ho].
    rewrite Ho. apply F; [lia | done].
  - rewrite !lookup_take_ge by lia. done.
Qed.

(** A run that only wrote to an object that did not exist before it
    started leaves the earlier store as it was. *)
Lemma mutates_only_fresh r s s' :
  mutates_only r s s' -> length (heap s) <= r -> extends s s'.
Proof.
  intros (L & F & P) Hr. split; [|done].
  exists (drop (length (heap s)) (heap s')).
  rewrite <- (take_drop (length (heap s)) (heap s')) at 1. f_equal.
  apply list_eq. intros i. destruct (decide (i < length (heap s))) as [Hi|Hi].
  - rewrite lookup_take_lt by done.
    destruct (lookup_lt_is_Some_2 (heap s) i Hi) as [o Ho].
    rewrite Ho. apply F; [lia | done].
  - rewrite lookup_take_ge by lia. symmetry. apply lookup_ge_None. lia.
Qed.

(** ** The built-in operations refine their document-level reading *)

Lemma agrees_ok {A B : Type} (R : A -> B -> Prop) res b :
  agrees R res (Ok b) -> exists a, res = Ok a /\ R a b.
Proof. destruct res; simpl; [eauto | done | done]. Qed.

Lemma agrees_raise {A B : Type} (R : A -> B -> Prop) res e :
  agrees R res (Raise e) -> res = Raise e.
Proof. destruct res; simpl; [done | congruence | done]. Qed.

Lemma agrees_undefined {A B : Type} (R : A -> B -> Prop) res :
  agrees R res Undefined -> res = Undefined.
Proof. by destruct res. Qed.

Lemma agrees_impl {A B : Type} (R R' : A -> B -> Prop) res d :
  agrees R res d -> (forall a b, R a b -> R' a b) -> agrees R' res d.
Proof. destruct d, res; simpl; auto. Qed.

Lemma refines_ret {A B : Type} (R : list obj -> A -> B -> Prop) a b s :
  R (heap s) a b -> refines R (ret a) (Ok b) s.
Proof. intros H. exists (Ok a), s. split; [done|]. split; [apply extends_refl | done]. Qed.

Lemma refines_bind {A B A' B' : Type}
    (R : list obj -> A -> B -> Prop) (R' : list obj -> A' -> B' -> Prop)
    (m : M A) (f : A -> M A') (d : outcome B) (g : B -> outcome B') s :
  refines R m d s ->
  (forall a b s', extends s s' -> R (heap s') a b -> refines R' (f a) (g b) s') ->
  refines R' (bind m f) (Doc.and_then d g) s.
Proof.
  intros (res & s1 & Hm & Hext & Hag) Hf. unfold refines, bind. rewrite Hm.
  destruct d as [b | e |]; simpl.
  - apply agrees_ok in Hag as (a & -> & HR).
    destruct (Hf a b s1 Hext HR) as (res2 & s2 & Hf2 & Hext2 & H2).
    exists res2, s2. split; [done|]. split; [by eapply extends_trans | done].
  - apply agrees_raise in Hag as ->. by exists (Raise e), s1.
  - apply agrees_undefined in Hag as ->. by exists Undefined, s1.
Qed.

Lemma extends_alloc s o :
  extends s {| heap := heap s ++ [o]; parses := parses s |}.
Proof. split; [by apply prefix_app_r | done]. Qed.

Lemma lookup_alloc (h : list obj) o : (h ++ [o]) !! length h = Some o.
Proof. by rewrite lookup_app_r, Nat.sub_diag. Qed.

Lemma refines_alloc o j s :
  (forall h l, h !! l = Some o -> repr h (VRef l) j) ->
  refines repr (alloc o) (Ok j) s.
Proof.
  intros H. eexists _, _. split; [reflexivity|]. split; [apply extends_alloc|].
  apply H, lookup_alloc.
Qed.

Lemma refines_new_dict s : refines repr new_dict (Ok (JObj [])) s.
Proof. apply refines_alloc. intros h l Hl. by econstructor. Qed.

Lemma refines_new_list s : refines repr new_list (Ok (JArr [])) s.
Proof. apply refines_alloc. intros h l Hl. by econstructor. Qed.

Lemma deref_eq s l o : heap s !! l = Some o -> deref l s = (Ok o, s).
Proof. intros H. unfold deref. by rewrite H. Qed.

(** Reading operations, for a document held in a part [h] of the store:
    the state is left as it is and the result is again in [h]. *)

Lemma subscript_in h o j key s :
  repr h o j -> sub_store h (heap s) ->
  exists res, subscript o key s = (res, s) /\
              agrees (repr h) res (Doc.subscript j key).
Proof.
  intros Hr Hsub.
  inversion Hr as [ | | | | | l vs js Hl Hvs | l items ms Hl Hk Hvs]; subst; simpl;
    try (by eexists).
  - unfold bind. rewrite (deref_eq _ _ _ (Hsub _ _ Hl)). by eexists.
  - pose proof (repr_members _ _ _ key Hk Hvs) as H.
    unfold bind. rewrite (deref_eq _ _ _ (Hsub _ _ Hl)).
    destruct (assoc_get key items), (assoc_get key ms); try done; by eexists.
Qed.

Lemma iterate_in h o j s :
  repr h o j -> sub_store h (heap s) ->
  exists res, iterate o s = (res, s) /\
              agrees (Forall2 (repr h)) res (Doc.iterate j).
Proof.
  intros Hr Hsub.
  inversion Hr as [ | | | | | l vs js Hl Hvs | l items ms Hl Hk Hvs]; subst; simpl;
    try (by eexists).
  - eexists. split; [done|]. apply repr_chars.
  - unfold bind. rewrite (deref_eq _ _ _ (Hsub _ _ Hl)). by eexists.
  - unfold bind. rewrite (deref_eq _ _ _ (Hsub _ _ Hl)).
    eexists. split; [done|]. by apply repr_keys.
Qed.

Lemma sub_store_refl h : sub_store h h.
Proof. by intros l o. Qed.

Lemma dict_get_refines o j key dflt dj s :
  repr (heap s) o j ->
  refines repr dflt (Ok dj) s ->
  refines repr (dict_get o key dflt) (Doc.get j key dj) s.
Proof.
  intros Hr (dres & s' & Hrun & Hext & Hd).
  apply agrees_ok in Hd as (d & -> & Hd).
  inversion Hr as [ | | | | | l vs js Hl Hvs | l items ms Hl Hk Hvs]; subst; simpl;
    try (exists (Raise AttributeError), s; split; [done|]; split; [apply extends_refl | done]).
  - exists (Raise AttributeError), s. unfold bind. rewrite (deref_eq _ _ _ Hl).
    split; [done|]. split; [apply extends_refl | done].
  - eexists _, s'. unfold bind. rewrite (deref_eq _ _ _ Hl), Hrun.
    split; [reflexivity|]. split; [done|]. simpl.
    apply repr_field; [done | | done].
    eapply Forall2_impl; [done|]. intros v j Hvj. by eapply extends_repr.
Qed.

(** ** The accessors refine their document-level reading *)

Lemma hits_refines self j s :
  repr (heap s) (SearchResults._json self) j ->
  refines repr (SearchResults.hits self) (Doc.hits j) s.
Proof.
  intros Hr. unfold SearchResults.hits, Doc.hits.
  eapply refines_bind.
  - apply dict_get_refines; [done | apply refines_new_dict].
  - intros h dh s' _ Hh. apply dict_get_refines; [done | apply refines_new_list].
Qed.

Lemma total_refines self j s :
  repr (heap s) (SearchResults._json self) j ->
  refines repr (SearchResults.total self) (Doc.total j) s.
Proof.
  intros Hr. unfold SearchResults.total, Doc.total.
  eapply refines_bind.
  { apply dict_get_refines; [done | apply refines_new_dict]. }
  intros h dh s' _ Hh. eapply refines_bind.
  { apply dict_get_refines; [done | apply refines_new_dict]. }
  intros t dt s'' _ Ht.
  apply dict_get_refines; [done | apply refines_ret; constructor].
Qed.

Lemma explanation_refines self j s :
  repr (heap s) (ExplainResult._json self) j ->
  refines repr (ExplainResult.explanation self) (Doc.explanation j) s.
Proof.
  intros Hr. apply dict_get_refines; [done | apply refines_new_dict].
Qed.

Lemma score_refines self j s :
  repr (heap s) (ExplainResult._json self) j ->
  refines repr (ExplainResult.score self) (Doc.score j) s.
Proof.
  intros Hr. unfold ExplainResult.score, Doc.score.
  eapply refines_bind; [by apply explanation_refines|].
  intros e de s' _ He.
  apply dict_get_refines; [done | apply refines_ret; constructor].
Qed.

(** ** Loops that append to a result list *)

Lemma take_mutates_only r s s' acc :
  heap s !! r = Some (OList acc) -> mutates_only r s s' ->
  take r (heap s') = take r (heap s).
Proof.
  intros Hr Hm. apply mutates_only_take; [done|].
  apply lookup_lt_Some in Hr. lia.
Qed.

Section loop.
Context {B : Type} (r : loc) (body : val -> M unit).
Context (g : document -> list B * outcome unit) (Rel : state -> val -> B -> Prop).

Hypothesis Rel_mono : forall s s' v b,
  r < length (heap s) -> mutates_only r s s' -> Rel s v b -> Rel s' v b.

Hypothesis body_appends : forall x dx s,
  repr (take r (heap s)) x dx -> appends r Rel (body x) (g dx) s.

Lemma for_each_appends xs dxs s :
  Forall2 (repr (take r (heap s))) xs dxs ->
  appends r Rel (for_each xs body) (Doc.each g dxs) s.
Proof.
  revert dxs s. induction xs as [|x xs IH]; intros dxs s Hxs acc Hacc;
    inversion Hxs as [|? dx ? dxs' Hx Hrest]; subst; simpl.
  - exists s, []. rewrite app_nil_r. split; [done|].
    split; [apply mutates_only_refl|]. split; [done | constructor].
  - destruct (body_appends x dx s Hx acc Hacc) as (s1 & vs1 & Hrun & Hmut & Hr1 & Hrel1).
    unfold bind. rewrite Hrun. destruct (g dx) as [bs [[] | e |]]; simpl in *.
    + assert (Forall2 (repr (take r (heap s1))) xs dxs') as Hrest1.
      { by rewrite (take_mutates_only r s s1 acc). }
      destruct (IH dxs' s1 Hrest1 _ Hr1) as (s2 & vs2 & Hrun2 & Hmut2 & Hr2 & Hrel2).
      destruct (Doc.each g dxs') as [bs' o']; simpl in *.
      exists s2, (vs1 ++ vs2). split; [done|].
      split; [by eapply mutates_only_trans|]. split; [by rewrite app_assoc|].
      apply Forall2_app; [|done].
      eapply Forall2_impl; [done|]. intros v b Hvb.
      eapply Rel_mono; [|done|done]. by eapply lookup_lt_Some.
    + by exists s1, vs1.
    + by exists s1, vs1.
Qed.
End loop.

(** ** The closure [walk] *)

Lemma list_append_eq s r acc v :
  heap s !! r = Some (OList acc) ->
  list_append (VRef r) v s =
    (Ok tt, {| heap := <[r := OList (acc ++ [v])]> (heap s); parses := parses s |}).
Proof.
  intros H. unfold list_append, bind, store. rewrite (deref_eq _ _ _ H). simpl.
  by rewrite H.
Qed.

Lemma mutates_only_store r s o :
  mutates_only r s {| heap := <[r := o]> (heap s); parses := parses s |}.
Proof.
  split; [simpl; by rewrite length_insert|]. split; [|done].
  intros l o' Hl Ho. simpl. by rewrite list_lookup_insert_ne.
Qed.

Lemma mutates_only_alloc r s o :
  mutates_only r s {| heap := heap s ++ [o]; parses := parses s |}.
Proof. apply extends_mutates_only, extends_alloc. Qed.

Lemma repr_row_mono r s s' v (row : BreakdownRow) :
  r < length (heap s) -> mutates_only r s s' ->
  repr_row (take r (heap s)) v row -> repr_row (take r (heap s')) v row.
Proof.
  intros Hr Hm H. rewrite (mutates_only_take r s s'); [done | done | lia].
Qed.

Lemma bind_ok {A B : Type} (m : M A) (f : A -> M B) s a s' :
  m s = (Ok a, s') -> bind m f s = f a s'.
Proof. intros H. unfold bind. by rewrite H. Qed.

Lemma bind_raise {A B : Type} (m : M A) (f : A -> M B) s e s' :
  m s = (Raise e, s') -> bind m f s = (Raise e, s').
Proof. intros H. unfold bind. by rewrite H. Qed.

Lemma bind_undefined {A B : Type} (m : M A) (f : A -> M B) s s' :
  m s = (Undefined, s') -> bind m f s = (Undefined, s').
Proof. intros H. unfold bind. by rewrite H. Qed.

Lemma dict_get_ret_eq s l items key d :
  heap s !! l = Some (ODict items) ->
  dict_get (VRef l) key (ret d) s = (Ok (from_option id d (assoc_get key items)), s).
Proof. intros H. unfold dict_get, bind. by rewrite (deref_eq _ _ _ H). Qed.

Lemma dict_get_alloc_eq s l items key o :
  heap s !! l = Some (ODict items) ->
  dict_get (VRef l) key (alloc o) s =
    (Ok (from_option id (VRef (length (heap s))) (assoc_get key items)),
     {| heap := heap s ++ [o]; parses := parses s |}).
Proof. intros H. unfold dict_get, bind. by rewrite (deref_eq _ _ _ H). Qed.

Lemma dict_get_no_attribute s o key dflt :
  (forall l items, o = VRef l -> heap s !! l <> Some (ODict items)) ->
  (forall l, o = VRef l -> is_Some (heap s !! l)) ->
  dict_get o key dflt s = (Raise AttributeError, s).
Proof.
  intros Hno Hsome. destruct o as [ | | | | | | l]; try done.
  destruct (Hsome l eq_refl) as [ob Hob]. unfold dict_get, bind.
  rewrite (deref_eq _ _ _ Hob). destruct ob; [|done]. by destruct (Hno l items eq_refl).
Qed.

Lemma walk_unfold fuel result node depth :
  ExplainResult.walk (S fuel) result node depth =
  (let* desc := dict_get node "description" (ret (VStr "")) in
   let* value := dict_get node "value" (ret (VInt 0)) in
   exec list_append result (VTuple [VInt depth; value; desc]) in
   let* details := dict_get node "details" new_list in
   let* ds := iterate details in
   for_each ds (fun detail => ExplainResult.walk fuel result detail (depth + 1)%Z)).
Proof. reflexivity. Qed.

(** One call of [walk] on a mapping, given what the nested calls do. *)
Lemma walk_node fuel r l items ms depth s :
  (forall node j depth s,
     repr (take r (heap s)) node j ->
     appends r (fun s => repr_row (take r (heap s)))
             (ExplainResult.walk fuel (VRef r) node depth) (Doc.walk fuel j depth) s) ->
  l <> r ->
  heap s !! l = Some (ODict items) ->
  map fst items = map fst ms ->
  Forall2 (repr (take r (heap s))) (map snd items) (map snd ms) ->
  appends r (fun s => repr_row (take r (heap s)))
          (ExplainResult.walk (S fuel) (VRef r) (VRef l) depth)
          (Doc.walk (S fuel) (JObj ms) depth) s.
Proof.
  intros IH Hlr Hl0 Hk Hvs acc Hacc.
  set (row := VTuple [VInt depth; from_option id (VInt 0) (assoc_get "value" items);
                      from_option id (VStr "") (assoc_get "description" items)]).
  set (s1 := {| heap := <[r := OList (acc ++ [row])]> (heap s); parses := parses s |}).
  set (s2 := {| heap := heap s1 ++ [OList []]; parses := parses s1 |}).
  assert (mutates_only r s s2) as Hmut2.
  { eapply mutates_only_trans; [apply mutates_only_store | apply mutates_only_alloc]. }
  assert (take r (heap s2) = take r (heap s)) as Htake by (by eapply take_mutates_only).
  assert (heap s2 !! r = Some (OList (acc ++ [row]))) as Hr2.
  { simpl. apply lookup_app_l_Some, list_lookup_insert_eq. by eapply lookup_lt_Some. }
  assert (repr_row (take r (heap s2)) row
            (depth, field "value" (JInt 0) ms, field "description" (JStr "") ms)) as Hrow.
  { rewrite Htake. eexists _, _. split; [reflexivity|].
    split; simpl; apply repr_field; try done; constructor. }
  assert (ExplainResult.walk (S fuel) (VRef r) (VRef l) depth s =
          (let* ds := iterate (from_option id (VRef (length (heap s1)))
                                 (assoc_get "details" items)) in
           for_each ds (fun detail =>
             ExplainResult.walk fuel (VRef r) detail (depth + 1)%Z)) s2) as ->.
  { rewrite walk_unfold.
    rewrite (bind_ok _ _ _ _ _ (dict_get_ret_eq s l items "description" _ Hl0)).
    rewrite (bind_ok _ _ _ _ _ (dict_get_ret_eq s l items "value" _ Hl0)).
    rewrite (bind_ok _ _ _ _ _ (list_append_eq _ _ _ _ Hacc)). fold row. fold s1.
    assert (heap s1 !! l = Some (ODict items)) as Hl1.
    { simpl. by rewrite list_lookup_insert_ne. }
    unfold new_list.
    by rewrite (bind_ok _ _ _ _ _ (dict_get_alloc_eq s1 l items "details" _ Hl1)). }
  assert (exists res,
            iterate (from_option id (VRef (length (heap s1))) (assoc_get "details" items)) s2
              = (res, s2) /\
            agrees (Forall2 (repr (take r (heap s2)))) res
                   (Doc.iterate (field "details" (JArr []) ms))) as (res & Hiter & Hag).
  { pose proof (repr_members _ _ _ "details" Hk Hvs) as Hd. unfold field.
    destruct (assoc_get "details" items) as [dv|], (assoc_get "details" ms) as [dj|];
      try done; cbn [from_option id].
    - rewrite Htake. apply iterate_in; [done|]. rewrite <- Htake. apply sub_store_take.
    - exists (Ok []). split; [|constructor].
      unfold iterate, bind.
      by rewrite (deref_eq s2 (length (heap s1)) (OList []) (lookup_alloc (heap s1) _)). }
  simpl Doc.walk.
  destruct (Doc.iterate (field "details" (JArr []) ms)) as [ds | e |].
  - apply agrees_ok in Hag as (xs & -> & Hxs).
    rewrite (bind_ok _ _ _ _ _ Hiter).
    destruct (for_each_appends r
                (fun detail => ExplainResult.walk fuel (VRef r) detail (depth + 1)%Z)
                (fun d => Doc.walk fuel d (depth + 1)%Z)
                (fun s => repr_row (take r (heap s)))
                (repr_row_mono r)
                (fun x dx s => IH x dx (depth + 1)%Z s)
                xs ds s2 Hxs _ Hr2)
      as (s3 & vs3 & Hrun3 & Hmut3 & Hr3 & Hrel3).
    destruct (Doc.each _ ds) as [rows o]; simpl in *.
    exists s3, (row :: vs3). split; [done|]. split; [by eapply mutates_only_trans|].
    split; [by rewrite <- app_assoc in Hr3|].
    constructor; [|done].
    eapply repr_row_mono; [|exact Hmut3|exact Hrow]. by eapply lookup_lt_Some.
  - apply agrees_raise in Hag as ->. rewrite (bind_raise _ _ _ _ _ Hiter).
    exists s2, [row]. split; [done|]. split; [done|]. split; [done|]. by constructor.
  - apply agrees_undefined in Hag as ->. rewrite (bind_undefined _ _ _ _ Hiter).
    exists s2, [row]. split; [done|]. split; [done|]. split; [done|]. by constructor.
Qed.

Lemma walk_appends fuel r node j depth s :
  repr (take r (heap s)) node j ->
  appends r (fun s => repr_row (take r (heap s)))
          (ExplainResult.walk fuel (VRef r) node depth) (Doc.walk fuel j depth) s.
Proof.
  revert node j depth s. induction fuel as [|fuel IH]; intros node j depth s Hnode.
  { intros acc Hacc. exists s, []. rewrite app_nil_r. split; [done|].
    split; [apply mutates_only_refl|]. split; [done | constructor]. }
  pose proof (sub_store_take r (heap s)) as Hsub.
  assert ((exists ms, j = JObj ms) \/ (forall ms, j <> JObj ms)) as [[ms ->]|Hno].
  { destruct j; try (right; congruence). left. by eexists. }
  2: { (* not a mapping: no attribute [get] *)
    intros acc Hacc.
    assert (Doc.walk (S fuel) j depth = ([], Raise AttributeError)) as ->.
    { destruct j; try done. by destruct (Hno members). }
    exists s, []. rewrite app_nil_r. split; [|split; [apply mutates_only_refl|done]].
    rewrite walk_unfold. apply bind_raise, dict_get_no_attribute.
    - intros l items -> Hl. inversion Hnode as [ | | | | | l' vs js Hl' | l' its ms Hl']; subst.
      + apply Hsub in Hl'. congruence.
      + by destruct (Hno ms).
    - intros l ->. inversion Hnode; subst; eexists; by apply Hsub. }
  inversion Hnode as [ | | | | | | l items ms' Hl Hk Hvs]; subst.
  apply (walk_node fuel r l items); try done.
  - apply lookup_lt_Some in Hl. rewrite length_take in Hl. lia.
  - by apply Hsub.
Qed.

(** ** [get_breakdown] *)

Lemma repr_row_sub_store h h' v (row : BreakdownRow) :
  repr_row h v row -> sub_store h h' -> repr_row h' v row.
Proof.
  intros (value & desc & -> & Hv & Hd) Hsub.
  eexists _, _. split; [done|]. split; by eapply repr_mono.
Qed.

Lemma walk_from_fresh fuel r e de s :
  match fuel with
  | O => True
  | S fuel' =>
      repr (take r (heap s)) e de \/
      exists l, e = VRef l /\ l <> r /\ heap s !! l = Some (ODict []) /\ de = JObj []
  end ->
  appends r (fun s => repr_row (take r (heap s)))
          (ExplainResult.walk fuel (VRef r) e 0) (Doc.walk fuel de 0) s.
Proof.
  destruct fuel as [|fuel].
  - intros _ acc Hacc. exists s, []. rewrite app_nil_r. split; [done|].
    split; [apply mutates_only_refl|]. split; [done | constructor].
  - intros [He | (l & -> & Hl & Hd & ->)].
    + by apply walk_appends.
    + apply (walk_node fuel r l []); try done.
      intros node j depth s'. apply walk_appends.
Qed.

Lemma get_breakdown_refines fuel self j s :
  repr (heap s) (ExplainResult._json self) j ->
  exists res s',
    ExplainResult.get_breakdown fuel self s = (res, s') /\
    extends s s' /\
    agrees (fun v rows => v = VRef (length (heap s)) /\ repr_rows (heap s') v rows)
           res (Doc.get_breakdown fuel j).
Proof.
  intros Hr. unfold ExplainResult.get_breakdown.
  set (r := length (heap s)).
  set (s1 := {| heap := heap s ++ [OList []]; parses := parses s |}).
  assert (new_list s = (Ok (VRef r), s1)) as Hnew by reflexivity.
  rewrite (bind_ok _ _ _ _ _ Hnew).
  assert (extends s s1) as Hext1 by apply extends_alloc.
  assert ((exists ms, j = JObj ms) \/ (forall ms, j <> JObj ms)) as [[ms ->]|Hno].
  { destruct j; try (right; congruence). left. by eexists. }
  2: { destruct (explanation_refines self j s1) as (rese & s2 & Hrun & Hext2 & Hag).
       { by eapply extends_repr. }
       assert (Doc.explanation j = Raise AttributeError) as He.
       { destruct j; try done. by destruct (Hno members). }
       unfold Doc.get_breakdown. rewrite He in *. apply agrees_raise in Hag as ->.
       exists (Raise AttributeError), s2. rewrite (bind_raise _ _ _ _ _ Hrun).
       split; [done|]. split; [by eapply extends_trans | done]. }
  inversion Hr as [ | | | | | | l items ms' Hl Hk Hvs Hjson]; subst.
  set (s2 := {| heap := heap s1 ++ [ODict []]; parses := parses s1 |}).
  set (e := from_option id (VRef (length (heap s1))) (assoc_get "explanation" items)).
  assert (ExplainResult.explanation self s1 = (Ok e, s2)) as Hexp.
  { unfold ExplainResult.explanation. rewrite <- Hjson.
    apply dict_get_alloc_eq. by apply (extends_sub_store s s1). }
  rewrite (bind_ok _ _ _ _ _ Hexp).
  assert (extends s s2) as Hext2.
  { eapply extends_trans; [exact Hext1 | apply extends_alloc]. }
  assert (take r (heap s2) = heap s) as Htake.
  { destruct Hext2 as [[k Hpre] _]. rewrite Hpre. apply take_app_length. }
  assert (heap s2 !! r = Some (OList [])) as Hr2.
  { simpl. apply lookup_app_l_Some, lookup_alloc. }
  assert (match fuel with
          | O => True
          | S _ =>
              repr (take r (heap s2)) e (field "explanation" (JObj []) ms) \/
              exists l, e = VRef l /\ l <> r /\ heap s2 !! l = Some (ODict []) /\
                        field "explanation" (JObj []) ms = JObj []
          end) as Hpre.
  { destruct fuel; [done|]. rewrite Htake. subst e. unfold field.
    pose proof (repr_members _ _ _ "explanation" Hk Hvs) as Hm.
    destruct (assoc_get "explanation" items), (assoc_get "explanation" ms); try done.
    - by left.
    - right. exists (length (heap s1)). split; [done|]. split; [|split; [|done]].
      + simpl. rewrite length_app. simpl. subst r. lia.
      + simpl. apply lookup_alloc. }
  destruct (walk_from_fresh fuel r e (field "explanation" (JObj []) ms) s2 Hpre [] Hr2)
    as (s3 & vs & Hrun & Hmut & Hr3 & Hrel).
  assert (extends s s3) as Hext3.
  { apply (mutates_only_fresh r); [|done].
    eapply mutates_only_trans; [by apply extends_mutates_only | done]. }
  unfold Doc.get_breakdown, Doc.explanation, Doc.get, Doc.and_then, Doc.collect.
  destruct (Doc.walk fuel (field "explanation" (JObj []) ms) 0) as [rows o]; simpl in *.
  unfold bind at 1. rewrite Hrun. destruct o as [[] | err |].
  - exists (Ok (VRef r)), s3. split; [done|]. split; [done|]. split; [done|].
    exists r, vs. split; [done|]. split; [done|].
    eapply Forall2_impl; [exact Hrel|]. intros v row Hv.
    eapply repr_row_sub_store; [exact Hv | apply sub_store_take].
  - by exists (Raise err), s3.
  - by exists Undefined, s3.
Qed.

(** ** Decoding *)

Lemma load_repr j s :
  exists v s', Response.load j s = (Ok v, s') /\ extends s s' /\ repr (heap s') v j.
Proof.
  revert s. induction j as [| b | z | f | str | js IH | ms IH] using document_induction;
    intros s.
  - exists VNone, s. split; [done|]. split; [apply extends_refl | constructor].
  - exists (VBool b), s. split; [done|]. split; [apply extends_refl | constructor].
  - exists (VInt z), s. split; [done|]. split; [apply extends_refl | constructor].
  - exists (VFloat f), s. split; [done|]. split; [apply extends_refl | constructor].
  - exists (VStr str), s. split; [done|]. split; [apply extends_refl | constructor].
  - simpl.
    match goal with |- context [bind (?F js)] => set (load_items := F) end.
    assert (exists vs s', load_items js s = (Ok vs, s') /\ extends s s' /\
                          Forall2 (repr (heap s')) vs js) as (vs & s1 & Hrun & Hext & Hvs).
    { clear -IH. revert s. induction IH as [|j js Hj _ IHjs]; intros s.
      - exists [], s. split; [done|]. split; [apply extends_refl | constructor].
      - destruct (Hj s) as (v & s1 & Hv & Hext1 & Hr1).
        destruct (IHjs s1) as (vs & s2 & Hvs & Hext2 & Hr2).
        exists (v :: vs), s2. split; [|split; [by eapply extends_trans|]].
        + simpl. rewrite (bind_ok _ _ _ _ _ Hv). fold load_items.
          by rewrite (bind_ok _ _ _ _ _ Hvs).
        + constructor; [by eapply extends_repr | done]. }
    rewrite (bind_ok _ _ _ _ _ Hrun).
    eexists _, _. split; [reflexivity|]. split.
    + eapply extends_trans; [exact Hext | apply extends_alloc].
    + econstructor; [apply lookup_alloc|].
      eapply Forall2_impl; [exact Hvs|]. intros v j Hv.
      eapply repr_mono; [exact Hv|]. apply sub_store_prefix. by apply prefix_app_r.
  - simpl.
    match goal with |- context [bind (?F ms)] => set (load_members := F) end.
    assert (exists kvs s', load_members ms s = (Ok kvs, s') /\ extends s s' /\
                           map fst kvs = map fst ms /\
                           Forall2 (repr (heap s')) (map snd kvs) (map snd ms))
      as (kvs & s1 & Hrun & Hext & Hks & Hvs).
    { clear -IH. revert s. induction ms as [|[k j] ms IHms]; intros s.
      - exists [], s. split; [done|]. split; [apply extends_refl|]. split; [done|constructor].
      - inversion IH as [|? ? Hj Hrest]; subst.
        destruct (Hj s) as (v & s1 & Hv & Hext1 & Hr1).
        destruct (IHms Hrest s1) as (kvs & s2 & Hvs & Hext2 & Hk2 & Hr2).
        exists ((k, v) :: kvs), s2. split; [|split; [by eapply extends_trans|split]].
        + simpl. rewrite (bind_ok _ _ _ _ _ Hv). fold load_members.
          by rewrite (bind_ok _ _ _ _ _ Hvs).
        + simpl. by f_equal.
        + constructor; [by eapply extends_repr | done]. }
    rewrite (bind_ok _ _ _ _ _ Hrun).
    eexists _, _. split; [reflexivity|]. split.
    + eapply extends_trans; [exact Hext | apply extends_alloc].
    + econstructor; [apply lookup_alloc | done |].
      eapply Forall2_impl; [exact Hvs|]. intros v j Hv.
      eapply repr_mono; [exact Hv|]. apply sub_store_prefix. by apply prefix_app_r.
Qed.

Lemma json_ok response j s :
  Response.body response = Some j ->
  exists v s',
    Response.json response s = (Ok v, s') /\
    heap s `prefix_of` heap s' /\ parses s' = S (parses s) /\ repr (heap s') v j.
Proof.
  intros Hb. unfold Response.json, bind, tick_parse. rewrite Hb.
  destruct (load_repr j {| heap := heap s; parses := S (parses s) |})
    as (v & s' & Hrun & [Hpre Hpar] & Hr).
  exists v, s'. by rewrite Hrun.
Qed.

Lemma json_raise response s :
  Response.body response = None ->
  Response.json response s =
    (Raise JSONDecodeError, {| heap := heap s; parses := S (parses s) |}).
Proof. intros Hb. unfold Response.json, bind, tick_parse. by rewrite Hb. Qed.

(** ** Explanation trees are walked in pre-order *)

Lemma walk_preorder fuel j t depth :
  denotes j t -> height t <= fuel ->
  Doc.walk fuel j depth = (preorder depth t, Ok tt).
Proof.
  revert j t depth. induction fuel as [|fuel IH]; intros j t depth Hd Hh.
  { destruct t; simpl in Hh; lia. }
  inversion Hd as [ms Hdet | ms js ts Hdet Hkids]; subst; simpl; unfold field;
    rewrite Hdet; simpl; [done|].
  assert (Doc.each (fun d => Doc.walk fuel d (depth + 1)%Z) js =
          (flat_map (preorder (depth + 1)%Z) ts, Ok tt)) as ->; [|done].
  simpl in Hh. apply le_S_n in Hh.
  clear Hd Hdet. induction Hkids as [|c t cs ts' Hc _ IHk]; simpl; [done|].
  simpl in Hh. rewrite (IH c t); [| done | lia]. rewrite IHk; [done | lia].
Qed.

(** ** List comprehensions over the hits *)

Lemma repr_take_mono r s s' acc v j :
  heap s !! r = Some (OList acc) -> mutates_only r s s' ->
  repr (take r (heap s)) v j -> repr (take r (heap s')) v j.
Proof. intros Hr Hm H. by rewrite (take_mutates_only r s s' acc). Qed.

Lemma pick_appends r key x dx s :
  repr (take r (heap s)) x dx ->
  appends r (fun s => repr (take r (heap s)))
          (let* v := subscript x key in list_append (VRef r) v)
          (Doc.single (Doc.subscript dx key)) s.
Proof.
  intros Hx acc Hacc.
  destruct (subscript_in _ _ _ key s Hx (sub_store_take _ _)) as (res & Hrun & Hag).
  destruct (Doc.subscript dx key) as [d | e |]; cbn [Doc.single fst snd].
  - apply agrees_ok in Hag as (v & -> & Hv).
    rewrite (bind_ok _ _ _ _ _ Hrun), (list_append_eq _ _ _ _ Hacc).
    eexists _, [v]. split; [done|]. split; [apply mutates_only_store|]. split.
    + simpl. apply list_lookup_insert_eq. by eapply lookup_lt_Some.
    + constructor; [|constructor].
      eapply repr_take_mono; [exact Hacc | apply mutates_only_store | done].
  - apply agrees_raise in Hag as ->. rewrite (bind_raise _ _ _ _ _ Hrun).
    exists s, []. rewrite app_nil_r. split; [done|]. split; [apply mutates_only_refl|].
    split; [done | constructor].
  - apply agrees_undefined in Hag as ->. rewrite (bind_undefined _ _ _ _ Hrun).
    exists s, []. rewrite app_nil_r. split; [done|]. split; [apply mutates_only_refl|].
    split; [done | constructor].
Qed.

Lemma comprehension_refines hs dhs key s :
  repr (heap s) hs dhs ->
  exists res s',
    SearchResults.comprehension hs key s = (res, s') /\
    extends s s' /\
    agrees (fun v docs => exists l vs,
              v = VRef l /\ length (heap s) <= l /\
              heap s' !! l = Some (OList vs) /\ Forall2 (repr (heap s)) vs docs)
           res (Doc.comprehension dhs key).
Proof.
  intros Hhs. unfold SearchResults.comprehension, Doc.comprehension.
  destruct (iterate_in _ _ _ s Hhs (sub_store_refl _)) as (resi & Hiter & Hag).
  destruct (Doc.iterate dhs) as [dxs | e |]; cbn [Doc.and_then].
  2: { apply agrees_raise in Hag as ->. rewrite (bind_raise _ _ _ _ _ Hiter).
       exists (Raise e), s. split; [done|]. split; [apply extends_refl | done]. }
  2: { apply agrees_undefined in Hag as ->. rewrite (bind_undefined _ _ _ _ Hiter).
       exists Undefined, s. split; [done|]. split; [apply extends_refl | done]. }
  apply agrees_ok in Hag as (xs & -> & Hxs). rewrite (bind_ok _ _ _ _ _ Hiter).
  set (r := length (heap s)).
  set (s1 := {| heap := heap s ++ [OList []]; parses := parses s |}).
  assert (new_list s = (Ok (VRef r), s1)) as Hnew by reflexivity.
  rewrite (bind_ok _ _ _ _ _ Hnew).
  assert (take r (heap s1) = heap s) as Htake by apply take_app_length.
  assert (heap s1 !! r = Some (OList [])) as Hr1 by apply lookup_alloc.
  destruct (for_each_appends r
              (fun hit => let* v := subscript hit key in list_append (VRef r) v)
              (fun hit => Doc.single (Doc.subscript hit key))
              (fun s => repr (take r (heap s)))) with (xs := xs) (dxs := dxs) (s := s1)
              (acc := @nil val)
    as (s2 & vs & Hrun & Hmut & Hr2 & Hrel); [| | by rewrite Htake | done |].
  { intros t t' v b Hlt Hm Hv. rewrite (mutates_only_take r t t'); [done | done | lia]. }
  { intros x dx t Hx. by apply pick_appends. }
  assert (extends s s2) as Hext.
  { apply (mutates_only_fresh r); [|done].
    eapply mutates_only_trans; [apply mutates_only_alloc | exact Hmut]. }
  assert (take r (heap s2) = heap s) as Htake2.
  { rewrite (take_mutates_only r s1 s2 []); done. }
  unfold Doc.collect.
  destruct (Doc.each _ dxs) as [docs o]; cbn [fst snd] in *.
  unfold bind at 1. rewrite Hrun. destruct o as [[] | e |].
  - exists (Ok (VRef r)), s2. split; [done|]. split; [done|].
    exists r, vs. split; [done|]. split; [done|]. split; [done|]. by rewrite <- Htake2.
  - by exists (Raise e), s2.
  - by exists Undefined, s2.
Qed.

Lemma hits_then_comprehension self j key s :
  repr (heap s) (SearchResults._json self) j ->
  exists res s',
    (let* hs := SearchResults.hits self in SearchResults.comprehension hs key) s
      = (res, s') /\
    extends s s' /\
    agrees (fresh_list s s' (repr (heap s'))) res
           (Doc.and_then (Doc.hits j) (fun hs => Doc.comprehension hs key)).
Proof.
  intros Hr. destruct (hits_refines self j s Hr) as (resh & s1 & Hrun & Hext & Hag).
  destruct (Doc.hits j) as [dhs | e |]; cbn [Doc.and_then].
  - apply agrees_ok in Hag as (hs & -> & Hhs). rewrite (bind_ok _ _ _ _ _ Hrun).
    destruct (comprehension_refines hs dhs key s1 Hhs) as (res & s2 & Hrun2 & Hext2 & Hag2).
    exists res, s2. split; [done|]. split; [by eapply extends_trans|].
    eapply agrees_impl; [exact Hag2|]. intros v docs (l & vs & -> & Hl & Hvs & Hitems).
    exists l, vs. split; [done|]. split; [apply extends_length in Hext; lia|].
    split; [done|]. eapply Forall2_impl; [exact Hitems|].
    intros x d Hx. by eapply extends_repr.
  - apply agrees_raise in Hag as ->. rewrite (bind_raise _ _ _ _ _ Hrun).
    by exists (Raise e), s1.
  - apply agrees_undefined in Hag as ->. rewrite (bind_undefined _ _ _ _ Hrun).
    by exists Undefined, s1.
Qed.

Lemma get_ids_refines self j s :
  repr (heap s) (SearchResults._json self) j ->
  exists res s',
    SearchResults.get_ids self s = (res, s') /\
    extends s s' /\
    agrees (fresh_list s s' (repr (heap s'))) res (Doc.get_ids j).
Proof. apply hits_then_comprehension. Qed.

Lemma get_sources_plain_refines self j s :
  repr (heap s) (SearchResults._json self) j ->
  exists res s',
    SearchResults.get_sources false false self s = (res, s') /\
    extends s s' /\
    agrees (fresh_list s s' (repr (heap s'))) res (Doc.get_sources false false j).
Proof. apply hits_then_comprehension. Qed.

(** ** [get_sources] with a flag set *)

Lemma owned_mono r s s' v doc :
  r < length (heap s) -> mutates_only r s s' -> owned r s v doc -> owned r s' v doc.
Proof.
  intros Hr Hm (c & -> & Hc & H). exists c. split; [done|]. split; [done|].
  rewrite (mutates_only_take r s s') by (done || lia).
  destruct Hm as (_ & Hkeep & _).
  destruct doc; try done.
  - destruct H as (vs & Hl & Hvs). exists vs. split; [|done]. apply Hkeep; [lia | done].
  - destruct H as (items & Hl & Hvs). exists items. split; [|done]. apply Hkeep; [lia | done].
Qed.

Lemma insert_alloc (h : list obj) o o' : <[length h := o']> (h ++ [o]) = h ++ [o'].
Proof. rewrite insert_app_r_alt by lia. by rewrite Nat.sub_diag. Qed.

Lemma setitem_fresh_eq h items p key v :
  setitem (VRef (length h)) key v {| heap := h ++ [ODict items]; parses := p |} =
    (Ok tt, {| heap := h ++ [ODict (assoc_set key v items)]; parses := p |}).
Proof.
  unfold setitem, bind, deref, store. simpl. rewrite lookup_alloc. simpl.
  by rewrite lookup_alloc, insert_alloc.
Qed.

Lemma setitem_list_eq s l vs key v :
  heap s !! l = Some (OList vs) ->
  setitem (VRef l) key v s = (Raise TypeError, s).
Proof. intros H. unfold setitem, bind. by rewrite (deref_eq _ _ _ H). Qed.

Lemma sub_store_take_app r (h k : list obj) : sub_store (take r h) (h ++ k).
Proof.
  apply sub_store_prefix. etrans; [apply prefix_take | by apply prefix_app_r].
Qed.

Lemma decorate_dict (flag : bool) key hit dhit r h items ms p :
  repr (take r h) hit dhit ->
  map fst items = map fst ms ->
  Forall2 (repr (take r h)) (map snd items) (map snd ms) ->
  match (if flag
         then Doc.and_then (Doc.subscript dhit key) (fun v => Ok (assoc_set key v ms))
         else Ok ms) with
  | Ok ms' =>
      exists items',
        (if flag then let* v := subscript hit key in setitem (VRef (length h)) key v
         else ret tt) {| heap := h ++ [ODict items]; parses := p |}
          = (Ok tt, {| heap := h ++ [ODict items']; parses := p |}) /\
        map fst items' = map fst ms' /\
        Forall2 (repr (take r h)) (map snd items') (map snd ms')
  | Raise e =>
      (if flag then let* v := subscript hit key in setitem (VRef (length h)) key v
       else ret tt) {| heap := h ++ [ODict items]; parses := p |}
        = (Raise e, {| heap := h ++ [ODict items]; parses := p |})
  | Undefined =>
      (if flag then let* v := subscript hit key in setitem (VRef (length h)) key v
       else ret tt) {| heap := h ++ [ODict items]; parses := p |}
        = (Undefined, {| heap := h ++ [ODict items]; parses := p |})
  end.
Proof.
  intros Hhit Hk Hvs. destruct flag; [|by exists items].
  destruct (subscript_in _ _ _ key {| heap := h ++ [ODict items]; parses := p |} Hhit
              (sub_store_take_app r h _)) as (res & Hrun & Hag).
  destruct (Doc.subscript dhit key) as [d | e |]; cbn [Doc.and_then].
  - apply agrees_ok in Hag as (v & -> & Hv).
    exists (assoc_set key v items). rewrite (bind_ok _ _ _ _ _ Hrun), setitem_fresh_eq.
    split; [done|]. split; [by apply map_fst_assoc_set | by apply repr_assoc_set].
  - apply agrees_raise in Hag as ->. by rewrite (bind_raise _ _ _ _ _ Hrun).
  - apply agrees_undefined in Hag as ->. by rewrite (bind_undefined _ _ _ _ Hrun).
Qed.

Lemma decorate_list (flag : bool) key hit dhit r h vs p :
  repr (take r h) hit dhit ->
  (if flag then let* v := subscript hit key in setitem (VRef (length h)) key v
   else ret tt) {| heap := h ++ [OList vs]; parses := p |}
    = (match (if flag
              then Doc.and_then (Doc.subscript dhit key) (fun _ => Raise TypeError)
              else Ok tt) with
       | Ok _ => Ok tt
       | Raise e => Raise e
       | Undefined => Undefined
       end, {| heap := h ++ [OList vs]; parses := p |}).
Proof.
  intros Hhit. destruct flag; [|done].
  destruct (subscript_in _ _ _ key {| heap := h ++ [OList vs]; parses := p |} Hhit
              (sub_store_take_app r h _)) as (res & Hrun & Hag).
  destruct (Doc.subscript dhit key) as [d | e |]; cbn [Doc.and_then].
  - apply agrees_ok in Hag as (v & -> & Hv).
    rewrite (bind_ok _ _ _ _ _ Hrun). apply (setitem_list_eq _ _ vs). apply lookup_alloc.
  - apply agrees_raise in Hag as ->. by rewrite (bind_raise _ _ _ _ _ Hrun).
  - apply agrees_undefined in Hag as ->. by rewrite (bind_undefined _ _ _ _ Hrun).
Qed.

Lemma copy_eq s l ob :
  heap s !! l = Some ob ->
  copy (VRef l) s =
    (Ok (VRef (length (heap s))), {| heap := heap s ++ [ob]; parses := parses s |}).
Proof. intros H. unfold copy, bind. by rewrite (deref_eq _ _ _ H). Qed.

Lemma copy_no_attribute s v :
  (forall l, v <> VRef l) -> copy v s = (Raise AttributeError, s).
Proof. intros H. destruct v; try done. by destruct (H l). Qed.

Lemma append_built r s acc ob :
  heap s !! r = Some (OList acc) ->
  exists s',
    list_append (VRef r) (VRef (length (heap s)))
                {| heap := heap s ++ [ob]; parses := parses s |} = (Ok tt, s') /\
    mutates_only r s s' /\
    heap s' !! r = Some (OList (acc ++ [VRef (length (heap s))])) /\
    heap s' !! length (heap s) = Some ob /\
    take r (heap s') = take r (heap s).
Proof.
  intros Hacc. pose proof (lookup_lt_Some _ _ _ Hacc) as Hlt.
  set (s1 := {| heap := heap s ++ [ob]; parses := parses s |}).
  assert (heap s1 !! r = Some (OList acc)) as Hacc1 by (by apply lookup_app_l_Some).
  eexists. split; [apply (list_append_eq s1 r acc _ Hacc1)|].
  assert (mutates_only r s
            {| heap := <[r:=OList (acc ++ [VRef (length (heap s))])]> (heap s1);
               parses := parses s1 |}) as Hmut.
  { eapply mutates_only_trans; [apply (mutates_only_alloc r s ob) | apply mutates_only_store]. }
  split; [done|]. split; [|split].
  - simpl. apply list_lookup_insert_eq. rewrite length_app. simpl. lia.
  - simpl. rewrite list_lookup_insert_ne by lia. apply lookup_alloc.
  - by eapply take_mutates_only.
Qed.

Lemma merge_appends r (include_id include_score : bool) hit dhit s :
  repr (take r (heap s)) hit dhit ->
  appends r (owned r)
    (let* src := subscript hit "_source" in
     let* item := copy src in
     exec (if include_id
           then let* v := subscript hit "_id" in setitem item "_id" v
           else ret tt) in
     exec (if include_score
           then let* v := subscript hit "_score" in setitem item "_score" v
           else ret tt) in
     list_append (VRef r) item)
    (Doc.single (Doc.merged include_id include_score dhit)) s.
Proof.
  intros Hhit acc Hacc. pose proof (lookup_lt_Some _ _ _ Hacc) as Hlt.
  assert (forall (m : M unit) e u t,
            m u = (Raise e, t) -> mutates_only r s t -> heap t !! r = Some (OList acc) ->
            exists s' vs, m u = (snd (Doc.single (B:=document) (Raise e)), s') /\
                          mutates_only r s s' /\
                          heap s' !! r = Some (OList (acc ++ vs)) /\
                          Forall2 (owned r s') vs (fst (Doc.single (B:=document) (Raise e))))
    as Hraise.
  { intros m e u t Hm Hmut Ht. exists t, []. rewrite app_nil_r.
    split; [done|]. split; [done|]. split; [done | constructor]. }
  assert (forall (m : M unit) u t,
            m u = (Undefined, t) -> mutates_only r s t -> heap t !! r = Some (OList acc) ->
            exists s' vs, m u = (snd (Doc.single (B:=document) Undefined), s') /\
                          mutates_only r s s' /\
                          heap s' !! r = Some (OList (acc ++ vs)) /\
                          Forall2 (owned r s') vs (fst (Doc.single (B:=document) Undefined)))
    as Hundef.
  { intros m u t Hm Hmut Ht. exists t, []. rewrite app_nil_r.
    split; [done|]. split; [done|]. split; [done | constructor]. }
  destruct (subscript_in _ _ _ "_source" s Hhit (sub_store_take _ _)) as (res & Hrun & Hag).
  unfold Doc.merged.
  destruct (Doc.subscript dhit "_source") as [dsrc | e |]; cbn [Doc.and_then].
  2: { apply agrees_raise in Hag as ->.
       apply (Hraise _ e s s); [by apply bind_raise | apply mutates_only_refl | done]. }
  2: { apply agrees_undefined in Hag as ->.
       apply (Hundef _ s s); [by apply bind_undefined | apply mutates_only_refl | done]. }
  apply agrees_ok in Hag as (src & -> & Hsrc). rewrite (bind_ok _ _ _ _ _ Hrun).
  assert (sub_store (take r (heap s)) (heap s)) as Hsub by apply sub_store_take.
  inversion Hsrc as [ | | | | | ls vs js Hls Hvs | ls items ms Hls Hk Hvs]; subst;
    try (apply (Hraise _ AttributeError s s);
         [by apply bind_raise, copy_no_attribute | apply mutates_only_refl | done]).
  - (* the source is a list: it copies, but takes no [str] key *)
    rewrite (bind_ok _ _ _ _ _ (copy_eq _ _ _ (Hsub _ _ Hls))).
    pose proof (decorate_list include_id "_id" hit dhit r (heap s) vs (parses s) Hhit) as H1.
    pose proof (decorate_list include_score "_score" hit dhit r (heap s) vs (parses s) Hhit)
      as H2.
    set (s1 := {| heap := heap s ++ [OList vs]; parses := parses s |}) in *.
    assert (mutates_only r s s1) as Hmut1 by apply mutates_only_alloc.
    assert (heap s1 !! r = Some (OList acc)) as Hacc1 by (by apply lookup_app_l_Some).
    destruct (if include_id
              then Doc.and_then (Doc.subscript dhit "_id") (fun _ => Raise TypeError)
              else Ok tt) as [[] | e |]; cbn [Doc.and_then].
    2: { apply (Hraise _ e s1 s1); [by apply bind_raise | done | done]. }
    2: { apply (Hundef _ s1 s1); [by apply bind_undefined | done | done]. }
    rewrite (bind_ok _ _ _ _ _ H1).
    destruct (if include_score
              then Doc.and_then (Doc.subscript dhit "_score") (fun _ => Raise TypeError)
              else Ok tt) as [[] | e |]; cbn [Doc.and_then].
    2: { apply (Hraise _ e s1 s1); [by apply bind_raise | done | done]. }
    2: { apply (Hundef _ s1 s1); [by apply bind_undefined | done | done]. }
    rewrite (bind_ok _ _ _ _ _ H2).
    destruct (append_built r s acc (OList vs) Hacc) as (s' & Happ & Hmut & Hr' & Hc & Htake).
    exists s', [VRef (length (heap s))]. split; [done|]. split; [done|]. split; [done|].
    constructor; [|constructor]. exists (length (heap s)). split; [done|]. split; [done|].
    exists vs. split; [done|]. by rewrite Htake.
  - (* the source is a mapping *)
    rewrite (bind_ok _ _ _ _ _ (copy_eq _ _ _ (Hsub _ _ Hls))).
    pose proof (decorate_dict include_id "_id" hit dhit r (heap s) items ms (parses s)
                  Hhit Hk Hvs) as H1.
    set (s1 := {| heap := heap s ++ [ODict items]; parses := parses s |}) in *.
    assert (mutates_only r s s1) as Hmut1 by apply mutates_only_alloc.
    assert (heap s1 !! r = Some (OList acc)) as Hacc1 by (by apply lookup_app_l_Some).
    destruct (if include_id
              then Doc.and_then (Doc.subscript dhit "_id")
                                (fun v => Ok (assoc_set "_id" v ms))
              else Ok ms) as [ms1 | e |]; cbn [Doc.and_then].
    2: { apply (Hraise _ e s1 s1); [by apply bind_raise | done | done]. }
    2: { apply (Hundef _ s1 s1); [by apply bind_undefined | done | done]. }
    destruct H1 as (items1 & H1 & Hk1 & Hvs1). rewrite (bind_ok _ _ _ _ _ H1).
    pose proof (decorate_dict include_score "_score" hit dhit r (heap s) items1 ms1
                  (parses s) Hhit Hk1 Hvs1) as H2.
    set (s2 := {| heap := heap s ++ [ODict items1]; parses := parses s |}) in *.
    assert (mutates_only r s s2) as Hmut2 by apply mutates_only_alloc.
    assert (heap s2 !! r = Some (OList acc)) as Hacc2 by (by apply lookup_app_l_Some).
    destruct (if include_score
              then Doc.and_then (Doc.subscript dhit "_score")
                                (fun v => Ok (assoc_set "_score" v ms1))
              else Ok ms1) as [ms2 | e |]; cbn [Doc.and_then].
    2: { apply (Hraise _ e s2 s2); [by apply bind_raise | done | done]. }
    2: { apply (Hundef _ s2 s2); [by apply bind_undefined | done | done]. }
    destruct H2 as (items2 & H2 & Hk2 & Hvs2). rewrite (bind_ok _ _ _ _ _ H2).
    destruct (append_built r s acc (ODict items2) Hacc)
      as (s' & Happ & Hmut & Hr' & Hc & Htake).
    exists s', [VRef (length (heap s))]. split; [done|]. split; [done|]. split; [done|].
    constructor; [|constructor]. exists (length (heap s)). split; [done|]. split; [done|].
    exists items2. split; [done|]. by rewrite Htake.
Qed.

Lemma dict_get_held h o j key ob dj s :
  held h s o j -> sub_store h (heap s) ->
  (ob = ODict [] /\ dj = JObj []) \/ (ob = OList [] /\ dj = JArr []) ->
  exists res s',
    dict_get o key (alloc ob) s = (res, s') /\
    extends s s' /\
    agrees (held h s') res (Doc.get j key dj).
Proof.
  intros Ho Hsub Hob.
  assert (forall l items ms,
            heap s !! l = Some (ODict items) ->
            map fst items = map fst ms ->
            Forall2 (repr h) (map snd items) (map snd ms) ->
            exists res s',
              dict_get (VRef l) key (alloc ob) s = (res, s') /\ extends s s' /\
              agrees (held h s') res (Doc.get (JObj ms) key dj)) as Hdict.
  { intros l items ms Hl Hk Hvs. eexists _, _.
    split; [by apply dict_get_alloc_eq|]. split; [apply extends_alloc|]. simpl.
    pose proof (repr_members _ _ _ key Hk Hvs) as Hm. unfold field.
    destruct (assoc_get key items), (assoc_get key ms); try done; simpl; [by left|].
    right. exists (length (heap s)). split; [done|].
    destruct Hob as [[-> ->] | [-> ->]]; [left | right]; (split; [|done]); apply lookup_alloc. }
  assert (forall l vs, heap s !! l = Some (OList vs) ->
            dict_get (VRef l) key (alloc ob) s = (Raise AttributeError, s)) as Hlist.
  { intros l vs Hl. unfold dict_get, bind. by rewrite (deref_eq _ _ _ Hl). }
  destruct Ho as [Hr | (l & -> & [[Hl ->] | [Hl ->]])].
  - inversion Hr as [ | | | | | l vs js Hl Hvs | l items ms Hl Hk Hvs]; subst;
      try (exists (Raise AttributeError), s; split; [done|]; split; [apply extends_refl|done]).
    + exists (Raise AttributeError), s. split; [by eapply Hlist, Hsub|].
      split; [apply extends_refl | done].
    + eapply Hdict; [by apply Hsub | done | done].
  - apply (Hdict l [] []); [done | done | constructor].
  - exists (Raise AttributeError), s. split; [by eapply Hlist|].
    split; [apply extends_refl | done].
Qed.

Lemma iterate_held h o j s :
  held h s o j -> sub_store h (heap s) ->
  exists res, iterate o s = (res, s) /\ agrees (Forall2 (repr h)) res (Doc.iterate j).
Proof.
  intros [Hr | (l & -> & [[Hl ->] | [Hl ->]])] Hsub.
  - by apply iterate_in.
  - exists (Ok []). unfold iterate, bind. rewrite (deref_eq _ _ _ Hl). split; [done|constructor].
  - exists (Ok []). unfold iterate, bind. rewrite (deref_eq _ _ _ Hl). split; [done|constructor].
Qed.

Lemma sub_store_extends h s s' : sub_store h (heap s) -> extends s s' -> sub_store h (heap s').
Proof. intros H Hext l o Hl. by apply (extends_sub_store s s'), H. Qed.

Lemma hits_held h self j s :
  repr h (SearchResults._json self) j -> sub_store h (heap s) ->
  exists res s',
    SearchResults.hits self s = (res, s') /\
    extends s s' /\
    agrees (held h s') res (Doc.hits j).
Proof.
  intros Hr Hsub. unfold SearchResults.hits, Doc.hits.
  destruct (dict_get_held h _ j "hits" (ODict []) (JObj []) s (or_introl Hr) Hsub)
    as (res1 & s1 & Hrun1 & Hext1 & Hag1); [by left|].
  destruct (Doc.get j "hits" (JObj [])) as [dh | e |]; cbn [Doc.and_then].
  - apply agrees_ok in Hag1 as (hv & -> & Hhv). unfold new_dict.
    rewrite (bind_ok _ _ _ _ _ Hrun1).
    destruct (dict_get_held h hv dh "hits" (OList []) (JArr []) s1 Hhv)
      as (res2 & s2 & Hrun2 & Hext2 & Hag2); [by eapply sub_store_extends | by right |].
    exists res2, s2. split; [done|]. split; [by eapply extends_trans | done].
  - apply agrees_raise in Hag1 as ->. unfold new_dict. rewrite (bind_raise _ _ _ _ _ Hrun1).
    by exists (Raise e), s1.
  - apply agrees_undefined in Hag1 as ->. unfold new_dict.
    rewrite (bind_undefined _ _ _ _ Hrun1). by exists Undefined, s1.
Qed.

Lemma owned_repr r s v doc : owned r s v doc -> repr (heap s) v doc.
Proof.
  intros (c & -> & Hc & H). destruct doc; try done.
  - destruct H as (vs & Hl & Hvs). econstructor; [done|].
    eapply Forall2_impl; [exact Hvs|]. intros x d Hx.
    eapply repr_mono; [exact Hx | apply sub_store_take].
  - destruct H as (items & Hl & Hk & Hvs). econstructor; [done | done |].
    eapply Forall2_impl; [exact Hvs|]. intros x d Hx.
    eapply repr_mono; [exact Hx | apply sub_store_take].
Qed.

Lemma get_sources_flagged_refines (include_id include_score : bool) self j s :
  include_id || include_score = true ->
  repr (heap s) (SearchResults._json self) j ->
  exists res s',
    SearchResults.get_sources include_id include_score self s = (res, s') /\
    extends s s' /\
    agrees (fresh_list s s' (fun v d =>
              (exists c, v = VRef c /\ length (heap s) <= c) /\ repr (heap s') v d))
           res (Doc.get_sources include_id include_score j).
Proof.
  intros Hflag Hr. unfold SearchResults.get_sources, Doc.get_sources.
  assert (negb include_id && negb include_score = false) as ->.
  { by destruct include_id, include_score. }
  set (r := length (heap s)).
  set (s1 := {| heap := heap s ++ [OList []]; parses := parses s |}).
  assert (new_list s = (Ok (VRef r), s1)) as Hnew by reflexivity.
  rewrite (bind_ok _ _ _ _ _ Hnew).
  assert (extends s s1) as Hext1 by apply extends_alloc.
  destruct (hits_held (heap s) self j s1 Hr (extends_sub_store _ _ Hext1))
    as (resh & s2 & Hrunh & Hext2 & Hagh).
  assert (extends s s2) as Hext02 by (by eapply extends_trans).
  destruct (Doc.hits j) as [dhs | e |]; cbn [Doc.and_then].
  2: { apply agrees_raise in Hagh as ->. rewrite (bind_raise _ _ _ _ _ Hrunh).
       by exists (Raise e), s2. }
  2: { apply agrees_undefined in Hagh as ->. rewrite (bind_undefined _ _ _ _ Hrunh).
       by exists Undefined, s2. }
  apply agrees_ok in Hagh as (hs & -> & Hhs). rewrite (bind_ok _ _ _ _ _ Hrunh).
  destruct (iterate_held (heap s) hs dhs s2 Hhs (extends_sub_store _ _ Hext02))
    as (resi & Hiter & Hagi).
  destruct (Doc.iterate dhs) as [dxs | e |]; cbn [Doc.and_then].
  2: { apply agrees_raise in Hagi as ->. rewrite (bind_raise _ _ _ _ _ Hiter).
       by exists (Raise e), s2. }
  2: { apply agrees_undefined in Hagi as ->. rewrite (bind_undefined _ _ _ _ Hiter).
       by exists Undefined, s2. }
  apply agrees_ok in Hagi as (xs & -> & Hxs). rewrite (bind_ok _ _ _ _ _ Hiter).
  assert (take r (heap s2) = heap s) as Htake.
  { destruct Hext02 as [[k Hpre] _]. rewrite Hpre. apply take_app_length. }
  assert (heap s2 !! r = Some (OList [])) as Hr2.
  { apply (extends_sub_store s1 s2 Hext2), lookup_alloc. }
  destruct (for_each_appends r _
              (fun hit => Doc.single (Doc.merged include_id include_score hit))
              (owned r) (owned_mono r)
              (fun x dx t => merge_appends r include_id include_score x dx t)
              xs dxs s2) with (acc := @nil val)
    as (s3 & vs & Hrun & Hmut & Hr3 & Hrel); [by rewrite Htake | done |].
  assert (extends s s3) as Hext3.
  { apply (mutates_only_fresh r); [|done].
    eapply mutates_only_trans; [by apply extends_mutates_only | exact Hmut]. }
  unfold Doc.collect.
  destruct (Doc.each _ dxs) as [docs o]; cbn [fst snd] in *.
  unfold bind at 1. rewrite Hrun. destruct o as [[] | e |].
  - exists (Ok (VRef r)), s3. split; [done|]. split; [done|].
    exists r, vs. split; [done|]. split; [done|]. split; [done|].
    eapply Forall2_impl; [exact Hrel|]. intros v d Hv. split; [|by eapply owned_repr].
    destruct Hv as (c & -> & Hc & _). exists c. split; [done|]. subst r. lia.
  - by exists (Raise e), s3.
  - by exists Undefined, s3.
Qed.

(** ** What a call may write to *)

Lemma keeps_refl n s : keeps n s s.
Proof. by repeat split. Qed.

Lemma keeps_trans n s1 s2 s3 : keeps n s1 s2 -> keeps n s2 s3 -> keeps n s1 s3.
Proof. intros (L1 & T1 & P1) (L2 & T2 & P2). repeat split; [lia | congruence | congruence]. Qed.

Lemma framed_ret {A : Type} n (a : A) (Q : A -> Prop) : Q a -> framed n (ret a) Q.
Proof. intros H s _. split; [apply keeps_refl|]. by intros a' [= <-]. Qed.

Lemma framed_ret_any {A : Type} n (a : A) : framed n (ret a) any.
Proof. by apply framed_ret. Qed.

Lemma framed_raise {A : Type} n e (Q : A -> Prop) : framed n (raise e) Q.
Proof. intros s _. split; [apply keeps_refl | done]. Qed.

Lemma framed_undefined {A : Type} n (Q : A -> Prop) : framed n undefined Q.
Proof. intros s _. split; [apply keeps_refl | done]. Qed.

Lemma framed_bind {A B : Type} n (m : M A) (f : A -> M B) (Q : A -> Prop) (Q' : B -> Prop) :
  framed n m Q -> (forall a, Q a -> framed n (f a) Q') -> framed n (bind m f) Q'.
Proof.
  intros Hm Hf s Hn. destruct (Hm s Hn) as [Hk HQ]. unfold bind.
  destruct (m s) as [[a | e |] s1]; simpl in *; [|done..].
  destruct (Hf a (HQ a eq_refl) s1) as [Hk2 HQ2]; [destruct Hk; lia|].
  split; [by eapply keeps_trans | done].
Qed.

Lemma framed_alloc n o : framed n (alloc o) (above n).
Proof.
  intros s Hn. split.
  - repeat split; simpl; [rewrite length_app; lia|].
    by rewrite take_app_le.
  - intros a [= <-] l [= <-]. done.
Qed.

Lemma framed_deref n l : framed n (deref l) any.
Proof.
  intros s _. unfold deref. destruct (heap s !! l); (split; [apply keeps_refl | done]).
Qed.

Lemma framed_store n l o : n <= l -> framed n (store l o) any.
Proof.
  intros Hl s _. unfold store. destruct (heap s !! l); (split; [|done]); [|apply keeps_refl].
  repeat split; simpl; [by rewrite length_insert|].
  by rewrite take_insert_ge.
Qed.

Lemma framed_dict_get n o key dflt (Q : val -> Prop) :
  framed n dflt Q -> framed n (dict_get o key dflt) any.
Proof.
  intros Hd. destruct o; try apply framed_raise.
  eapply framed_bind; [apply framed_deref|]. intros [items | vs] _; [|apply framed_raise].
  eapply framed_bind; [exact Hd|]. intros d _. by apply framed_ret.
Qed.

Lemma framed_subscript n o key : framed n (subscript o key) any.
Proof.
  destruct o; try apply framed_raise.
  eapply framed_bind; [apply framed_deref|]. intros [items | vs] _; [|apply framed_raise].
  destruct (assoc_get key items); [by apply framed_ret | apply framed_raise].
Qed.

Lemma framed_iterate n o : framed n (iterate o) any.
Proof.
  destruct o; try apply framed_raise; try (by apply framed_ret).
  eapply framed_bind; [apply framed_deref|]. intros [items | vs] _; by apply framed_ret.
Qed.

Lemma framed_copy n o : framed n (copy o) (above n).
Proof.
  destruct o; try apply framed_raise.
  eapply framed_bind; [apply framed_deref|]. intros ob _. apply framed_alloc.
Qed.

(** Writes go through a reference the call obtained above the frame. *)

Lemma framed_setitem n o key v : above n o -> framed n (setitem o key v) any.
Proof.
  intros Ho. destruct o; try apply framed_raise.
  eapply framed_bind; [apply framed_deref|]. intros [items | vs] _; [|apply framed_raise].
  apply framed_store. by apply Ho.
Qed.

Lemma framed_list_append n o v : above n o -> framed n (list_append o v) any.
Proof.
  intros Ho. destruct o; try apply framed_raise.
  eapply framed_bind; [apply framed_deref|]. intros [items | vs] _; [apply framed_raise|].
  apply framed_store. by apply Ho.
Qed.

Lemma framed_for_each n xs body :
  (forall x, framed n (body x) any) -> framed n (for_each xs body) any.
Proof.
  intros Hb. induction xs as [|x xs IH]; [by apply framed_ret|].
  simpl. eapply framed_bind; [apply Hb | by intros _ _].
Qed.

Lemma framed_bind_any {A B : Type} n (m : M A) (f : A -> M B) (Q : A -> Prop) :
  framed n m Q -> (forall a, Q a -> framed n (f a) any) -> framed n (bind m f) any.
Proof. apply framed_bind. Qed.

Lemma framed_if {A : Type} n (b : bool) (m1 m2 : M A) (Q : A -> Prop) :
  framed n m1 Q -> framed n m2 Q -> framed n (if b then m1 else m2) Q.
Proof. by destruct b. Qed.

Create HintDb frame.
#[local] Hint Resolve framed_ret_any framed_raise framed_undefined framed_alloc
  framed_deref framed_dict_get framed_subscript framed_iterate framed_copy
  framed_setitem framed_list_append framed_for_each framed_bind_any framed_if : frame.

Lemma framed_hits n self : framed n (SearchResults.hits self) any.
Proof. unfold SearchResults.hits, new_dict, new_list. eauto 10 with frame. Qed.

Lemma framed_total n self : framed n (SearchResults.total self) any.
Proof. unfold SearchResults.total, new_dict. eauto 10 with frame. Qed.

Lemma framed_comprehension n hs key : framed n (SearchResults.comprehension hs key) any.
Proof. unfold SearchResults.comprehension, new_list. eauto 12 with frame. Qed.

#[local] Hint Resolve framed_hits framed_comprehension : frame.

Lemma framed_get_ids n self : framed n (SearchResults.get_ids self) any.
Proof. unfold SearchResults.get_ids. eauto with frame. Qed.

Lemma framed_get_sources n include_id include_score self :
  framed n (SearchResults.get_sources include_id include_score self) any.
Proof.
  unfold SearchResults.get_sources, new_list. eauto 20 with frame.
Qed.

Lemma framed_as_records n items : framed n (pd.as_records items) any.
Proof.
  induction items as [|v items IH]; [by apply framed_ret|].
  destruct v; try apply framed_undefined. simpl.
  eapply framed_bind; [apply framed_deref|]. intros [r | vs] _; eauto with frame.
Qed.

Lemma framed_as_tuples n width items : framed n (pd.as_tuples width items) any.
Proof.
  induction items as [|v items IH]; [by apply framed_ret|].
  destruct v; try apply framed_undefined. simpl. eauto with frame.
Qed.

#[local] Hint Resolve framed_as_records framed_as_tuples : frame.

Lemma framed_DataFrame n data : framed n (pd.DataFrame_ data) any.
Proof.
  destruct data; try apply framed_undefined.
  eapply framed_bind; [apply framed_deref|]. intros [r | vs] _; eauto with frame.
Qed.

Lemma framed_DataFrame_columns n data cols : framed n (pd.DataFrame_columns data cols) any.
Proof.
  destruct data; try apply framed_undefined.
  eapply framed_bind; [apply framed_deref|]. intros [r | vs] _; eauto with frame.
Qed.

Lemma framed_getitem n df cols : framed n (pd.getitem df cols) any.
Proof.
  unfold pd.getitem. destruct (forallb _ cols); [|eauto with frame].
  destruct (pd.collect _ (pd.rows df)); eauto with frame.
Qed.

#[local] Hint Resolve framed_get_sources framed_DataFrame framed_DataFrame_columns
  framed_getitem : frame.

Lemma framed_search_to_dataframe n columns include_id include_score self :
  framed n (SearchResults.to_dataframe columns include_id include_score self) any.
Proof. unfold SearchResults.to_dataframe. eauto 10 with frame. Qed.

Lemma framed_explanation n self : framed n (ExplainResult.explanation self) any.
Proof. unfold ExplainResult.explanation, new_dict. eauto with frame. Qed.

#[local] Hint Resolve framed_explanation : frame.

Lemma framed_score n self : framed n (ExplainResult.score self) any.
Proof. unfold ExplainResult.score. eauto with frame. Qed.

Lemma framed_walk n fuel result node depth :
  above n result -> framed n (ExplainResult.walk fuel result node depth) any.
Proof.
  intros Hres. revert node depth. induction fuel as [|fuel IH]; intros node depth.
  { apply framed_undefined. }
  rewrite walk_unfold. unfold new_list. eauto 20 with frame.
Qed.

#[local] Hint Resolve framed_walk : frame.

Lemma framed_get_breakdown n fuel self : framed n (ExplainResult.get_breakdown fuel self) any.
Proof. unfold ExplainResult.get_breakdown, new_list. eauto 10 with frame. Qed.

#[local] Hint Resolve framed_get_breakdown : frame.

Lemma framed_explain_to_dataframe n fuel self :
  framed n (ExplainResult.to_dataframe fuel self) any.
Proof. unfold ExplainResult.to_dataframe. eauto with frame. Qed.

Lemma framed_extends {A : Type} (m : M A) (Q : A -> Prop) s :
  framed (length (heap s)) m Q -> extends s (snd (m s)).
Proof.
  intros H. destruct (H s (le_n _)) as [(L & T & P) _]. split; [|done].
  rewrite <- (take_ge (heap s) (length (heap s))) at 1 by lia. rewrite <- T.
  apply prefix_take.
Qed.

(** ** Tables built from records *)

Lemma has_column_app cols c k :
  pd.has_column (cols ++ [k]) c = pd.has_column cols c || String.eqb c k.
Proof. unfold pd.has_column. rewrite existsb_app. simpl. by rewrite orb_false_r. Qed.

Lemma has_column_fold r seen c :
  pd.has_column
    (fold_left (fun (acc : list string) (kv : string * val) =>
                  if pd.has_column acc (fst kv) then acc else acc ++ [fst kv]) r seen) c
  = pd.has_column seen c || has_key r c.
Proof.
  revert seen. induction r as [|[k v] r IH]; intros seen; simpl.
  - unfold has_key. simpl. by rewrite orb_false_r.
  - rewrite IH. unfold has_key at 2. simpl.
    destruct (String.eqb_spec c k) as [->|Hne].
    + destruct (pd.has_column seen k) eqn:E; [by rewrite E|].
      rewrite has_column_app, String.eqb_refl. by rewrite orb_true_r.
    + fold (has_key r c).
      destruct (pd.has_column seen k); [done|].
      rewrite has_column_app. destruct (String.eqb_spec c k); [done|].
      by rewrite orb_false_r.
Qed.

Lemma has_column_union_keys records seen c :
  pd.has_column (pd.union_keys seen records) c = pd.has_column seen c || mentions records c.
Proof.
  revert seen. induction records as [|r records IH]; intros seen; simpl.
  - by rewrite orb_false_r.
  - by rewrite IH, has_column_fold, orb_assoc.
Qed.

Lemma index_of_lookup c cols i :
  pd.index_of c cols = Some i -> cols !! i = Some c.
Proof.
  revert i. induction cols as [|k cols IH]; intros i; simpl; [done|].
  destruct (String.eqb_spec c k) as [->|Hne]; [by intros [= <-]|].
  destruct (pd.index_of c cols) as [j|]; [|done]. intros [= <-]. by apply IH.
Qed.

Lemma index_of_has_column c cols :
  pd.has_column cols c = true -> is_Some (pd.index_of c cols).
Proof.
  induction cols as [|k cols IH]; simpl; [done|].
  destruct (String.eqb c k); [by eexists|]. simpl. intros H.
  destruct (IH H) as [i ->]. by eexists.
Qed.

Lemma collect_map {A B : Type} (f : A -> option B) (g : A -> B) xs :
  (forall x, In x xs -> f x = Some (g x)) -> pd.collect f xs = Some (map g xs).
Proof.
  induction xs as [|x xs IH]; intros H; simpl; [done|].
  rewrite (H x) by (by left). rewrite IH; [done|].
  intros y Hy. apply H. by right.
Qed.

Lemma collect_map_map {A B C : Type} (f : B -> option C) (h : A -> B) (g : A -> C) xs :
  (forall x, In x xs -> f (h x) = Some (g x)) ->
  pd.collect f (map h xs) = Some (map g xs).
Proof.
  induction xs as [|x xs IH]; intros H; simpl; [done|].
  rewrite (H x) by (by left). rewrite IH; [done|].
  intros y Hy. apply H. by right.
Qed.

Lemma select_table {D : Type} (supply : string -> D -> option val) data all i c :
  pd.has_column all c = true ->
  pd.select (pd.table all all supply data)
            (map (fun k => {| pd.inputs := map (supply k) data; pd.position := i |}) all) c
  = Some {| pd.inputs := map (supply c) data; pd.position := i |}.
Proof.
  intros Hc. unfold pd.select. cbn [pd.table pd.columns].
  destruct (index_of_has_column c all Hc) as [j Hj].
  rewrite Hj. apply index_of_lookup in Hj.
  by rewrite list_lookup_fmap, Hj.
Qed.

Lemma getitem_project records all cols s :
  pd.getitem (project all records) cols s =
    (if forallb (pd.has_column all) cols
     then Ok (project cols records) else Raise KeyError, s).
Proof.
  unfold pd.getitem, project. cbn [pd.table pd.columns pd.rows].
  destruct (forallb (pd.has_column all) cols) eqn:E; [|done].
  rewrite forallb_forall in E.
  rewrite (collect_map_map _ _
             (fun i => map (fun k => {| pd.inputs := map (fun r => assoc_get k r) records;
                                        pd.position := i |}) cols)); [done|].
  intros i _. apply collect_map. intros c Hc.
  apply (select_table (fun c r => assoc_get c r) records all i c). by apply E.
Qed.

Lemma getitem_of_records records cols s :
  pd.getitem (pd.of_records records) cols s =
    (if forallb (mentions records) cols then Ok (project cols records) else Raise KeyError, s).
Proof.
  change (pd.of_records records) with (project (pd.union_keys [] records) records).
  rewrite getitem_project.
  assert (forallb (pd.has_column (pd.union_keys [] records)) cols
          = forallb (mentions records) cols) as ->; [|done].
  induction cols as [|c cols IH]; simpl in *; [done|].
  by rewrite has_column_union_keys, IH.
Qed.

Lemma length_rows_table {K D : Type} labels (keys : list K)
    (supply : K -> D -> option val) data :
  length (pd.rows (pd.table labels keys supply data)) = length data.
Proof. unfold pd.table. cbn [pd.rows]. by rewrite length_map, length_seq. Qed.

Lemma rows_table_lookup {K D : Type} labels (keys : list K)
    (supply : K -> D -> option val) data i row :
  pd.rows (pd.table labels keys supply data) !! i = Some row ->
  i < length data /\
  row = map (fun k => {| pd.inputs := map (supply k) data; pd.position := i |}) keys.
Proof.
  unfold pd.table. cbn [pd.rows]. rewrite list_lookup_fmap.
  destruct (seq 0 (length data) !! i) as [j|] eqn:Hj; [|done].
  apply lookup_seq in Hj as [-> Hi]. simpl. by intros [= <-].
Qed.

Lemma rows_table_at {K D : Type} labels (keys : list K)
    (supply : K -> D -> option val) data i :
  i < length data ->
  pd.rows (pd.table labels keys supply data) !! i =
    Some (map (fun k => {| pd.inputs := map (supply k) data; pd.position := i |}) keys).
Proof.
  intros Hi. unfold pd.table. cbn [pd.rows]. rewrite list_lookup_fmap.
  by rewrite (lookup_seq_lt 0 (length data) i Hi).
Qed.

Lemma length_rows_project cols records :
  length (pd.rows (project cols records)) = length records.
Proof. apply length_rows_table. Qed.

Lemma rows_project_lookup cols records i row :
  pd.rows (project cols records) !! i = Some row ->
  i < length records /\
  row = map (fun k => {| pd.inputs := map (fun r => assoc_get k r) records;
                         pd.position := i |}) cols.
Proof. apply rows_table_lookup. Qed.

Lemma cell_at_project records all i c :
  i < length records ->
  pd.has_column all c = true ->
  pd.cell_at (project all records) i c =
    Some {| pd.inputs := map (fun r => assoc_get c r) records; pd.position := i |}.
Proof.
  intros Hi Hc. unfold pd.cell_at, project.
  rewrite (rows_table_at all all _ records i Hi).
  by apply select_table.
Qed.

Lemma as_records_eq s items records :
  Forall2 (record_at s) items records ->
  pd.as_records items s = (Ok records, s).
Proof.
  induction 1 as [|v r items records (c & -> & Hc) _ IH]; [done|].
  simpl. rewrite (bind_ok _ _ _ _ _ (deref_eq _ _ _ Hc)).
  by rewrite (bind_ok _ _ _ _ _ IH).
Qed.

Lemma DataFrame_of_records s l items records :
  heap s !! l = Some (OList items) ->
  Forall2 (record_at s) items records ->
  pd.DataFrame_ (VRef l) s = (Ok (pd.of_records records), s).
Proof.
  intros Hl Hitems. unfold pd.DataFrame_.
  rewrite (bind_ok _ _ _ _ _ (deref_eq _ _ _ Hl)).
  by rewrite (bind_ok _ _ _ _ _ (as_records_eq _ _ _ Hitems)).
Qed.

Lemma mentions_all records cols :
  forallb (mentions records) cols = true <->
  Forall (fun c => Exists (fun r => is_Some (assoc_get c r)) records) cols.
Proof.
  rewrite forallb_forall, Forall_forall. apply forall_proper. intros c.
  rewrite list_elem_of_In. apply forall_proper. intros _.
  unfold mentions. rewrite existsb_exists, Exists_exists. split.
  - intros (r & Hr & Hk). exists r. rewrite list_elem_of_In. split; [done|].
    unfold has_key in Hk. by destruct (assoc_get c r).
  - intros (r & Hr & [v Hv]). exists r. rewrite <- list_elem_of_In. split; [done|].
    unfold has_key. by rewrite Hv.
Qed.

Lemma mentions_some_absent records cols :
  Exists (fun c => Forall (fun r => assoc_get c r = None) records) cols ->
  forallb (mentions records) cols = false.
Proof.
  intros H. apply not_true_is_false. rewrite mentions_all.
  intros Hall. rewrite Exists_exists in H. destruct H as (c & Hc & Hnone).
  rewrite Forall_forall in Hall. specialize (Hall c Hc).
  rewrite Exists_exists in Hall. destruct Hall as (r & Hr & [v Hv]).
  rewrite Forall_forall in Hnone. specialize (Hnone r Hr). congruence.
Qed.

Lemma to_dataframe_of_records columns include_id include_score self s l s1 items records :
  SearchResults.get_sources include_id include_score self s = (Ok (VRef l), s1) ->
  heap s1 !! l = Some (OList items) ->
  Forall2 (record_at s1) items records ->
  SearchResults.to_dataframe columns include_id include_score self s =
    (if truthy columns
     then (if forallb (mentions records) (default [] columns)
           then Ok (project (default [] columns) records) else Raise KeyError)
     else Ok (pd.of_records records), s1).
Proof.
  intros Hrun Hl Hitems. unfold SearchResults.to_dataframe.
  rewrite (bind_ok _ _ _ _ _ Hrun).
  rewrite (bind_ok _ _ _ _ _ (DataFrame_of_records _ _ _ _ Hl Hitems)).
  destruct (truthy columns); [apply getitem_of_records | done].
Qed.

(** ** [get_breakdown] on documents *)

Lemma get_breakdown_ok fuel self j s rows :
  repr (heap s) (ExplainResult._json self) j ->
  Doc.get_breakdown fuel j = Ok rows ->
  exists vs s',
    ExplainResult.get_breakdown fuel self s = (Ok (VRef (length (heap s))), s') /\
    heap s' !! length (heap s) = Some (OList vs) /\
    Forall2 (repr_row (heap s')) vs rows /\
    extends s s'.
Proof.
  intros Hr Hdoc.
  destruct (get_breakdown_refines fuel self j s Hr) as (res & s' & Hrun & Hext & Hag).
  rewrite Hdoc in Hag. apply agrees_ok in Hag as (v & -> & -> & l & vs & [= <-] & Hl & Hvs).
  by exists vs, s'.
Qed.

Lemma get_breakdown_tree fuel self body e t s :
  repr (heap s) (ExplainResult._json self) (JObj body) ->
  assoc_get "explanation" body = Some e ->
  denotes e t ->
  height t <= fuel ->
  exists l rows s',
    ExplainResult.get_breakdown fuel self s = (Ok (VRef l), s') /\
    heap s' !! l = Some (OList rows) /\
    Forall2 (repr_row (heap s')) rows (preorder 0 t).
Proof.
  intros Hr He Ht Hfuel.
  destruct (get_breakdown_ok fuel self (JObj body) s (preorder 0 t) Hr)
    as (vs & s' & Hrun & Hl & Hvs & _).
  { unfold Doc.get_breakdown, Doc.explanation, Doc.get, field. rewrite He. simpl.
    by rewrite (walk_preorder fuel e t 0 Ht Hfuel). }
  by exists (length (heap s)), vs, s'.
Qed.

Lemma repr_row_scalars h v depth z str :
  repr_row h v (depth, JInt z, JStr str) -> v = VTuple [VInt depth; VInt z; VStr str].
Proof.
  intros (value & desc & -> & Hv & Hd). simpl in *.
  inversion Hv; subst. by inversion Hd; subst.
Qed.

Lemma explain_init response j s :
  Response.body response = Some j ->
  exists self s',
    ExplainResult.__init__ response s = (Ok self, s') /\
    ExplainResult._response self = response /\
    heap s `prefix_of` heap s' /\ parses s' = S (parses s) /\
    repr (heap s') (ExplainResult._json self) j.
Proof.
  intros Hb. destruct (json_ok response j s Hb) as (v & s' & Hrun & Hpre & Hpar & Hr).
  eexists _, s'. unfold ExplainResult.__init__. rewrite (bind_ok _ _ _ _ _ Hrun).
  split; [reflexivity|]. by repeat split.
Qed.

Lemma search_init response j s :
  Response.body response = Some j ->
  exists self s',
    SearchResults.__init__ response s = (Ok self, s') /\
    SearchResults._response self = response /\
    heap s `prefix_of` heap s' /\ parses s' = S (parses s) /\
    repr (heap s') (SearchResults._json self) j.
Proof.
  intros Hb. destruct (json_ok response j s Hb) as (v & s' & Hrun & Hpre & Hpar & Hr).
  eexists _, s'. unfold SearchResults.__init__. rewrite (bind_ok _ _ _ _ _ Hrun).
  split; [reflexivity|]. by repeat split.
Qed.

Lemma denotes_example : denotes example_tree example_node.
Proof.
  unfold example_tree, example_node.
  eapply denotes_inner; [reflexivity|].
  constructor; [by apply denotes_leaf|].
  constructor; [|constructor].
  eapply denotes_inner; [reflexivity|].
  constructor; [by apply denotes_leaf | constructor].
Qed.

(** ** Sequences of calls *)

#[local] Hint Resolve framed_total framed_get_ids framed_search_to_dataframe framed_score
  framed_explain_to_dataframe : frame.

Lemma run_call_extends c s : extends s (run_call c s).
Proof.
  destruct c; simpl; unfold after; eapply framed_extends;
    unfold SearchResults.status_code, SearchResults.raw; eauto with frame.
Qed.

Lemma run_calls_extends calls s : extends s (run_calls calls s).
Proof.
  revert s. induction calls as [|c calls IH]; intros s; [apply extends_refl|].
  simpl. eapply extends_trans; [apply run_call_extends | apply IH].
Qed.

Lemma total_ok self j s d :
  repr (heap s) (SearchResults._json self) j ->
  Doc.total j = Ok d ->
  exists v s', SearchResults.total self s = (Ok v, s') /\ repr (heap s') v d.
Proof.
  intros Hr Hd. destruct (total_refines self j s Hr) as (res & s' & Hrun & _ & Hag).
  rewrite Hd in Hag. apply agrees_ok in Hag as (v & -> & Hv). by exists v, s'.
Qed.

Lemma total_ok_int self j s z :
  repr (heap s) (SearchResults._json self) j ->
  Doc.total j = Ok (JInt z) ->
  exists s', SearchResults.total self s = (Ok (VInt z), s').
Proof.
  intros Hr Hd. destruct (total_ok self j s _ Hr Hd) as (v & s' & Hrun & Hv).
  inversion Hv; subst. by exists s'.
Qed.

Lemma explanation_absent self body s :
  repr (heap s) (ExplainResult._json self) (JObj body) ->
  assoc_get "explanation" body = None ->
  ExplainResult.explanation self s =
    (Ok (VRef (length (heap s))),
     {| heap := heap s ++ [ODict []]; parses := parses s |}).
Proof.
  intros Hr Hnone.
  inversion Hr as [ | | | | | | l items ms Hl Hk Hvs Hjson]; subst.
  unfold ExplainResult.explanation, new_dict. rewrite <- Hjson.
  rewrite (dict_get_alloc_eq s l items "explanation" _ Hl).
  pose proof (repr_members _ _ _ "explanation" Hk Hvs) as Hm.
  rewrite Hnone in Hm. by destruct (assoc_get "explanation" items).
Qed.

(** ** Hits that [get_sources] can merge *)

Lemma merged_complete include_score hit :
  complete_hit include_score hit ->
  exists m idj,
    Doc.merged true include_score hit = Ok (JObj m) /\
    hit_id hit = Some idj /\ assoc_get "_id" m = Some idj.
Proof.
  destruct hit as [| | | | | |ms]; try done.
  intros ([src Hsrc] & [idj Hid] & Hscore).
  unfold Doc.merged, Doc.subscript. rewrite Hsrc, Hid. simpl.
  destruct include_score.
  - destruct (Hscore eq_refl) as [sc Hsc]. rewrite Hsc. simpl.
    eexists _, idj. split; [done|]. split; [done|].
    rewrite assoc_get_set_ne by done. apply assoc_get_set_eq.
  - eexists _, idj. split; [done|]. split; [done|]. apply assoc_get_set_eq.
Qed.

Lemma each_single_all {B : Type} (f : document -> outcome B) xs ys :
  Forall2 (fun x y => f x = Ok y) xs ys ->
  Doc.each (fun x => Doc.single (f x)) xs = (ys, Ok tt).
Proof.
  induction 1 as [|x y xs ys Hx _ IH]; simpl; [done|]. by rewrite Hx, IH.
Qed.

Lemma merged_all include_score hs :
  Forall (complete_hit include_score) hs ->
  exists ds,
    Forall2 (fun hit d => Doc.merged true include_score hit = Ok d) hs ds.
Proof.
  induction 1 as [|hit hs Hhit _ [ds IH]]; [by exists []|].
  destruct (merged_complete _ _ Hhit) as (m & idj & Hm & _).
  exists (JObj m :: ds). by constructor.
Qed.

(** ** Hits that lack a key *)

Lemma each_key_error {B : Type} (f : document -> outcome B) xs :
  Forall (fun x => (exists y, f x = Ok y) \/ f x = Raise KeyError) xs ->
  Exists (fun x => f x = Raise KeyError) xs ->
  Doc.collect (Doc.each (fun x => Doc.single (f x)) xs) = Raise KeyError.
Proof.
  induction 1 as [|x xs Hx _ IH]; intros Hex; [by inversion Hex|].
  unfold Doc.collect in *. simpl. destruct Hx as [[y Hy] | Hx].
  - rewrite Hy. simpl.
    assert (Exists (fun x => f x = Raise KeyError) xs) as Hex'.
    { inversion Hex; subst; [congruence | done]. }
    specialize (IH Hex'). destruct (Doc.each _ xs) as [bs' o]. simpl in *.
    by destruct o.
  - by rewrite Hx.
Qed.

Lemma subscript_mapping key hit :
  is_mapping hit ->
  (exists y, Doc.subscript hit key = Ok y) \/ Doc.subscript hit key = Raise KeyError.
Proof.
  destruct hit as [| | | | | |ms]; try done. intros _. simpl.
  destruct (assoc_get key ms); [left; by eexists | by right].
Qed.

Lemma subscript_lacks key hit :
  lacks key hit -> Doc.subscript hit key = Raise KeyError.
Proof. destruct hit as [| | | | | |ms]; try done. simpl. by intros ->. Qed.

Lemma merged_mapping_source include_id include_score hit :
  mapping_source hit ->
  (exists y, Doc.merged include_id include_score hit = Ok y) \/
  Doc.merged include_id include_score hit = Raise KeyError.
Proof.
  destruct hit as [| | | | | |ms]; try done. unfold mapping_source, Doc.merged. simpl.
  destruct (assoc_get "_source" ms) as [[| | | | | |src]|]; try done; [|by right].
  intros _. simpl.
  destruct include_id, include_score; simpl;
    repeat match goal with
           | |- context [assoc_get ?k ms] => destruct (assoc_get k ms); simpl
           end; eauto.
Qed.

Lemma merged_lacks include_id include_score key hit :
  mapping_source hit -> needs include_id include_score key -> lacks key hit ->
  Doc.merged include_id include_score hit = Raise KeyError.
Proof.
  destruct hit as [| | | | | |ms]; try done. unfold mapping_source, Doc.merged. simpl.
  intros Hsrc Hneeds Hlacks.
  destruct (assoc_get "_source" ms) as [[| | | | | |src]|] eqn:Es; try done. simpl.
  destruct Hneeds as [-> | [[-> ->] | [-> ->]]].
  - congruence.
  - by rewrite Hlacks.
  - destruct include_id; simpl; [|by rewrite Hlacks].
    destruct (assoc_get "_id" ms); simpl; [by rewrite Hlacks | done].
Qed.

Lemma get_ids_key_error self body hd hs s :
  repr (heap s) (SearchResults._json self) (JObj body) ->
  assoc_get "hits" body = Some (JObj hd) ->
  assoc_get "hits" hd = Some (JArr hs) ->
  Forall is_mapping hs ->
  Exists (lacks "_id") hs ->
  exists s', SearchResults.get_ids self s = (Raise KeyError, s').
Proof.
  intros Hr Hh Hhs Hall Hex.
  destruct (get_ids_refines self (JObj body) s Hr) as (res & s' & Hrun & _ & Hag).
  assert (Doc.get_ids (JObj body) = Raise KeyError) as Hdoc.
  { unfold Doc.get_ids, Doc.comprehension, Doc.hits, Doc.get, field.
    rewrite Hh. simpl. rewrite Hhs. simpl. apply each_key_error.
    - eapply Forall_impl; [exact Hall|]. intros hit. apply subscript_mapping.
    - eapply Exists_impl; [exact Hex|]. intros hit. apply subscript_lacks. }
  rewrite Hdoc in Hag. apply agrees_raise in Hag as ->. by exists s'.
Qed.

Lemma get_sources_key_error include_id include_score self body hd hs s :
  repr (heap s) (SearchResults._json self) (JObj body) ->
  assoc_get "hits" body = Some (JObj hd) ->
  assoc_get "hits" hd = Some (JArr hs) ->
  Forall mapping_source hs ->
  Exists (fun hit => exists key, needs include_id include_score key /\ lacks key hit) hs ->
  exists s',
    SearchResults.get_sources include_id include_score self s = (Raise KeyError, s').
Proof.
  intros Hr Hh Hhs Hall Hex.
  destruct (include_id || include_score) eqn:Hflag.
  - destruct (get_sources_flagged_refines include_id include_score self (JObj body) s
                Hflag Hr) as (res & s' & Hrun & _ & Hag).
    assert (Doc.get_sources include_id include_score (JObj body) = Raise KeyError) as Hdoc.
    { unfold Doc.get_sources, Doc.hits, Doc.get, field.
      rewrite Hh. simpl. rewrite Hhs. simpl.
      assert (negb include_id && negb include_score = false) as ->.
      { by destruct include_id, include_score. }
      simpl. apply each_key_error.
      - eapply Forall_impl; [exact Hall|]. intros hit. apply merged_mapping_source.
      - rewrite Exists_exists in Hex. destruct Hex as (hit & Hin & key & Hneeds & Hlacks).
        rewrite Exists_exists. exists hit. split; [done|].
        rewrite Forall_forall in Hall. eapply merged_lacks; [by apply Hall | done | done]. }
    rewrite Hdoc in Hag. apply agrees_raise in Hag as ->. by exists s'.
  - apply orb_false_elim in Hflag as [-> ->].
    destruct (get_sources_plain_refines self (JObj body) s Hr) as (res & s' & Hrun & _ & Hag).
    assert (Doc.get_sources false false (JObj body) = Raise KeyError) as Hdoc.
    { unfold Doc.get_sources, Doc.comprehension, Doc.hits, Doc.get, field.
      rewrite Hh. simpl. rewrite Hhs. simpl. apply each_key_error.
      - eapply Forall_impl; [exact Hall|]. intros hit Hhit. apply subscript_mapping.
        by destruct hit.
      - eapply Exists_impl; [exact Hex|]. intros hit (key & Hneeds & Hlacks).
        apply subscript_lacks.
        destruct Hneeds as [-> | [[? _] | [? _]]]; done. }
    rewrite Hdoc in Hag. apply agrees_raise in Hag as ->. by exists s'.
Qed.

(** ** Absent keys *)

(** A key that is present but bound to something other than a mapping
    is not an absent key: [get] is then looked up on a value that has
    no such attribute. *)
Lemma total_of_non_mapping self body n s :
  repr (heap s) (SearchResults._json self) (JObj body) ->
  assoc_get "hits" body = Some (JObj [("total", JInt n)]) ->
  exists s', SearchResults.total self s = (Raise AttributeError, s').
Proof.
  intros Hr Hh. destruct (total_refines self (JObj body) s Hr) as (res & s' & Hrun & _ & Hag).
  assert (Doc.total (JObj body) = Raise AttributeError) as Hdoc.
  { unfold Doc.total, Doc.get, field. by rewrite Hh. }
  rewrite Hdoc in Hag. apply agrees_raise in Hag as ->. by exists s'.
Qed.

Lemma hits_absent self body s :
  repr (heap s) (SearchResults._json self) (JObj body) ->
  assoc_get "hits" body = None \/
  (exists hd, assoc_get "hits" body = Some (JObj hd) /\ assoc_get "hits" hd = None) ->
  exists l s', SearchResults.hits self s = (Ok (VRef l), s') /\
               heap s' !! l = Some (OList []).
Proof.
  intros Hr Habs.
  destruct (hits_refines self (JObj body) s Hr) as (res & s' & Hrun & _ & Hag).
  assert (Doc.hits (JObj body) = Ok (JArr [])) as Hdoc.
  { unfold Doc.hits, Doc.get, field.
    destruct Habs as [-> | (hd & -> & Hhd)]; [done|]. simpl. by rewrite Hhd. }
  rewrite Hdoc in Hag. apply agrees_ok in Hag as (v & -> & Hv).
  inversion Hv as [ | | | | | l vs js Hl Hvs | ]; subst. inversion Hvs; subst.
  by exists l, s'.
Qed.

Lemma score_absent self body s :
  repr (heap s) (ExplainResult._json self) (JObj body) ->
  assoc_get "explanation" body = None \/
  (exists e, assoc_get "explanation" body = Some (JObj e) /\ assoc_get "value" e = None) ->
  exists s', ExplainResult.score self s = (Ok VNone, s').
Proof.
  intros Hr Habs.
  destruct (score_refines self (JObj body) s Hr) as (res & s' & Hrun & _ & Hag).
  assert (Doc.score (JObj body) = Ok JNull) as Hdoc.
  { unfold Doc.score, Doc.explanation, Doc.get, field.
    destruct Habs as [-> | (e & -> & He)]; [done|]. simpl. by rewrite He. }
  rewrite Hdoc in Hag. apply agrees_ok in Hag as (v & -> & Hv).
  inversion Hv; subst. by exists s'.
Qed.

(** * The claims *)

(** C1.  For every explanation tree, [get_breakdown] returns the rows of
    the pre-order depth-first traversal: the root first at depth 0, then
    the children of each node in document order, one level deeper than
    their parent (given a recursion budget of at least the height of the
    tree).  In particular, for the tree with root (10, "root") and
    children (4, "a") and (6, "b"), the latter with child (6, "c"), the
    result is exactly [(0,10,"root"), (1,4,"a"), (1,6,"b"), (2,6,"c")]. *)
Theorem get_breakdown_is_preorder :
  (forall fuel self body e t s,
     repr (heap s) (ExplainResult._json self) (JObj body) ->
     assoc_get "explanation" body = Some e ->
     denotes e t ->
     height t <= fuel ->
     exists l rows s',
       ExplainResult.get_breakdown fuel self s = (Ok (VRef l), s') /\
       heap s' !! l = Some (OList rows) /\
       Forall2 (repr_row (heap s')) rows (preorder 0 t)) /\
  (forall s, exists l s',
     (let* self := ExplainResult.__init__ example_response in
      ExplainResult.get_breakdown 3 self) s = (Ok (VRef l), s') /\
     heap s' !! l =
       Some (OList [VTuple [VInt 0; VInt 10; VStr "root"];
                    VTuple [VInt 1; VInt 4; VStr "a"];
                    VTuple [VInt 1; VInt 6; VStr "b"];
                    VTuple [VInt 2; VInt 6; VStr "c"]])).
Proof.
  split; [apply get_breakdown_tree|].
  intros s.
  destruct (explain_init example_response _ s eq_refl) as (self & s1 & Hinit & _ & _ & _ & Hr).
  destruct (get_breakdown_tree 3 self _ example_tree example_node s1 Hr eq_refl
              denotes_example) as (l & rows & s2 & Hrun & Hl & Hrows); [simpl; lia|].
  exists l, s2. rewrite (bind_ok _ _ _ _ _ Hinit). split; [done|]. rewrite Hl.
  simpl in Hrows.
  repeat match goal with
         | H : Forall2 _ _ (_ :: _) |- _ => inversion H; clear H; subst
         | H : Forall2 _ _ [] |- _ => inversion H; clear H; subst
         | H : repr_row _ _ _ |- _ => apply repr_row_scalars in H; subst
         end.
  reflexivity.
Qed.

Lemma get_breakdown_is_preorder_witness :
  let '(self, s) := explain_of (JObj [("explanation", example_tree)]) in
  exists l rows s',
    ExplainResult.get_breakdown 3 self s = (Ok (VRef l), s') /\
    heap s' !! l = Some (OList rows) /\
    Forall2 (repr_row (heap s')) rows (preorder 0 example_node).
Proof.
  apply (proj1 get_breakdown_is_preorder 3 _ [("explanation", example_tree)]
           example_tree example_node).
  - vm_compute. repeat (econstructor; try reflexivity).
  - reflexivity.
  - exact denotes_example.
  - simpl. lia.
Defined.

(** C2, as stated, fails: [get_ids] and [get_sources] subscript each hit
    and raise [KeyError] when a hit record lacks [_id], [_score] or
    [_source]. *)
Lemma subscripted_keys_raise :
  (let '(self, s) := search_of (JObj missing_id_body) in
   fst (SearchResults.get_ids self s) = Raise KeyError /\
   fst (SearchResults.get_sources true false self s) = Raise KeyError /\
   fst (SearchResults.get_sources false true self s) = Raise KeyError) /\
  (let '(self, s) := search_of (JObj missing_source_body) in
   fst (SearchResults.get_sources false false self s) = Raise KeyError /\
   fst (SearchResults.get_sources true true self s) = Raise KeyError).
Proof. vm_compute. repeat split. Qed.

(** C2, amended.  For [total], [hits], [explanation], [score] and
    [get_breakdown], a key absent from a mapping of the response at any
    level yields the default (0, an empty list, an empty mapping, null,
    and for a node of the tree value 0, empty description and no
    children) rather than an error.  [get_ids] and [get_sources] raise
    [KeyError] when a hit record lacks a key they read: [_id] for
    [get_ids]; [_source], [_id] with [include_id] and [_score] with
    [include_score] for [get_sources]. *)
Theorem absent_keys_default_or_raise :
  (forall self body s,
     repr (heap s) (SearchResults._json self) (JObj body) ->
     (assoc_get "hits" body = None \/
      (exists hd, assoc_get "hits" body = Some (JObj hd) /\
         (assoc_get "total" hd = None \/
          exists t, assoc_get "total" hd = Some (JObj t) /\ assoc_get "value" t = None)) ->
      exists s', SearchResults.total self s = (Ok (VInt 0), s')) /\
     (assoc_get "hits" body = None \/
      (exists hd, assoc_get "hits" body = Some (JObj hd) /\ assoc_get "hits" hd = None) ->
      exists l s', SearchResults.hits self s = (Ok (VRef l), s') /\
                   heap s' !! l = Some (OList [])) /\
     (forall hd hs,
        assoc_get "hits" body = Some (JObj hd) ->
        assoc_get "hits" hd = Some (JArr hs) ->
        Forall is_mapping hs ->
        Exists (lacks "_id") hs ->
        exists s', SearchResults.get_ids self s = (Raise KeyError, s')) /\
     (forall include_id include_score hd hs,
        assoc_get "hits" body = Some (JObj hd) ->
        assoc_get "hits" hd = Some (JArr hs) ->
        Forall mapping_source hs ->
        Exists (fun hit => exists key,
                  needs include_id include_score key /\ lacks key hit) hs ->
        exists s',
          SearchResults.get_sources include_id include_score self s
            = (Raise KeyError, s'))) /\
  (forall self body s,
     repr (heap s) (ExplainResult._json self) (JObj body) ->
     (assoc_get "explanation" body = None ->
      (exists l s', ExplainResult.explanation self s = (Ok (VRef l), s') /\
                    heap s' !! l = Some (ODict [])) /\
      (forall fuel, exists l s',
         ExplainResult.get_breakdown (S fuel) self s = (Ok (VRef l), s') /\
         heap s' !! l = Some (OList [VTuple [VInt 0; VInt 0; VStr ""]]))) /\
     (assoc_get "explanation" body = None \/
      (exists e, assoc_get "explanation" body = Some (JObj e) /\
                 assoc_get "value" e = None) ->
      exists s', ExplainResult.score self s = (Ok VNone, s')) /\
     (forall fuel e t,
        assoc_get "explanation" body = Some e ->
        denotes e t ->
        height t <= fuel ->
        exists l rows s',
          ExplainResult.get_breakdown fuel self s = (Ok (VRef l), s') /\
          heap s' !! l = Some (OList rows) /\
          Forall2 (repr_row (heap s')) rows (preorder 0 t))).
Proof.
  split; intros self body s Hr.
  - split; [|split; [|split]].
    + intros Habs. apply (total_ok_int self _ s 0 Hr).
      unfold Doc.total, Doc.get, field.
      destruct Habs as [-> | (hd & -> & [Ht | (t & Ht & Hv)])]; [done|..]; simpl;
        rewrite Ht; [done|]. simpl. by rewrite Hv.
    + by apply hits_absent.
    + intros hd hs. by apply get_ids_key_error.
    + intros include_id include_score hd hs. by apply get_sources_key_error.
  - split; [|split].
    + intros Hnone. split.
      * eexists _, _. split; [by apply (explanation_absent self body)|]. apply lookup_alloc.
      * intros fuel.
        destruct (get_breakdown_ok (S fuel) self (JObj body) s [(0%Z, JInt 0, JStr "")] Hr)
          as (vs & s' & Hrun & Hl & Hvs & _).
        { unfold Doc.get_breakdown, Doc.explanation, Doc.get, field. by rewrite Hnone. }
        exists (length (heap s)), s'. split; [done|]. rewrite Hl.
        inversion Hvs as [|v ? vs' ? Hv Hrest]; subst. inversion Hrest; subst.
        by apply repr_row_scalars in Hv as ->.
    + by apply score_absent.
    + intros fuel e t. by apply get_breakdown_tree.
Qed.

Lemma absent_keys_default_or_raise_witness :
  (let '(self, s) := search_of (JObj missing_id_body) in
   (exists s', SearchResults.total self s = (Ok (VInt 0), s')) /\
   (exists s', SearchResults.get_ids self s = (Raise KeyError, s'))) /\
  (let '(self, s) := explain_of (JObj [("took", JInt 3)]) in
   exists s', ExplainResult.score self s = (Ok VNone, s')).
Proof.
  split.
  - simpl.
    match goal with
    | |- (exists s', SearchResults.total ?self ?s = _) /\ _ =>
        assert (repr (heap s) (SearchResults._json self) (JObj missing_id_body)) as Hr
          by (repeat (econstructor; try reflexivity));
        destruct (proj1 absent_keys_default_or_raise self missing_id_body s Hr)
          as (Htotal & _ & Hids & _)
    end.
    split.
    + apply Htotal. right. eexists. split; [reflexivity|]. by left.
    + eapply Hids; [reflexivity | reflexivity | by repeat constructor |].
      by apply Exists_cons_hd.
  - simpl.
    match goal with
    | |- exists s', ExplainResult.score ?self ?s = _ =>
        assert (repr (heap s) (ExplainResult._json self) (JObj [("took", JInt 3)])) as Hr
          by (repeat (econstructor; try reflexivity));
        destruct (proj2 absent_keys_default_or_raise self [("took", JInt 3)] s Hr)
          as (_ & Hscore & _)
    end.
    apply Hscore. by left.
Defined.

(** C3, as stated, fails for the empty list of columns: it is a provided
    (non-null) list, yet the table keeps its column [a] instead of being
    projected to no column. *)
Lemma empty_columns_not_projected :
  let '(self, s) := search_of (JObj one_hit_body) in
  exists df,
    fst (SearchResults.to_dataframe (Some []) false false self s) = Ok df /\
    pd.columns df = ["a"] /\ pd.columns df <> [].
Proof. vm_compute. eexists. split; [reflexivity|]. split; [reflexivity | discriminate]. Qed.

(** C3, amended.  For every provided non-empty list of columns,
    [to_dataframe] returns the table of the records of [get_sources]
    projected to exactly the named columns in the given order: its
    labels are the list given, it has one row per record, and each of
    its cells is the cell that the table returned without [columns] has
    in the same row under the same label.  It raises [KeyError] when a
    requested column is absent from every record; an exception of
    [get_sources] is passed on. *)
Theorem to_dataframe_projects_columns :
  forall c cols include_id include_score self s,
    (forall l s1 items records,
       SearchResults.get_sources include_id include_score self s = (Ok (VRef l), s1) ->
       heap s1 !! l = Some (OList items) ->
       Forall2 (record_at s1) items records ->
       (Forall (fun c => Exists (fun r => is_Some (assoc_get c r)) records) (c :: cols) ->
        exists df full,
          SearchResults.to_dataframe (Some (c :: cols)) include_id include_score self s
            = (Ok df, s1) /\
          SearchResults.to_dataframe None include_id include_score self s
            = (Ok full, s1) /\
          pd.columns df = c :: cols /\
          length (pd.rows df) = length records /\
          length (pd.rows full) = length records /\
          forall i row,
            pd.rows df !! i = Some row ->
            Forall2 (fun k x => pd.cell_at full i k = Some x) (c :: cols) row) /\
       (Exists (fun c => Forall (fun r => assoc_get c r = None) records) (c :: cols) ->
        SearchResults.to_dataframe (Some (c :: cols)) include_id include_score self s
          = (Raise KeyError, s1))) /\
    (forall e s1,
       SearchResults.get_sources include_id include_score self s = (Raise e, s1) ->
       SearchResults.to_dataframe (Some (c :: cols)) include_id include_score self s
         = (Raise e, s1)).
Proof.
  intros c cols include_id include_score self s. split.
  - intros l s1 items records Hrun Hl Hitems.
    rewrite (to_dataframe_of_records (Some (c :: cols)) _ _ _ _ _ _ _ _ Hrun Hl Hitems).
    rewrite (to_dataframe_of_records None _ _ _ _ _ _ _ _ Hrun Hl Hitems).
    cbn [truthy default from_option id]. split.
    + intros Hall. apply mentions_all in Hall. rewrite Hall.
      exists (project (c :: cols) records), (pd.of_records records).
      split; [done|]. split; [done|]. split; [done|].
      split; [apply length_rows_project|]. split; [apply length_rows_project|].
      intros i row Hrow. apply rows_project_lookup in Hrow as [Hi ->].
      apply Forall2_fmap_r, Forall_Forall2_diag, Forall_forall. intros k Hk.
      apply (cell_at_project records (pd.union_keys [] records) i k Hi).
      rewrite has_column_union_keys. simpl.
      rewrite forallb_forall in Hall. apply Hall. by apply list_elem_of_In.
    + intros Hex. apply mentions_some_absent in Hex. by rewrite Hex.
  - intros e s1 Hrun. unfold SearchResults.to_dataframe. by apply bind_raise.
Qed.

Lemma to_dataframe_projects_columns_witness :
  let '(self, s) := search_of (JObj hits_body) in
  (exists df full s1,
     SearchResults.to_dataframe (Some ["title"; "_id"]) true false self s = (Ok df, s1) /\
     SearchResults.to_dataframe None true false self s = (Ok full, s1) /\
     pd.columns df = ["title"; "_id"] /\
     length (pd.rows df) = 2 /\
     forall i row,
       pd.rows df !! i = Some row ->
       Forall2 (fun k x => pd.cell_at full i k = Some x) ["title"; "_id"] row) /\
  (exists s1,
     SearchResults.to_dataframe (Some ["x"]) true false self s = (Raise KeyError, s1)).
Proof.
  simpl.
  match goal with
  | |- _ /\ (exists s1, SearchResults.to_dataframe _ _ _ ?self ?s = _) =>
      pose (out := SearchResults.get_sources true false self s);
      assert (out = (Ok (VRef 8), snd out)) as Hrun by (vm_compute; reflexivity);
      assert (heap (snd out) !! 8 = Some (OList [VRef 11; VRef 12])) as Hl
        by (vm_compute; reflexivity);
      assert (Forall2 (record_at (snd out)) [VRef 11; VRef 12]
                [[("title", VStr "x"); ("_id", VStr "1")];
                 [("title", VStr "y"); ("_id", VStr "2")]]) as Hrec
        by (repeat constructor; eexists; (split; [reflexivity | vm_compute; reflexivity]));
      split;
      [ destruct (proj1 (to_dataframe_projects_columns "title" ["_id"] true false self s)
                    _ _ _ _ Hrun Hl Hrec) as [Hok _]
      | destruct (proj1 (to_dataframe_projects_columns "x" [] true false self s)
                    _ _ _ _ Hrun Hl Hrec) as [_ Hfail] ]
  end.
  - destruct Hok as (df & full & Hdf & Hfull & Hcols & Hlen & _ & Hcells).
    { repeat constructor; simpl; eauto. }
    by exists df, full, (snd out).
  - eexists. apply Hfail. repeat constructor.
Defined.



(** C5.  With [include_id] set, [get_sources] returns, for every hit, a
    mapping that binds [_id] to the identifier of the hit, whatever the
    source mapping bound it to; the mapping is a new object (none was at
    its place before the call) that holds the source fields with the
    requested keys merged in, and the objects of the response are left
    as they were. *)
Theorem get_sources_include_id :
  forall include_score self body hd hs s,
    repr (heap s) (SearchResults._json self) (JObj body) ->
    assoc_get "hits" body = Some (JObj hd) ->
    assoc_get "hits" hd = Some (JArr hs) ->
    Forall (complete_hit include_score) hs ->
    exists l items s',
      SearchResults.get_sources true include_score self s = (Ok (VRef l), s') /\
      heap s' !! l = Some (OList items) /\
      extends s s' /\
      Forall2 (fun item hit =>
                 exists c m d idv idj,
                   item = VRef c /\
                   heap s !! c = None /\
                   heap s' !! c = Some (ODict m) /\
                   hit_id hit = Some idj /\
                   assoc_get "_id" m = Some idv /\ repr (heap s') idv idj /\
                   Doc.merged true include_score hit = Ok d /\
                   repr (heap s') item d)
              items hs.
Proof.
  intros include_score self body hd hs s Hr Hh Hhs Hall.
  destruct (merged_all include_score hs Hall) as (ds & Hds).
  destruct (get_sources_flagged_refines true include_score self (JObj body) s eq_refl Hr)
    as (res & s' & Hrun & Hext & Hag).
  assert (Doc.get_sources true include_score (JObj body) = Ok ds) as Hdoc.
  { unfold Doc.get_sources, Doc.hits, Doc.get, field. rewrite Hh. simpl. rewrite Hhs. simpl.
    unfold Doc.collect. by rewrite (each_single_all _ _ _ Hds). }
  rewrite Hdoc in Hag. apply agrees_ok in Hag as (v & -> & l & items & -> & Hl & Hitems & Hrel).
  exists l, items, s'. split; [done|]. split; [done|]. split; [done|].
  clear Hdoc Hitems Hrun Hhs.
  revert items Hrel. induction Hds as [|hit d hs ds Hd Hrest IH]; intros items Hrel;
    inversion Hrel as [|item ? items' ? [[c [-> Hc]] Hitem] Hrel']; subst; constructor.
  - inversion Hall as [|? ? Hhit _]; subst.
    destruct (merged_complete _ _ Hhit) as (m & idj & Hm & Hid & Hget).
    rewrite Hd in Hm. injection Hm as ->.
    inversion Hitem as [ | | | | | | ? its ? Hlc Hk Hvs]; subst.
    pose proof (repr_members _ _ _ "_id" Hk Hvs) as Hmem. rewrite Hget in Hmem.
    destruct (assoc_get "_id" its) as [idv|] eqn:Hidv; [|done].
    exists c, its, (JObj m), idv, idj. repeat split; try done.
    by apply lookup_ge_None.
  - apply IH; [by inversion Hall | done].
Qed.

Lemma get_sources_include_id_witness :
  let '(self, s) := search_of (JObj hits_body) in
  exists l items s',
    SearchResults.get_sources true true self s = (Ok (VRef l), s') /\
    heap s' !! l = Some (OList items) /\
    extends s s' /\
    length items = 2.
Proof.
  simpl.
  match goal with
  | |- exists l items s', SearchResults.get_sources _ _ ?self ?s = _ /\ _ =>
      destruct (get_sources_include_id true self hits_body
                  [("total", JObj [("value", JInt 2)]);
                   ("hits", JArr [JObj [("_id", JStr "1");
                                        ("_score", JFloat (S754_finite false 3 (-1)));
                                        ("_source", JObj [("title", JStr "x");
                                                          ("_id", JStr "old")])];
                                  JObj [("_id", JStr "2"); ("_score", JInt 1);
                                        ("_source", JObj [("title", JStr "y")])]])]
                  [JObj [("_id", JStr "1"); ("_score", JFloat (S754_finite false 3 (-1)));
                         ("_source", JObj [("title", JStr "x"); ("_id", JStr "old")])];
                   JObj [("_id", JStr "2"); ("_score", JInt 1);
                         ("_source", JObj [("title", JStr "y")])]] s)
        as (l & items & s' & Hrun & Hl & Hext & Hrel)
  end.
  - repeat (econstructor; try reflexivity).
  - reflexivity.
  - reflexivity.
  - repeat constructor; simpl; eauto.
  - exists l, items, s'. split; [done|]. split; [done|]. split; [done|].
    by apply Forall2_length in Hrel.
Defined.

(** C6.  [get_breakdown] is pure and keeps no cache: when a call
    returns, a second call returns as well; the two results are distinct
    new lists holding structurally equal rows (the same rows of the
    document), the first list still holds its rows after the second
    call, a write to one list leaves the other as it is, and neither
    call changes an object that existed before it. *)
Theorem get_breakdown_twice :
  forall fuel self j s v1 s1,
    repr (heap s) (ExplainResult._json self) j ->
    ExplainResult.get_breakdown fuel self s = (Ok v1, s1) ->
    exists l1 l2 rows1 rows2 rows s2,
      v1 = VRef l1 /\
      ExplainResult.get_breakdown fuel self s1 = (Ok (VRef l2), s2) /\
      heap s !! l1 = None /\ heap s1 !! l2 = None /\ l1 <> l2 /\
      heap s1 !! l1 = Some (OList rows1) /\
      heap s2 !! l1 = Some (OList rows1) /\
      heap s2 !! l2 = Some (OList rows2) /\
      Forall2 (repr_row (heap s2)) rows1 rows /\
      Forall2 (repr_row (heap s2)) rows2 rows /\
      (forall o, <[l1:=o]> (heap s2) !! l2 = Some (OList rows2)) /\
      (forall o, <[l2:=o]> (heap s2) !! l1 = Some (OList rows1)) /\
      extends s s1 /\ extends s1 s2.
Proof.
  intros fuel self j s v1 s1 Hr Hrun.
  destruct (get_breakdown_refines fuel self j s Hr) as (res & s1' & Hrun' & Hext1 & Hag).
  rewrite Hrun in Hrun'. injection Hrun' as <- <-.
  destruct (Doc.get_breakdown fuel j) as [rows | e |] eqn:Hdoc; try done.
  simpl in Hag. destruct Hag as (-> & l & rows1 & [= <-] & Hl1 & Hrows1).
  assert (repr (heap s1) (ExplainResult._json self) j) as Hr1 by (by eapply extends_repr).
  destruct (get_breakdown_ok fuel self j s1 rows Hr1 Hdoc)
    as (rows2 & s2 & Hrun2 & Hl2 & Hrows2 & Hext2).
  pose proof (lookup_lt_Some _ _ _ Hl1) as Hlt.
  assert (length (heap s) <> length (heap s1)) as Hne by lia.
  exists (length (heap s)), (length (heap s1)), rows1, rows2, rows, s2.
  split; [done|]. split; [done|].
  split; [by apply lookup_ge_None|]. split; [by apply lookup_ge_None|].
  split; [done|]. split; [done|].
  split; [by apply (extends_sub_store s1 s2)|]. split; [done|].
  split.
  { eapply Forall2_impl; [exact Hrows1|]. intros v row Hv.
    eapply repr_row_sub_store; [exact Hv | by apply extends_sub_store]. }
  split; [done|].
  split; [intros o; by rewrite list_lookup_insert_ne|].
  split; [|done].
  intros o. rewrite list_lookup_insert_ne by done. by apply (extends_sub_store s1 s2).
Qed.

Lemma get_breakdown_twice_witness :
  exists l1 l2 rows1 rows2 rows s1 s2,
    ExplainResult.get_breakdown 3 (fst example_explain) (snd example_explain)
      = (Ok (VRef l1), s1) /\
    ExplainResult.get_breakdown 3 (fst example_explain) s1 = (Ok (VRef l2), s2) /\
    l1 <> l2 /\
    heap s2 !! l1 = Some (OList rows1) /\
    heap s2 !! l2 = Some (OList rows2) /\
    Forall2 (repr_row (heap s2)) rows1 rows /\
    Forall2 (repr_row (heap s2)) rows2 rows.
Proof.
  destruct (get_breakdown_twice 3 (fst example_explain)
              (JObj [("explanation", example_tree)]) (snd example_explain) (VRef 7)
              (snd (ExplainResult.get_breakdown 3 (fst example_explain)
                      (snd example_explain))))
    as (l1 & l2 & rows1 & rows2 & rows & s2 & Hv & Hrun2 & _ & _ & Hne & _ & H1 & H2
        & R1 & R2 & _).
  - vm_compute. repeat (econstructor; try reflexivity).
  - vm_compute. reflexivity.
  - injection Hv as <-.
    exists 7, l2, rows1, rows2, rows,
      (snd (ExplainResult.get_breakdown 3 (fst example_explain) (snd example_explain))), s2.
    split; [vm_compute; reflexivity|]. by repeat split.
Defined.

(** C7.  Constructing a [SearchResults] from a response whose body is
    not valid JSON fails in the constructor with the decoder's error;
    for a body that is valid JSON the constructor succeeds, holds the
    decoded document, and the body has been decoded exactly once, no
    later call decoding it again. *)
Theorem init_decodes_once :
  forall response s,
    (Response.body response = None ->
       exists s', SearchResults.__init__ response s = (Raise JSONDecodeError, s')) /\
    (forall j,
       Response.body response = Some j ->
       exists self s',
         SearchResults.__init__ response s = (Ok self, s') /\
         parses s' = S (parses s) /\
         repr (heap s') (SearchResults._json self) j /\
         forall calls, parses (run_calls calls s') = S (parses s)).
Proof.
  intros response s. split.
  - intros Hb. eexists. unfold SearchResults.__init__.
    by rewrite (bind_raise _ _ _ _ _ (json_raise response s Hb)).
  - intros j Hb.
    destruct (search_init response j s Hb) as (self & s' & Hrun & _ & _ & Hpar & Hr).
    exists self, s'. split; [done|]. split; [done|]. split; [done|].
    intros calls. destruct (run_calls_extends calls s') as [_ Hp]. congruence.
Qed.

Lemma init_decodes_once_witness :
  (exists s', SearchResults.__init__ invalid_response empty_state
              = (Raise JSONDecodeError, s')) /\
  (exists self s',
     SearchResults.__init__ (response_of (JObj total_body)) empty_state = (Ok self, s') /\
     parses s' = 1 /\
     repr (heap s') (SearchResults._json self) (JObj total_body) /\
     forall calls, parses (run_calls calls s') = 1).
Proof.
  split.
  - apply (proj1 (init_decodes_once invalid_response empty_state)). reflexivity.
  - apply (proj2 (init_decodes_once (response_of (JObj total_body)) empty_state)).
    reflexivity.
Defined.

(** C8.  No call changes the wrapped data: after any sequence of calls
    to the accessors and methods of either class (with any arguments),
    every object that existed before, the decoded body and the source
    mapping of every hit among them, is as it was; a document held in the
    store is still held, and nothing has been decoded again. *)
Theorem calls_leave_objects_unchanged :
  forall calls s,
    heap s `prefix_of` heap (run_calls calls s) /\
    parses (run_calls calls s) = parses s /\
    (forall l o, heap s !! l = Some o -> heap (run_calls calls s) !! l = Some o) /\
    (forall v j, repr (heap s) v j -> repr (heap (run_calls calls s)) v j).
Proof.
  intros calls s. pose proof (run_calls_extends calls s) as Hext.
  split; [by destruct Hext|]. split; [by destruct Hext|]. split.
  - intros l o. by apply extends_sub_store.
  - intros v j. by apply extends_repr.
Qed.

Lemma calls_leave_objects_unchanged_witness :
  let '(self, s) := search_of (JObj hits_body) in
  repr (heap (run_calls [search_get_sources true true self; search_get_ids self;
                         search_to_dataframe (Some ["title"]) true false self;
                         search_total self] s))
       (SearchResults._json self) (JObj hits_body).
Proof.
  apply (proj2 (proj2 (proj2 (calls_leave_objects_unchanged _ _)))).
  vm_compute. repeat (econstructor; try reflexivity).
Defined.

(** C9.  When the response document has no [explanation] key, the
    [explanation] accessor returns an empty mapping, and [get_breakdown]
    still returns exactly one row, (0, 0, ""). *)
Theorem no_explanation_single_row :
  forall fuel self body s,
    repr (heap s) (ExplainResult._json self) (JObj body) ->
    assoc_get "explanation" body = None ->
    (exists l s',
       ExplainResult.explanation self s = (Ok (VRef l), s') /\
       heap s' !! l = Some (ODict [])) /\
    (exists l s',
       ExplainResult.get_breakdown (S fuel) self s = (Ok (VRef l), s') /\
       heap s' !! l = Some (OList [VTuple [VInt 0; VInt 0; VStr ""]])).
Proof.
  intros fuel self body s Hr Hnone. split.
  - eexists _, _. split; [by apply (explanation_absent self body)|]. apply lookup_alloc.
  - destruct (get_breakdown_ok (S fuel) self (JObj body) s [(0%Z, JInt 0, JStr "")] Hr)
      as (vs & s' & Hrun & Hl & Hvs & _).
    { unfold Doc.get_breakdown, Doc.explanation, Doc.get, field. by rewrite Hnone. }
    exists (length (heap s)), s'. split; [done|]. rewrite Hl.
    inversion Hvs as [|v ? vs' ? Hv Hrest]; subst. inversion Hrest; subst.
    by apply repr_row_scalars in Hv as ->.
Qed.

Lemma no_explanation_single_row_witness :
  let '(self, s) := explain_of (JObj [("took", JInt 3)]) in
  (exists l s',
     ExplainResult.explanation self s = (Ok (VRef l), s') /\
     heap s' !! l = Some (ODict [])) /\
  (exists l s',
     ExplainResult.get_breakdown 1 self s = (Ok (VRef l), s') /\
     heap s' !! l = Some (OList [VTuple [VInt 0; VInt 0; VStr ""]])).
Proof.
  apply (no_explanation_single_row 0 _ [("took", JInt 3)]).
  - vm_compute. repeat (econstructor; try reflexivity).
  - reflexivity.
Defined.

(** C10.  With the empty list for [columns], [to_dataframe] does what it
    does with no [columns] at all: it returns the full table of the
    records of [get_sources], whose columns are the keys of the records,
    and does not raise on account of the list. *)
Theorem to_dataframe_empty_columns :
  forall include_id include_score self s,
    SearchResults.to_dataframe (Some []) include_id include_score self s
      = SearchResults.to_dataframe None include_id include_score self s /\
    (forall l s1 items records,
       SearchResults.get_sources include_id include_score self s = (Ok (VRef l), s1) ->
       heap s1 !! l = Some (OList items) ->
       Forall2 (record_at s1) items records ->
       SearchResults.to_dataframe (Some []) include_id include_score self s
         = (Ok (pd.of_records records), s1) /\
       forall c, pd.has_column (pd.columns (pd.of_records records)) c = mentions records c).
Proof.
  intros include_id include_score self s. split; [reflexivity|].
  intros l s1 items records Hrun Hl Hitems. split.
  - by rewrite (to_dataframe_of_records (Some []) _ _ _ _ _ _ _ _ Hrun Hl Hitems).
  - intros c. apply has_column_union_keys.
Qed.

Lemma to_dataframe_empty_columns_witness :
  let '(self, s) := search_of (JObj hits_body) in
  exists s1,
    SearchResults.to_dataframe (Some []) true false self s
      = (Ok (pd.of_records [[("title", VStr "x"); ("_id", VStr "1")];
                            [("title", VStr "y"); ("_id", VStr "2")]]), s1).
Proof.
  simpl.
  match goal with
  | |- exists s1, SearchResults.to_dataframe _ _ _ ?self ?s = _ =>
      pose (out := SearchResults.get_sources true false self s);
      assert (out = (Ok (VRef 8), snd out)) as Hrun by (vm_compute; reflexivity);
      assert (heap (snd out) !! 8 = Some (OList [VRef 11; VRef 12])) as Hl
        by (vm_compute; reflexivity);
      assert (Forall2 (record_at (snd out)) [VRef 11; VRef 12]
                [[("title", VStr "x"); ("_id", VStr "1")];
                 [("title", VStr "y"); ("_id", VStr "2")]]) as Hrec
        by (repeat constructor; eexists; (split; [reflexivity | vm_compute; reflexivity]));
      destruct (proj2 (to_dataframe_empty_columns true false self s)
                  _ _ _ _ Hrun Hl Hrec) as [Hok _]
  end.
  eexists. exact Hok.
Defined.

(** * Further properties *)

(** ** What the accessors return, object by object *)

Lemma field_at_app h k key x v : field_at h key x v -> field_at (h ++ k) key x v.
Proof.
  intros (l & items & -> & Hl & Hv). exists l, items.
  split; [done|]. split; [by apply lookup_app_l_Some | done].
Qed.

Lemma subscript_field_at s key x v :
  field_at (heap s) key x v -> subscript x key s = (Ok v, s).
Proof.
  intros (l & items & -> & Hl & Hv). unfold subscript, bind.
  by rewrite (deref_eq _ _ _ Hl), Hv.
Qed.

Lemma dict_get_field_at s key x v o :
  field_at (heap s) key x v ->
  dict_get x key (alloc o) s = (Ok v, {| heap := heap s ++ [o]; parses := parses s |}).
Proof.
  intros (l & items & -> & Hl & Hv). rewrite (dict_get_alloc_eq s l items key o Hl).
  by rewrite Hv.
Qed.

Lemma hits_stored self s hv :
  hits_at (heap s) (SearchResults._json self) hv ->
  SearchResults.hits self s =
    (Ok hv, {| heap := heap s ++ [ODict []; OList []]; parses := parses s |}).
Proof.
  intros (inner & H1 & H2). unfold SearchResults.hits, new_dict, new_list.
  rewrite (bind_ok _ _ _ _ _ (dict_get_field_at s "hits" _ inner _ H1)).
  rewrite (dict_get_field_at _ "hits" inner hv (OList [])); [|by apply field_at_app].
  simpl. by rewrite <- app_assoc.
Qed.

Lemma for_each_pick key h p xs vs acc :
  Forall2 (field_at h key) xs vs ->
  for_each xs (fun hit => let* v := subscript hit key in list_append (VRef (length h)) v)
           {| heap := h ++ [OList acc]; parses := p |}
  = (Ok tt, {| heap := h ++ [OList (acc ++ vs)]; parses := p |}).
Proof.
  intros H. revert acc. induction H as [|x v xs vs Hx _ IH]; intros acc.
  - by rewrite app_nil_r.
  - assert ((let* v := subscript x key in list_append (VRef (length h)) v)
              {| heap := h ++ [OList acc]; parses := p |}
            = (Ok tt, {| heap := h ++ [OList (acc ++ [v])]; parses := p |})) as Hbody.
    { rewrite (bind_ok _ _ _ _ _
                 (subscript_field_at {| heap := h ++ [OList acc]; parses := p |} key x v
                    (field_at_app h _ key x v Hx))).
      rewrite (list_append_eq {| heap := h ++ [OList acc]; parses := p |} (length h) acc v
                 (lookup_alloc h _)).
      simpl. by rewrite insert_alloc. }
    simpl. rewrite (bind_ok _ _ _ _ _ Hbody), IH. by rewrite <- app_assoc.
Qed.

Lemma comprehension_stored hs key s xs vs :
  list_at (heap s) hs xs ->
  Forall2 (field_at (heap s) key) xs vs ->
  SearchResults.comprehension hs key s =
    (Ok (VRef (length (heap s))),
     {| heap := heap s ++ [OList vs]; parses := parses s |}).
Proof.
  intros (l & -> & Hl) Hxs. unfold SearchResults.comprehension.
  assert (iterate (VRef l) s = (Ok xs, s)) as Hiter.
  { unfold iterate, bind. by rewrite (deref_eq _ _ _ Hl). }
  rewrite (bind_ok _ _ _ _ _ Hiter). unfold new_list, bind at 1, alloc at 1.
  unfold bind at 1. by rewrite (for_each_pick key (heap s) (parses s) xs vs [] Hxs).
Qed.

Lemma Forall2_field_at_app h k key xs vs :
  Forall2 (field_at h key) xs vs -> Forall2 (field_at (h ++ k) key) xs vs.
Proof. intros H. eapply Forall2_impl; [exact H|]. intros x v. apply field_at_app. Qed.

Lemma hits_then_stored self key s hv xs vs :
  hits_at (heap s) (SearchResults._json self) hv ->
  list_at (heap s) hv xs ->
  Forall2 (field_at (heap s) key) xs vs ->
  (let* hs := SearchResults.hits self in SearchResults.comprehension hs key) s =
    (Ok (VRef (length (heap s) + 2)),
     {| heap := heap s ++ [ODict []; OList []; OList vs]; parses := parses s |}).
Proof.
  intros Hhits (l & -> & Hl) Hxs.
  rewrite (bind_ok _ _ _ _ _ (hits_stored self s _ Hhits)).
  rewrite (comprehension_stored (VRef l) key _ xs vs).
  - simpl. rewrite length_app. simpl. by rewrite <- app_assoc.
  - exists l. split; [done|]. simpl. by apply lookup_app_l_Some.
  - simpl. by apply Forall2_field_at_app.
Qed.

(** X1.  Without flags, [get_sources] returns a new list whose elements
    are the very values the hits hold under [_source], in hit order: the
    mappings are shared with the response, not copied.  Besides that
    list, the call only creates the two discarded defaults of [hits]. *)
Theorem get_sources_shares_sources :
  forall self s hv xs vs,
    hits_at (heap s) (SearchResults._json self) hv ->
    list_at (heap s) hv xs ->
    Forall2 (field_at (heap s) "_source") xs vs ->
    SearchResults.get_sources false false self s =
      (Ok (VRef (length (heap s) + 2)),
       {| heap := heap s ++ [ODict []; OList []; OList vs]; parses := parses s |}).
Proof. intros self s hv xs vs. apply hits_then_stored. Qed.

(** X2.  For a response with K hits that each have an [_id], [get_ids]
    returns a new list of exactly the K identifiers, in hit order. *)
Theorem get_ids_in_hit_order :
  forall self s hv xs vs,
    hits_at (heap s) (SearchResults._json self) hv ->
    list_at (heap s) hv xs ->
    Forall2 (field_at (heap s) "_id") xs vs ->
    SearchResults.get_ids self s =
      (Ok (VRef (length (heap s) + 2)),
       {| heap := heap s ++ [ODict []; OList []; OList vs]; parses := parses s |}) /\
    length vs = length xs.
Proof.
  intros self s hv xs vs Hhits Hlist Hxs. split.
  - by apply hits_then_stored with (hv := hv) (xs := xs).
  - symmetry. by eapply Forall2_length.
Qed.

(** X3.  When the response has a value under [hits.hits], the [hits]
    accessor returns that very value (for a list, the list of the
    response itself, not a copy), and so does every later call. *)
Theorem hits_is_the_stored_list :
  forall self s hv,
    hits_at (heap s) (SearchResults._json self) hv ->
    exists s1 s2,
      SearchResults.hits self s = (Ok hv, s1) /\
      SearchResults.hits self s1 = (Ok hv, s2) /\
      extends s s1 /\ extends s1 s2.
Proof.
  intros self s hv Hhits.
  assert (forall t, hits_at (heap t) (SearchResults._json self) hv ->
            extends t {| heap := heap t ++ [ODict []; OList []]; parses := parses t |})
    as Hext.
  { intros t _. split; [by apply prefix_app_r | done]. }
  eexists _, _. split; [by apply hits_stored|]. split; [|split; [by apply Hext|]].
  - apply hits_stored. destruct Hhits as (inner & H1 & H2). exists inner.
    split; by apply field_at_app.
  - apply Hext. destruct Hhits as (inner & H1 & H2). exists inner.
    split; by apply field_at_app.
Qed.

Lemma example_search_hits :
  hits_at (heap (snd example_search)) (SearchResults._json (fst example_search)) (VRef 5) /\
  list_at (heap (snd example_search)) (VRef 5) [VRef 2; VRef 4].
Proof.
  split.
  - exists (VRef 6). split; eexists _, _; (split; [reflexivity|]); split; reflexivity.
  - by exists 5.
Qed.

Lemma get_sources_shares_sources_witness :
  SearchResults.get_sources false false (fst example_search) (snd example_search) =
    (Ok (VRef (length (heap (snd example_search)) + 2)),
     {| heap := heap (snd example_search) ++ [ODict []; OList []; OList [VRef 1; VRef 3]];
        parses := parses (snd example_search) |}).
Proof.
  apply (get_sources_shares_sources _ _ (VRef 5) [VRef 2; VRef 4] [VRef 1; VRef 3]).
  - apply example_search_hits.
  - apply example_search_hits.
  - repeat constructor; eexists _, _; (split; [reflexivity|]); split; reflexivity.
Defined.

Lemma get_ids_in_hit_order_witness :
  SearchResults.get_ids (fst example_search) (snd example_search) =
    (Ok (VRef (length (heap (snd example_search)) + 2)),
     {| heap := heap (snd example_search)
                  ++ [ODict []; OList []; OList [VStr "1"; VStr "2"]];
        parses := parses (snd example_search) |}) /\
  length [VStr "1"; VStr "2"] = length [VRef 2; VRef 4].
Proof.
  apply (get_ids_in_hit_order _ _ (VRef 5) [VRef 2; VRef 4] [VStr "1"; VStr "2"]).
  - apply example_search_hits.
  - apply example_search_hits.
  - repeat constructor; eexists _, _; (split; [reflexivity|]); split; reflexivity.
Defined.

Lemma hits_is_the_stored_list_witness :
  exists s1 s2,
    SearchResults.hits (fst example_search) (snd example_search) = (Ok (VRef 5), s1) /\
    SearchResults.hits (fst example_search) s1 = (Ok (VRef 5), s2) /\
    extends (snd example_search) s1 /\ extends s1 s2.
Proof. apply (hits_is_the_stored_list _ _ (VRef 5)). apply example_search_hits. Defined.

(** ** More on [get_breakdown] *)

Lemma walk_returns_root fuel node depth rows :
  Doc.walk fuel node depth = (rows, Ok tt) ->
  exists e rest,
    node = JObj e /\
    rows = (depth, field "value" (JInt 0) e, field "description" (JStr "") e) :: rest.
Proof.
  destruct fuel as [|fuel]; [done|]. destruct node as [| | | | | |e]; try done. simpl.
  destruct (Doc.iterate (field "details" (JArr []) e)) as [ds | err |]; try done.
  destruct (Doc.each _ ds) as [rest o]. intros [= <- ->]. by exists e, rest.
Qed.

Lemma get_breakdown_returns_root fuel j rows :
  Doc.get_breakdown fuel j = Ok rows ->
  exists body e rest,
    j = JObj body /\
    field "explanation" (JObj []) body = JObj e /\
    rows = (0%Z, field "value" (JInt 0) e, field "description" (JStr "") e) :: rest.
Proof.
  destruct j as [| | | | | |body]; try done.
  unfold Doc.get_breakdown, Doc.explanation, Doc.get, Doc.collect. simpl.
  destruct (Doc.walk fuel (field "explanation" (JObj []) body) 0) as [rows' o] eqn:Hw.
  simpl. destruct o as [[] | |]; try done. intros [= <-].
  destruct (walk_returns_root _ _ _ _ Hw) as (e & rest & He & Hrows).
  by exists body, e, rest.
Qed.

Lemma get_breakdown_result fuel self j s v s' :
  repr (heap s) (ExplainResult._json self) j ->
  ExplainResult.get_breakdown fuel self s = (Ok v, s') ->
  exists rows l vs,
    Doc.get_breakdown fuel j = Ok rows /\
    v = VRef l /\ heap s !! l = None /\
    heap s' !! l = Some (OList vs) /\
    Forall2 (repr_row (heap s')) vs rows /\
    extends s s'.
Proof.
  intros Hr Hrun.
  destruct (get_breakdown_refines fuel self j s Hr) as (res & s1 & Hrun' & Hext & Hag).
  rewrite Hrun in Hrun'. injection Hrun' as <- <-.
  destruct (Doc.get_breakdown fuel j) as [rows | e |]; try done.
  simpl in Hag. destruct Hag as (-> & l & vs & [= <-] & Hl & Hvs).
  exists rows, (length (heap s)), vs. split; [done|]. split; [done|].
  split; [by apply lookup_ge_None | done].
Qed.

Lemma get_breakdown_raises fuel self j s e :
  repr (heap s) (ExplainResult._json self) j ->
  Doc.get_breakdown fuel j = Raise e ->
  exists s', ExplainResult.get_breakdown fuel self s = (Raise e, s').
Proof.
  intros Hr Hdoc.
  destruct (get_breakdown_refines fuel self j s Hr) as (res & s' & Hrun & _ & Hag).
  rewrite Hdoc in Hag. apply agrees_raise in Hag as ->. by exists s'.
Qed.

(** X4.  Whenever [get_breakdown] returns, the result is not empty and
    its first row is the root: depth 0, the value and the description
    of the explanation mapping, with 0 and the empty text for an absent
    one (an absent explanation counting as an empty mapping). *)
Theorem breakdown_starts_with_root :
  forall fuel self j s v s',
    repr (heap s) (ExplainResult._json self) j ->
    ExplainResult.get_breakdown fuel self s = (Ok v, s') ->
    exists body e l value desc rest,
      j = JObj body /\
      field "explanation" (JObj []) body = JObj e /\
      v = VRef l /\
      heap s' !! l = Some (OList (VTuple [VInt 0; value; desc] :: rest)) /\
      repr (heap s') value (field "value" (JInt 0) e) /\
      repr (heap s') desc (field "description" (JStr "") e).
Proof.
  intros fuel self j s v s' Hr Hrun.
  destruct (get_breakdown_result _ _ _ _ _ _ Hr Hrun)
    as (rows & l & vs & Hdoc & -> & _ & Hl & Hvs & _).
  destruct (get_breakdown_returns_root _ _ _ Hdoc) as (body & e & rest & -> & He & ->).
  inversion Hvs as [|row ? vs' ? (value & desc & -> & Hv & Hd) Hrest]; subst.
  by exists body, e, l, value, desc, vs'.
Qed.

Lemma breakdown_starts_with_root_witness :
  exists body e l value desc rest,
    JObj [("explanation", example_tree)] = JObj body /\
    field "explanation" (JObj []) body = JObj e /\
    VRef 7 = VRef l /\
    heap (snd (ExplainResult.get_breakdown 3 (fst example_explain) (snd example_explain)))
      !! l = Some (OList (VTuple [VInt 0; value; desc] :: rest)) /\
    repr (heap (snd (ExplainResult.get_breakdown 3 (fst example_explain)
                       (snd example_explain))))
         value (field "value" (JInt 0) e) /\
    repr (heap (snd (ExplainResult.get_breakdown 3 (fst example_explain)
                       (snd example_explain))))
         desc (field "description" (JStr "") e).
Proof.
  apply (breakdown_starts_with_root 3 (fst example_explain) _ (snd example_explain)).
  - vm_compute. repeat (econstructor; try reflexivity).
  - vm_compute. reflexivity.
Defined.

(** X5.  [score] and the first row of [get_breakdown] read the same
    [value] of the explanation, but default differently: when the
    explanation has a [value], both give it; when it has none, [score]
    is [None] while the first row shows 0. *)
Theorem score_and_first_row :
  forall fuel self body e s v s',
    repr (heap s) (ExplainResult._json self) (JObj body) ->
    assoc_get "explanation" body = Some (JObj e) ->
    ExplainResult.get_breakdown fuel self s = (Ok v, s') ->
    exists l value desc rest sv s1,
      v = VRef l /\
      heap s' !! l = Some (OList (VTuple [VInt 0; value; desc] :: rest)) /\
      ExplainResult.score self s = (Ok sv, s1) /\
      match assoc_get "value" e with
      | Some jv => repr (heap s') value jv /\ repr (heap s1) sv jv
      | None => value = VInt 0 /\ sv = VNone
      end.
Proof.
  intros fuel self body e s v s' Hr He Hrun.
  destruct (get_breakdown_result _ _ _ _ _ _ Hr Hrun)
    as (rows & l & vs & Hdoc & -> & _ & Hl & Hvs & _).
  destruct (get_breakdown_returns_root _ _ _ Hdoc) as (body' & e' & rest & [= <-] & He' & ->).
  unfold field in He'. rewrite He in He'. injection He' as <-.
  inversion Hvs as [|row ? vs' ? (value & desc & -> & Hv & Hd) Hrest]; subst.
  destruct (score_refines self (JObj body) s Hr) as (res & s1 & Hscore & _ & Hag).
  assert (Doc.score (JObj body) = Ok (field "value" JNull e)) as Hsdoc.
  { unfold Doc.score, Doc.explanation, Doc.get, field. by rewrite He. }
  rewrite Hsdoc in Hag. apply agrees_ok in Hag as (sv & -> & Hsv).
  exists l, value, desc, vs', sv, s1. split; [done|]. split; [done|]. split; [done|].
  simpl in Hv. unfold field in Hv, Hsv.
  destruct (assoc_get "value" e); simpl in *; [done|].
  inversion Hv; subst. by inversion Hsv; subst.
Qed.

Lemma score_and_first_row_witness :
  let '(self, s) := explain_of (JObj [("explanation", JObj [("description", JStr "sum")])]) in
  exists l value desc rest sv s1 s',
    ExplainResult.get_breakdown 1 self s = (Ok (VRef l), s') /\
    heap s' !! l = Some (OList (VTuple [VInt 0; value; desc] :: rest)) /\
    ExplainResult.score self s = (Ok sv, s1) /\
    value = VInt 0 /\ sv = VNone.
Proof.
  simpl.
  match goal with
  | |- context [ExplainResult.get_breakdown 1 ?self ?s] =>
      destruct (score_and_first_row 1 self [("explanation", JObj [("description", JStr "sum")])]
                  [("description", JStr "sum")] s (VRef 2)
                  (snd (ExplainResult.get_breakdown 1 self s)))
        as (l & value & desc & rest & sv & s1 & Hv & Hl & Hscore & Hval)
  end.
  - repeat (econstructor; try reflexivity).
  - reflexivity.
  - vm_compute. reflexivity.
  - injection Hv as <-. simpl in Hval. destruct Hval as [-> ->].
    exists 2, (VInt 0), desc, rest, VNone, s1. eexists.
    split; [vm_compute; reflexivity|]. split; [exact Hl|]. by repeat split.
Defined.

Lemma tree_induction (P : ExplanationNode -> Prop) :
  (forall v d ts, Forall P ts -> P (Node v d ts)) ->
  forall t, P t.
Proof.
  intros H. fix IH 1. intros [v d ts]. apply H.
  induction ts as [|c ts IHts]; constructor; [apply IH | exact IHts].
Qed.

Lemma length_preorder t depth : length (preorder depth t) = size t.
Proof.
  revert depth. induction t as [v d ts IH] using tree_induction.
  intros depth. simpl. f_equal.
  induction IH as [|c ts Hc _ IHts]; simpl; [done|].
  by rewrite length_app, Hc, IHts.
Qed.

Lemma depth_preorder t depth :
  Forall (fun row : BreakdownRow =>
            (depth <= fst (fst row) < depth + Z.of_nat (height t))%Z)
         (preorder depth t).
Proof.
  revert depth. induction t as [v d ts IH] using tree_induction.
  intros depth. simpl preorder. constructor; [simpl; lia|].
  simpl height.
  induction IH as [|c ts Hc _ IHts]; simpl; [constructor|].
  apply Forall_app. split.
  - eapply Forall_impl; [apply (Hc (depth + 1)%Z)|]. intros row. simpl. lia.
  - eapply Forall_impl; [exact IHts|]. intros row. simpl. lia.
Qed.

Lemma rows_depths h vs (drows : list BreakdownRow) (P : Z -> Prop) :
  Forall2 (repr_row h) vs drows ->
  Forall (fun row => P (fst (fst row))) drows ->
  Forall (fun v => exists depth value desc,
            v = VTuple [VInt depth; value; desc] /\ P depth) vs.
Proof.
  induction 1 as [|v row vs drows' (value & desc & -> & _) _ IH]; intros Hd;
    inversion Hd; subst; constructor; [|by apply IH].
  by exists (fst (fst row)), value, desc.
Qed.

(** X6.  On an explanation tree, [get_breakdown] returns exactly one row
    per node, and the depth of every row lies between 0 and the height
    of the tree, height excluded. *)
Theorem breakdown_one_row_per_node :
  forall fuel self body e t s,
    repr (heap s) (ExplainResult._json self) (JObj body) ->
    assoc_get "explanation" body = Some e ->
    denotes e t ->
    height t <= fuel ->
    exists l rows s',
      ExplainResult.get_breakdown fuel self s = (Ok (VRef l), s') /\
      heap s' !! l = Some (OList rows) /\
      length rows = size t /\
      Forall (fun v => exists depth value desc,
                v = VTuple [VInt depth; value; desc] /\
                (0 <= depth < Z.of_nat (height t))%Z) rows.
Proof.
  intros fuel self body e t s Hr He Ht Hfuel.
  destruct (get_breakdown_tree fuel self body e t s Hr He Ht Hfuel)
    as (l & rows & s' & Hrun & Hl & Hrows).
  exists l, rows, s'. split; [done|]. split; [done|]. split.
  - rewrite (Forall2_length _ _ _ Hrows). apply length_preorder.
  - apply (rows_depths (heap s') rows (preorder 0 t)); [done|].
    eapply Forall_impl; [apply (depth_preorder t 0)|]. intros row. simpl. lia.
Qed.

Lemma breakdown_one_row_per_node_witness :
  let '(self, s) := explain_of (JObj [("explanation", example_tree)]) in
  exists l rows s',
    ExplainResult.get_breakdown 3 self s = (Ok (VRef l), s') /\
    heap s' !! l = Some (OList rows) /\
    length rows = 4 /\
    Forall (fun v => exists depth value desc,
              v = VTuple [VInt depth; value; desc] /\ (0 <= depth < 3)%Z) rows.
Proof.
  apply (breakdown_one_row_per_node 3 _ [("explanation", example_tree)]
           example_tree example_node).
  - vm_compute. repeat (econstructor; try reflexivity).
  - reflexivity.
  - exact denotes_example.
  - simpl. lia.
Defined.

(** X7.  [get_breakdown] raises on a malformed explanation: an
    [AttributeError] when the explanation is present but is not a
    mapping, or when the first element of the root's [details] array is
    not a mapping; a [TypeError] when the root's [details] is null, a
    boolean or a number. *)
Theorem breakdown_malformed_raises :
  forall fuel self body s,
    repr (heap s) (ExplainResult._json self) (JObj body) ->
    (forall e,
       assoc_get "explanation" body = Some e -> ~ is_mapping e ->
       exists s', ExplainResult.get_breakdown (S fuel) self s = (Raise AttributeError, s')) /\
    (forall e d,
       assoc_get "explanation" body = Some (JObj e) ->
       assoc_get "details" e = Some d -> not_iterable d ->
       exists s', ExplainResult.get_breakdown (S fuel) self s = (Raise TypeError, s')) /\
    (forall e c cs,
       assoc_get "explanation" body = Some (JObj e) ->
       assoc_get "details" e = Some (JArr (c :: cs)) -> ~ is_mapping c ->
       exists s',
         ExplainResult.get_breakdown (S (S fuel)) self s = (Raise AttributeError, s')).
Proof.
  intros fuel self body s Hr. split; [|split].
  - intros e He Hno. apply (get_breakdown_raises _ _ _ _ _ Hr).
    unfold Doc.get_breakdown, Doc.explanation, Doc.get, field. rewrite He. simpl.
    by destruct e; try done; destruct Hno.
  - intros e d He Hd Hnot. apply (get_breakdown_raises _ _ _ _ _ Hr).
    unfold Doc.get_breakdown, Doc.explanation, Doc.get, field. rewrite He. simpl.
    unfold field. rewrite Hd. by destruct d.
  - intros e c cs He Hd Hno. apply (get_breakdown_raises _ _ _ _ _ Hr).
    unfold Doc.get_breakdown, Doc.explanation, Doc.get, field. rewrite He.
    cbn [Doc.and_then from_option id]. change (Doc.walk (S (S fuel)) (JObj e) 0) with
      (let row := (0%Z, field "value" (JInt 0) e, field "description" (JStr "") e) in
       match Doc.iterate (field "details" (JArr []) e) with
       | Ok ds =>
           let (rows, o) := Doc.each (fun d => Doc.walk (S fuel) d (0 + 1)%Z) ds in
           (row :: rows, o)
       | Raise err => ([row], Raise err)
       | Undefined => ([row], Undefined)
       end).
    unfold field at 3. rewrite Hd. simpl.
    by destruct c; try done; destruct Hno.
Qed.

Lemma breakdown_malformed_raises_witness :
  (let '(self, s) := explain_of (JObj [("explanation", JArr [])]) in
   exists s', ExplainResult.get_breakdown 1 self s = (Raise AttributeError, s')) /\
  (let '(self, s) := explain_of (JObj [("explanation", JObj [("details", JNull)])]) in
   exists s', ExplainResult.get_breakdown 1 self s = (Raise TypeError, s')) /\
  (let '(self, s) := explain_of (JObj [("explanation", JObj [("details", JArr [JInt 1])])]) in
   exists s', ExplainResult.get_breakdown 2 self s = (Raise AttributeError, s')).
Proof.
  split; [|split]; simpl.
  - match goal with
    | |- exists s', ExplainResult.get_breakdown _ ?self ?s = _ =>
        apply (proj1 (breakdown_malformed_raises 0 self [("explanation", JArr [])] s
                        ltac:(repeat (econstructor; try reflexivity))) (JArr []))
    end; [reflexivity | by intros []].
  - match goal with
    | |- exists s', ExplainResult.get_breakdown _ ?self ?s = _ =>
        apply (proj1 (proj2 (breakdown_malformed_raises 0 self
                               [("explanation", JObj [("details", JNull)])] s
                               ltac:(repeat (econstructor; try reflexivity))))
                 [("details", JNull)] JNull)
    end; [reflexivity | reflexivity | exact I].
  - match goal with
    | |- exists s', ExplainResult.get_breakdown _ ?self ?s = _ =>
        apply (proj2 (proj2 (breakdown_malformed_raises 0 self
                               [("explanation", JObj [("details", JArr [JInt 1])])] s
                               ltac:(repeat (econstructor; try reflexivity))))
                 [("details", JArr [JInt 1])] (JInt 1) [])
    end; [reflexivity | reflexivity | by intros []].
Defined.

(** ** [ExplainResult.to_dataframe] *)

Lemma as_tuples_rows s vs :
  Forall is_row vs -> pd.as_tuples 3 vs s = (Ok (map elements vs), s).
Proof.
  induction 1 as [|v vs (depth & value & desc & ->) _ IH]; [done|].
  simpl. by rewrite (bind_ok _ _ _ _ _ IH).
Qed.

Lemma repr_row_is_row h vs (rows : list BreakdownRow) :
  Forall2 (repr_row h) vs rows -> Forall is_row vs.
Proof.
  induction 1 as [|v row vs rows' (value & desc & -> & _) _ IH]; constructor; [|done].
  by eexists _, _, _.
Qed.

(** X8.  [ExplainResult.to_dataframe] returns a table with exactly the
    three columns [depth], [score], [description] and one row per row of
    [get_breakdown], in the same order: the three columns are made of
    the depths, the values and the descriptions of the rows of
    [get_breakdown], in their order, and the row at position [i] of the
    table has the cells at position [i] of these columns.  An exception
    of [get_breakdown] is passed on. *)
Theorem explain_to_dataframe_three_columns :
  forall fuel self j s,
    repr (heap s) (ExplainResult._json self) j ->
    (forall v s1,
       ExplainResult.get_breakdown fuel self s = (Ok v, s1) ->
       exists l vs df,
         v = VRef l /\ heap s1 !! l = Some (OList vs) /\
         ExplainResult.to_dataframe fuel self s = (Ok df, s1) /\
         pd.columns df = ["depth"; "score"; "description"] /\
         length (pd.rows df) = length vs /\
         forall i,
           i < length vs ->
           pd.rows df !! i =
             Some (map (fun k => {| pd.inputs := map (component k) vs;
                                    pd.position := i |}) [0; 1; 2])) /\
    (forall e s1,
       ExplainResult.get_breakdown fuel self s = (Raise e, s1) ->
       ExplainResult.to_dataframe fuel self s = (Raise e, s1)).
Proof.
  intros fuel self j s Hr. split.
  - intros v s1 Hrun.
    destruct (get_breakdown_result _ _ _ _ _ _ Hr Hrun)
      as (rows & l & vs & _ & -> & _ & Hl & Hvs & _).
    pose proof (repr_row_is_row _ _ _ Hvs) as Hrows.
    exists l, vs, (pd.of_tuples ["depth"; "score"; "description"] (map elements vs)).
    split; [done|]. split; [done|]. split.
    { unfold ExplainResult.to_dataframe. rewrite (bind_ok _ _ _ _ _ Hrun).
      unfold pd.DataFrame_columns. rewrite (bind_ok _ _ _ _ _ (deref_eq _ _ _ Hl)).
      by rewrite (bind_ok _ _ _ _ _ (as_tuples_rows s1 vs Hrows)). }
    split; [done|]. unfold pd.of_tuples. split.
    { by rewrite length_rows_table, length_map. }
    intros i Hi. rewrite rows_table_at by (by rewrite length_map).
    f_equal. simpl. by rewrite !map_map.
  - intros e s1 Hrun. unfold ExplainResult.to_dataframe. by apply bind_raise.
Qed.

Lemma explain_to_dataframe_three_columns_witness :
  exists df s1,
    ExplainResult.to_dataframe 3 (fst example_explain) (snd example_explain) =
      (Ok df, s1) /\
    pd.columns df = ["depth"; "score"; "description"] /\
    length (pd.rows df) = 4 /\
    pd.rows df !! 1 =
      Some (map (fun k => {| pd.inputs :=
                               map (component k)
                                 [VTuple [VInt 0; VInt 10; VStr "root"];
                                  VTuple [VInt 1; VInt 4; VStr "a"];
                                  VTuple [VInt 1; VInt 6; VStr "b"];
                                  VTuple [VInt 2; VInt 6; VStr "c"]];
                             pd.position := 1 |}) [0; 1; 2]).
Proof.
  destruct (proj1 (explain_to_dataframe_three_columns 3 (fst example_explain)
                     (JObj [("explanation", example_tree)]) (snd example_explain)
                     ltac:(vm_compute; repeat (econstructor; try reflexivity)))
              (VRef 7)
              (snd (ExplainResult.get_breakdown 3 (fst example_explain)
                      (snd example_explain)))
              ltac:(vm_compute; reflexivity))
    as (l & vs & df & Hv & Hl & Hrun & Hcols & Hlen & Hrows).
  injection Hv as <-. vm_compute in Hl. injection Hl as <-.
  exists df. eexists. split; [exact Hrun|]. split; [done|]. split; [done|].
  apply (Hrows 1). simpl. lia.
Defined.

(** ** Hits whose source is not a mapping *)

Lemma each_first_raise {B : Type} (f : document -> outcome B) pre x post e :
  Forall (fun x => exists y, f x = Ok y) pre ->
  f x = Raise e ->
  Doc.collect (Doc.each (fun x => Doc.single (f x)) (pre ++ x :: post)) = Raise e.
Proof.
  intros Hpre Hx. induction Hpre as [|p pre [y Hy] _ IH]; simpl.
  - by rewrite Hx.
  - rewrite Hy. simpl. unfold Doc.collect in *.
    destruct (Doc.each _ (pre ++ x :: post)) as [bs o]. simpl in *. by destruct o.
Qed.

Lemma merged_complete_any include_id include_score hit :
  complete_hit true hit -> exists y, Doc.merged include_id include_score hit = Ok y.
Proof.
  destruct hit as [| | | | | |ms]; try done.
  intros ([src Hsrc] & [idj Hid] & Hscore). destruct (Hscore eq_refl) as [sc Hsc].
  unfold Doc.merged, Doc.subscript. rewrite Hsrc, Hid, Hsc.
  destruct include_id, include_score; simpl; by eexists.
Qed.

Lemma subscript_complete hit :
  complete_hit true hit -> exists y, Doc.subscript hit "_source" = Ok y.
Proof.
  destruct hit as [| | | | | |ms]; try done.
  intros ([src Hsrc] & _). simpl. rewrite Hsrc. by eexists.
Qed.

Lemma Forall_Forall2_ok {B : Type} (f : document -> outcome B) xs :
  Forall (fun x => exists y, f x = Ok y) xs ->
  exists ys, Forall2 (fun x y => f x = Ok y) xs ys.
Proof.
  induction 1 as [|x xs [y Hy] _ [ys IH]]; [by exists []|].
  exists (y :: ys). by constructor.
Qed.

(** X9.  When the [_source] of a hit is null, a boolean, a number or a
    text, and the other hits are complete, [get_sources] with a flag
    set raises [AttributeError] (such a value cannot be copied), while
    [get_sources] with no flag returns the list of the sources, that
    value at the place of its hit. *)
Theorem flagged_get_sources_needs_mappings :
  forall self body hd pre ms post d s,
    repr (heap s) (SearchResults._json self) (JObj body) ->
    assoc_get "hits" body = Some (JObj hd) ->
    assoc_get "hits" hd = Some (JArr (pre ++ JObj ms :: post)) ->
    Forall (complete_hit true) (pre ++ post) ->
    assoc_get "_source" ms = Some d ->
    scalar d ->
    (forall include_id include_score,
       include_id || include_score = true ->
       exists s',
         SearchResults.get_sources include_id include_score self s =
           (Raise AttributeError, s')) /\
    (exists l vs v s',
       SearchResults.get_sources false false self s = (Ok (VRef l), s') /\
       heap s' !! l = Some (OList vs) /\
       length vs = length (pre ++ JObj ms :: post) /\
       vs !! length pre = Some v /\ repr (heap s') v d).
Proof.
  intros self body hd pre ms post d s Hr Hh Hhs Hall Hsrc Hd.
  apply Forall_app in Hall as [Hpre Hpost]. split.
  - intros include_id include_score Hflag.
    destruct (get_sources_flagged_refines include_id include_score self (JObj body) s
                Hflag Hr) as (res & s' & Hrun & _ & Hag).
    assert (Doc.get_sources include_id include_score (JObj body) = Raise AttributeError)
      as Hdoc.
    { unfold Doc.get_sources, Doc.hits, Doc.get, field.
      rewrite Hh. simpl. rewrite Hhs. simpl.
      assert (negb include_id && negb include_score = false) as ->.
      { by destruct include_id, include_score. }
      simpl. apply each_first_raise.
      - eapply Forall_impl; [exact Hpre|]. intros hit. apply merged_complete_any.
      - unfold Doc.merged, Doc.subscript. rewrite Hsrc. simpl. by destruct d. }
    rewrite Hdoc in Hag. apply agrees_raise in Hag as ->. by exists s'.
  - destruct (get_sources_plain_refines self (JObj body) s Hr) as (res & s' & Hrun & _ & Hag).
    destruct (Forall_Forall2_ok (fun hit => Doc.subscript hit "_source") pre) as [ds1 H1].
    { eapply Forall_impl; [exact Hpre|]. intros hit. apply subscript_complete. }
    destruct (Forall_Forall2_ok (fun hit => Doc.subscript hit "_source") post) as [ds2 H2].
    { eapply Forall_impl; [exact Hpost|]. intros hit. apply subscript_complete. }
    assert (Doc.get_sources false false (JObj body) = Ok (ds1 ++ d :: ds2)) as Hdoc.
    { unfold Doc.get_sources, Doc.comprehension, Doc.hits, Doc.get, field.
      rewrite Hh. simpl. rewrite Hhs. simpl.
      rewrite (each_single_all _ (pre ++ JObj ms :: post) (ds1 ++ d :: ds2)); [done|].
      apply Forall2_app; [done|]. constructor; [|done]. simpl. by rewrite Hsrc. }
    rewrite Hdoc in Hag. apply agrees_ok in Hag as (v & -> & l & vs & -> & _ & Hl & Hvs).
    pose proof (Forall2_length _ _ _ Hvs) as Hlen.
    pose proof (Forall2_length _ _ _ H1) as Hlen1.
    pose proof (Forall2_length _ _ _ H2) as Hlen2.
    assert ((ds1 ++ d :: ds2) !! length pre = Some d) as Hat.
    { rewrite Hlen1. by apply list_lookup_middle. }
    destruct (Forall2_lookup_r _ _ _ _ _ Hvs Hat) as (v & Hv & Hrv).
    exists l, vs, v, s'. split; [done|]. split; [done|]. split; [|done].
    rewrite Hlen. rewrite !length_app. simpl. lia.
Qed.

Lemma flagged_get_sources_needs_mappings_witness :
  (exists s',
     SearchResults.get_sources true false (fst (search_of (JObj null_source_body)))
       (snd (search_of (JObj null_source_body))) = (Raise AttributeError, s')) /\
  (exists l vs s',
     SearchResults.get_sources false false (fst (search_of (JObj null_source_body)))
       (snd (search_of (JObj null_source_body))) = (Ok (VRef l), s') /\
     heap s' !! l = Some (OList vs) /\ vs !! 1 = Some VNone).
Proof.
  pose proof (flagged_get_sources_needs_mappings
                (fst (search_of (JObj null_source_body))) null_source_body
                [("hits",
                  JArr [JObj [("_id", JStr "1"); ("_score", JInt 2);
                              ("_source", JObj [("a", JInt 1)])];
                        JObj [("_id", JStr "2"); ("_score", JInt 1); ("_source", JNull)]])]
                [JObj [("_id", JStr "1"); ("_score", JInt 2);
                       ("_source", JObj [("a", JInt 1)])]]
                [("_id", JStr "2"); ("_score", JInt 1); ("_source", JNull)]
                [] JNull (snd (search_of (JObj null_source_body)))
                ltac:(vm_compute; repeat (econstructor; try reflexivity))
                eq_refl eq_refl
                ltac:(repeat constructor; simpl; eauto)
                eq_refl I) as [Hflag (l & vs & v & s' & Hrun & Hl & _ & Hv & Hrv)].
  split; [exact (Hflag true false eq_refl)|].
  inversion Hrv; subst. by exists l, vs, s'.
Defined.

(** ** Keys and fields of the merged records *)

Lemma map_fst_assoc_set_with_key {A : Type} (key : string) (v : A) items :
  map fst (assoc_set key v items) = with_key key (map fst items).
Proof.
  unfold with_key. induction items as [|[k w] rest IH]; simpl; [done|].
  destruct (String.eqb key k); simpl; [done|]. rewrite IH.
  by destruct (existsb (String.eqb key) (map fst rest)).
Qed.

Lemma merged_complete_fields include_id include_score ms src idj scj :
  assoc_get "_source" ms = Some (JObj src) ->
  assoc_get "_id" ms = Some idj ->
  assoc_get "_score" ms = Some scj ->
  exists m,
    Doc.merged include_id include_score (JObj ms) = Ok (JObj m) /\
    map fst m = merged_keys include_id include_score (map fst src) /\
    forall key,
      assoc_get key m =
        assoc_get key (if from_hit include_id include_score key then ms else src).
Proof.
  intros Hsrc Hid Hsc. unfold Doc.merged, Doc.subscript, merged_keys, from_hit.
  rewrite Hsrc, Hid, Hsc. destruct include_id, include_score; simpl.
  - eexists. split; [done|]. split.
    { by rewrite !map_fst_assoc_set_with_key. }
    intros key. destruct (String.eqb_spec key "_score") as [->|Hne1].
    { rewrite orb_true_r, Hsc. apply assoc_get_set_eq. }
    rewrite assoc_get_set_ne by done.
    destruct (String.eqb_spec key "_id") as [->|Hne2]; simpl.
    { rewrite Hid. apply assoc_get_set_eq. }
    by rewrite assoc_get_set_ne.
  - eexists. split; [done|]. split.
    { by rewrite map_fst_assoc_set_with_key. }
    intros key. rewrite orb_false_r.
    destruct (String.eqb_spec key "_id") as [->|Hne2]; simpl.
    { rewrite Hid. apply assoc_get_set_eq. }
    by rewrite assoc_get_set_ne.
  - eexists. split; [done|]. split.
    { by rewrite map_fst_assoc_set_with_key. }
    intros key.
    destruct (String.eqb_spec key "_score") as [->|Hne2]; simpl.
    { rewrite Hsc. apply assoc_get_set_eq. }
    by rewrite assoc_get_set_ne.
  - by eexists.
Qed.

(** X10.  With a flag set and every hit complete, each record of
    [get_sources] has the keys of the source of its hit in their order,
    followed by [_id] and then [_score] when they are requested and the
    source has no such key; a requested key is bound to the value the hit
    has for it, every other key to the value the source has for it. *)
Theorem flagged_sources_keys_and_fields :
  forall include_id include_score self body hd hs s,
    include_id || include_score = true ->
    repr (heap s) (SearchResults._json self) (JObj body) ->
    assoc_get "hits" body = Some (JObj hd) ->
    assoc_get "hits" hd = Some (JArr hs) ->
    Forall (complete_hit true) hs ->
    exists l items s',
      SearchResults.get_sources include_id include_score self s = (Ok (VRef l), s') /\
      heap s' !! l = Some (OList items) /\
      Forall2 (fun item hit =>
                 exists c m ms src,
                   item = VRef c /\ heap s' !! c = Some (ODict m) /\
                   hit = JObj ms /\ assoc_get "_source" ms = Some (JObj src) /\
                   map fst m = merged_keys include_id include_score (map fst src) /\
                   forall key,
                     same_binding (heap s') key m
                       (if from_hit include_id include_score key then ms else src))
              items hs.
Proof.
  intros include_id include_score self body hd hs s Hflag Hr Hh Hhs Hall.
  destruct (get_sources_flagged_refines include_id include_score self (JObj body) s
              Hflag Hr) as (res & s' & Hrun & _ & Hag).
  destruct (Forall_Forall2_ok (Doc.merged include_id include_score) hs) as [ds Hds].
  { eapply Forall_impl; [exact Hall|]. intros hit. apply merged_complete_any. }
  assert (Doc.get_sources include_id include_score (JObj body) = Ok ds) as Hdoc.
  { unfold Doc.get_sources, Doc.hits, Doc.get, field.
    rewrite Hh. simpl. rewrite Hhs. simpl.
    assert (negb include_id && negb include_score = false) as ->.
    { by destruct include_id, include_score. }
    simpl. by rewrite (each_single_all _ hs ds). }
  rewrite Hdoc in Hag. apply agrees_ok in Hag as (v & -> & l & items & -> & _ & Hl & Hitems).
  exists l, items, s'. split; [done|]. split; [done|].
  clear Hrun Hdoc Hl Hhs. revert items Hitems.
  induction Hds as [|hit d hs ds Hd _ IH]; intros items Hitems.
  { inversion Hitems; subst. constructor. }
  inversion Hitems as [|item ? items' ? [_ Hitem] Hrest]; subst.
  inversion Hall as [|? ? Hhit Hall']; subst.
  constructor; [|by apply IH].
  destruct hit as [| | | | | |ms]; try done.
  destruct Hhit as ([src Hsrc] & [idj Hid] & Hscore).
  destruct (Hscore eq_refl) as [scj Hsc].
  destruct (merged_complete_fields include_id include_score ms src idj scj Hsrc Hid Hsc)
    as (m & Hm & Hkeys & Hfields).
  rewrite Hm in Hd. injection Hd as <-.
  inversion Hitem as [ | | | | | | c its ? Hc Hk Hvs]; subst.
  exists c, its, ms, src. split; [done|]. split; [done|]. split; [done|].
  split; [done|]. split; [congruence|].
  intros key. unfold same_binding. rewrite <- Hfields.
  apply (repr_members _ _ _ key Hk Hvs).
Qed.

Lemma flagged_sources_keys_and_fields_witness :
  exists l items s',
    SearchResults.get_sources true true (fst example_search) (snd example_search) =
      (Ok (VRef l), s') /\
    heap s' !! l = Some (OList items) /\
    Forall2 (fun item hit =>
               exists c m ms src,
                 item = VRef c /\ heap s' !! c = Some (ODict m) /\
                 hit = JObj ms /\ assoc_get "_source" ms = Some (JObj src) /\
                 map fst m = merged_keys true true (map fst src) /\
                 forall key,
                   same_binding (heap s') key m (if from_hit true true key then ms else src))
            items
            [JObj [("_id", JStr "1"); ("_score", JFloat (S754_finite false 3 (-1)));
                   ("_source", JObj [("title", JStr "x"); ("_id", JStr "old")])];
             JObj [("_id", JStr "2"); ("_score", JInt 1);
                   ("_source", JObj [("title", JStr "y")])]].
Proof.
  apply (flagged_sources_keys_and_fields true true (fst example_search) hits_body
           [("total", JObj [("value", JInt 2)]);
            ("hits",
             JArr [JObj [("_id", JStr "1"); ("_score", JFloat (S754_finite false 3 (-1)));
                         ("_source", JObj [("title", JStr "x"); ("_id", JStr "old")])];
                   JObj [("_id", JStr "2"); ("_score", JInt 1);
                         ("_source", JObj [("title", JStr "y")])]])]).
  - reflexivity.
  - vm_compute. repeat (econstructor; try reflexivity).
  - reflexivity.
  - reflexivity.
  - repeat constructor; simpl; eauto.
Defined.

(** ** A response without hits *)

Lemma no_hits_doc body : no_hits body -> Doc.hits (JObj body) = Ok (JArr []).
Proof.
  unfold Doc.hits, Doc.get, field.
  intros [-> | (hd & -> & [Hhd | Hhd])]; simpl; [done | |]; by rewrite Hhd.
Qed.

Lemma get_sources_no_hits include_id include_score self body s :
  repr (heap s) (SearchResults._json self) (JObj body) ->
  no_hits body ->
  exists l s',
    SearchResults.get_sources include_id include_score self s = (Ok (VRef l), s') /\
    heap s' !! l = Some (OList []).
Proof.
  intros Hr Hno. pose proof (no_hits_doc body Hno) as Hdoc.
  destruct (include_id || include_score) eqn:Hflag.
  - destruct (get_sources_flagged_refines include_id include_score self (JObj body) s
                Hflag Hr) as (res & s' & Hrun & _ & Hag).
    unfold Doc.get_sources in Hag. rewrite Hdoc in Hag.
    assert (negb include_id && negb include_score = false) as Hn.
    { by destruct include_id, include_score. }
    rewrite Hn in Hag. simpl in Hag.
    apply agrees_ok in Hag as (v & -> & l & vs & -> & _ & Hl & Hvs).
    inversion Hvs; subst. by exists l, s'.
  - apply orb_false_elim in Hflag as [-> ->].
    destruct (get_sources_plain_refines self (JObj body) s Hr) as (res & s' & Hrun & _ & Hag).
    unfold Doc.get_sources in Hag. rewrite Hdoc in Hag. simpl in Hag.
    apply agrees_ok in Hag as (v & -> & l & vs & -> & _ & Hl & Hvs).
    inversion Hvs; subst. by exists l, s'.
Qed.

(** X11.  On a response without hits (the outer or the inner [hits] key
    absent, or an empty array of hits) [get_sources] and [get_ids]
    return empty lists, [to_dataframe] without columns returns the
    table with no column and no row, and [to_dataframe] with a
    non-empty list of columns raises [KeyError], whatever the flags. *)
Theorem empty_result_set :
  forall self body s,
    repr (heap s) (SearchResults._json self) (JObj body) ->
    no_hits body ->
    (forall include_id include_score,
       exists l s',
         SearchResults.get_sources include_id include_score self s = (Ok (VRef l), s') /\
         heap s' !! l = Some (OList [])) /\
    (exists l s',
       SearchResults.get_ids self s = (Ok (VRef l), s') /\
       heap s' !! l = Some (OList [])) /\
    (forall include_id include_score,
       exists s',
         SearchResults.to_dataframe None include_id include_score self s =
           (Ok {| pd.columns := []; pd.rows := [] |}, s')) /\
    (forall c cs include_id include_score,
       exists s',
         SearchResults.to_dataframe (Some (c :: cs)) include_id include_score self s =
           (Raise KeyError, s')).
Proof.
  intros self body s Hr Hno. split; [|split; [|split]].
  - intros include_id include_score. by apply (get_sources_no_hits _ _ _ body).
  - destruct (get_ids_refines self (JObj body) s Hr) as (res & s' & Hrun & _ & Hag).
    unfold Doc.get_ids in Hag. rewrite (no_hits_doc body Hno) in Hag. simpl in Hag.
    apply agrees_ok in Hag as (v & -> & l & vs & -> & _ & Hl & Hvs).
    inversion Hvs; subst. by exists l, s'.
  - intros include_id include_score.
    destruct (get_sources_no_hits include_id include_score self body s Hr Hno)
      as (l & s' & Hrun & Hl).
    exists s'.
    by rewrite (to_dataframe_of_records None _ _ _ _ _ _ [] [] Hrun Hl
                  ltac:(constructor)).
  - intros c cs include_id include_score.
    destruct (get_sources_no_hits include_id include_score self body s Hr Hno)
      as (l & s' & Hrun & Hl).
    exists s'.
    by rewrite (to_dataframe_of_records (Some (c :: cs)) _ _ _ _ _ _ [] [] Hrun Hl
                  ltac:(constructor)).
Qed.

Lemma empty_result_set_witness :
  (exists s',
     SearchResults.to_dataframe None true true (fst (search_of (JObj total_body)))
       (snd (search_of (JObj total_body))) =
       (Ok {| pd.columns := []; pd.rows := [] |}, s')) /\
  (exists s',
     SearchResults.to_dataframe (Some ["title"]) false false
       (fst (search_of (JObj [("took", JInt 3)])))
       (snd (search_of (JObj [("took", JInt 3)]))) = (Raise KeyError, s')).
Proof.
  split.
  - apply (proj1 (proj2 (proj2 (empty_result_set (fst (search_of (JObj total_body)))
                                  total_body (snd (search_of (JObj total_body)))
                                  ltac:(vm_compute; repeat (econstructor; try reflexivity))
                                  ltac:(right; eexists; split; [reflexivity|]; by right))))).
  - apply (proj2 (proj2 (proj2 (empty_result_set
                                  (fst (search_of (JObj [("took", JInt 3)])))
                                  [("took", JInt 3)]
                                  (snd (search_of (JObj [("took", JInt 3)])))
                                  ltac:(vm_compute; repeat (econstructor; try reflexivity))
                                  ltac:(by left))))).
Defined.

(** ** The printed form of the two classes *)

(** X12.  The printed form of a [SearchResults] shows the total of the
    response in decimal, 0 when the response has no [hits] key; on a
    response whose [hits.total] is a number rather than a mapping,
    printing raises [AttributeError], as [total] does. *)
Theorem search_repr_shows_total :
  forall self body s,
    repr (heap s) (SearchResults._json self) (JObj body) ->
    (forall hd t n,
       assoc_get "hits" body = Some (JObj hd) ->
       assoc_get "total" hd = Some (JObj t) ->
       assoc_get "value" t = Some (JInt n) ->
       exists s',
         SearchResults.__repr__ self s =
           (Ok (String.append "<SearchResults total_hits="
                  (String.append (NilZero.string_of_int (Z.to_int n)) ">")), s')) /\
    (assoc_get "hits" body = None ->
       exists s', SearchResults.__repr__ self s = (Ok "<SearchResults total_hits=0>", s')) /\
    (forall hd n,
       assoc_get "hits" body = Some (JObj hd) ->
       assoc_get "total" hd = Some (JInt n) ->
       exists s', SearchResults.__repr__ self s = (Raise AttributeError, s')).
Proof.
  intros self body s Hr. split; [|split].
  - intros hd t n Hh Ht Hv.
    destruct (total_ok_int self (JObj body) s n Hr) as [s' Hrun].
    { unfold Doc.total, Doc.get, field. rewrite Hh. simpl. rewrite Ht. simpl.
      by rewrite Hv. }
    exists s'. unfold SearchResults.__repr__. by rewrite (bind_ok _ _ _ _ _ Hrun).
  - intros Hh.
    destruct (total_ok_int self (JObj body) s 0 Hr) as [s' Hrun].
    { unfold Doc.total, Doc.get, field. by rewrite Hh. }
    exists s'. unfold SearchResults.__repr__. by rewrite (bind_ok _ _ _ _ _ Hrun).
  - intros hd n Hh Ht.
    destruct (total_refines self (JObj body) s Hr) as (res & s' & Hrun & _ & Hag).
    assert (Doc.total (JObj body) = Raise AttributeError) as Hdoc.
    { unfold Doc.total, Doc.get, field. rewrite Hh. simpl. by rewrite Ht. }
    rewrite Hdoc in Hag. apply agrees_raise in Hag as ->.
    exists s'. unfold SearchResults.__repr__. by apply bind_raise.
Qed.

Lemma search_repr_shows_total_witness :
  (exists s',
     SearchResults.__repr__ (fst (search_of (JObj total_body)))
       (snd (search_of (JObj total_body))) = (Ok "<SearchResults total_hits=42>", s')) /\
  (exists s',
     SearchResults.__repr__ (fst (search_of (JObj legacy_total_body)))
       (snd (search_of (JObj legacy_total_body))) = (Raise AttributeError, s')).
Proof.
  split.
  - apply (proj1 (search_repr_shows_total (fst (search_of (JObj total_body))) total_body
                    (snd (search_of (JObj total_body)))
                    ltac:(vm_compute; repeat (econstructor; try reflexivity)))
             [("total", JObj [("value", JInt 42)]); ("hits", JArr [])]
             [("value", JInt 42)] 42%Z); reflexivity.
  - apply (proj2 (proj2 (search_repr_shows_total
                           (fst (search_of (JObj legacy_total_body))) legacy_total_body
                           (snd (search_of (JObj legacy_total_body)))
                           ltac:(vm_compute; repeat (econstructor; try reflexivity))))
             [("total", JInt 7); ("hits", JArr [])] 7%Z); reflexivity.
Defined.

(** X13.  The printed form of an [ExplainResult] shows the value of the
    explanation: [None] when the explanation or its value is absent,
    the decimal form of an integer value; when [explanation] is bound
    to something other than a mapping, printing raises
    [AttributeError]. *)
Theorem explain_repr_shows_score :
  forall self body s,
    repr (heap s) (ExplainResult._json self) (JObj body) ->
    (assoc_get "explanation" body = None \/
     (exists e, assoc_get "explanation" body = Some (JObj e) /\ assoc_get "value" e = None) ->
       exists s',
         ExplainResult.__repr__ self s =
           (Ok "<ExplainResult explanation_value=None>", s')) /\
    (forall e n,
       assoc_get "explanation" body = Some (JObj e) ->
       assoc_get "value" e = Some (JInt n) ->
       exists s',
         ExplainResult.__repr__ self s =
           (Ok (String.append "<ExplainResult explanation_value="
                  (String.append (NilZero.string_of_int (Z.to_int n)) ">")), s')) /\
    (forall e,
       assoc_get "explanation" body = Some e -> ~ is_mapping e ->
       exists s', ExplainResult.__repr__ self s = (Raise AttributeError, s')).
Proof.
  intros self body s Hr. split; [|split].
  - intros Habs. destruct (score_absent self body s Hr Habs) as [s' Hrun].
    exists s'. unfold ExplainResult.__repr__. by rewrite (bind_ok _ _ _ _ _ Hrun).
  - intros e n He Hv.
    destruct (score_refines self (JObj body) s Hr) as (res & s' & Hrun & _ & Hag).
    assert (Doc.score (JObj body) = Ok (JInt n)) as Hdoc.
    { unfold Doc.score, Doc.explanation, Doc.get, field. rewrite He. simpl. by rewrite Hv. }
    rewrite Hdoc in Hag. apply agrees_ok in Hag as (v & -> & Hrv). inversion Hrv; subst.
    exists s'. unfold ExplainResult.__repr__. by rewrite (bind_ok _ _ _ _ _ Hrun).
  - intros e He Hno.
    destruct (score_refines self (JObj body) s Hr) as (res & s' & Hrun & _ & Hag).
    assert (Doc.score (JObj body) = Raise AttributeError) as Hdoc.
    { unfold Doc.score, Doc.explanation, Doc.get, field. rewrite He. simpl.
      by destruct e; try done; destruct Hno. }
    rewrite Hdoc in Hag. apply agrees_raise in Hag as ->.
    exists s'. unfold ExplainResult.__repr__. by apply bind_raise.
Qed.

Lemma explain_repr_shows_score_witness :
  (exists s',
     ExplainResult.__repr__ (fst (explain_of (JObj [("took", JInt 3)])))
       (snd (explain_of (JObj [("took", JInt 3)]))) =
       (Ok "<ExplainResult explanation_value=None>", s')) /\
  (exists s',
     ExplainResult.__repr__ (fst example_explain) (snd example_explain) =
       (Ok "<ExplainResult explanation_value=10>", s')).
Proof.
  split.
  - apply (proj1 (explain_repr_shows_score (fst (explain_of (JObj [("took", JInt 3)])))
                    [("took", JInt 3)] (snd (explain_of (JObj [("took", JInt 3)])))
                    ltac:(vm_compute; repeat (econstructor; try reflexivity)))).
    by left.
  - apply (proj1 (proj2 (explain_repr_shows_score (fst example_explain)
                           [("explanation", example_tree)] (snd example_explain)
                           ltac:(vm_compute; repeat (econstructor; try reflexivity))))
             [("value", JInt 10); ("description", JStr "root");
              ("details", JArr [
                 JObj [("value", JInt 4); ("description", JStr "a")];
                 JObj [("value", JInt 6); ("description", JStr "b");
                       ("details",
                        JArr [JObj [("value", JInt 6); ("description", JStr "c")]])]])]
             10%Z); reflexivity.
Defined.

(** ** A body that is not a mapping *)

Lemma refines_raise {A B : Type} (R : list obj -> A -> B -> Prop) (m : M A) e s :
  refines R m (Raise e) s -> exists s', m s = (Raise e, s').
Proof. intros (res & s' & Hrun & _ & Hag). apply agrees_raise in Hag as ->. by exists s'. Qed.

Lemma get_not_mapping j key dflt : ~ is_mapping j -> Doc.get j key dflt = Raise AttributeError.
Proof. intros Hno. by destruct j; try done; destruct Hno. Qed.

Lemma get_sources_raises include_id include_score self j s e :
  repr (heap s) (SearchResults._json self) j ->
  Doc.hits j = Raise e ->
  exists s', SearchResults.get_sources include_id include_score self s = (Raise e, s').
Proof.
  intros Hr Hdoc. destruct (include_id || include_score) eqn:Hflag.
  - destruct (get_sources_flagged_refines include_id include_score self j s Hflag Hr)
      as (res & s' & Hrun & _ & Hag).
    unfold Doc.get_sources in Hag. rewrite Hdoc in Hag.
    apply agrees_raise in Hag as ->. by exists s'.
  - apply orb_false_elim in Hflag as [-> ->].
    destruct (get_sources_plain_refines self j s Hr) as (res & s' & Hrun & _ & Hag).
    unfold Doc.get_sources in Hag. rewrite Hdoc in Hag.
    apply agrees_raise in Hag as ->. by exists s'.
Qed.

(** X14.  When the document an instance holds is something other than
    a mapping (an array, a text, a number, null: the constructor does
    not look at what the body decodes to), every accessor and method of
    [SearchResults] that reads the document raises [AttributeError]. *)
Theorem search_body_not_a_mapping :
  forall self j s,
    repr (heap s) (SearchResults._json self) j ->
    ~ is_mapping j ->
    (exists s', SearchResults.hits self s = (Raise AttributeError, s')) /\
    (exists s', SearchResults.total self s = (Raise AttributeError, s')) /\
    (forall include_id include_score,
       exists s',
         SearchResults.get_sources include_id include_score self s =
           (Raise AttributeError, s')) /\
    (exists s', SearchResults.get_ids self s = (Raise AttributeError, s')) /\
    (forall columns include_id include_score,
       exists s',
         SearchResults.to_dataframe columns include_id include_score self s =
           (Raise AttributeError, s')) /\
    (exists s', SearchResults.__repr__ self s = (Raise AttributeError, s')).
Proof.
  intros self j s Hr Hno.
  assert (Doc.hits j = Raise AttributeError) as Hhits.
  { unfold Doc.hits. by rewrite get_not_mapping. }
  assert (Doc.total j = Raise AttributeError) as Htotal.
  { unfold Doc.total. by rewrite get_not_mapping. }
  pose proof (total_refines self j s Hr) as Ht. rewrite Htotal in Ht.
  apply refines_raise in Ht as [st Ht].
  split; [|split; [|split; [|split; [|split]]]].
  - pose proof (hits_refines self j s Hr) as H. rewrite Hhits in H.
    by apply refines_raise in H.
  - by exists st.
  - intros include_id include_score. by apply (get_sources_raises _ _ _ j).
  - destruct (get_ids_refines self j s Hr) as (res & s' & Hrun & _ & Hag).
    unfold Doc.get_ids in Hag. rewrite Hhits in Hag.
    apply agrees_raise in Hag as ->. by exists s'.
  - intros columns include_id include_score.
    destruct (get_sources_raises include_id include_score self j s _ Hr Hhits) as [s' Hrun].
    exists s'. unfold SearchResults.to_dataframe. by apply bind_raise.
  - exists st. unfold SearchResults.__repr__. by apply bind_raise.
Qed.

Lemma search_body_not_a_mapping_witness :
  exists self s s',
    SearchResults.__init__ (response_of (JArr [JInt 1])) empty_state = (Ok self, s) /\
    SearchResults.get_ids self s = (Raise AttributeError, s').
Proof.
  destruct (proj1 (proj2 (proj2 (proj2 (search_body_not_a_mapping
                                          (fst (search_of (JArr [JInt 1]))) (JArr [JInt 1])
                                          (snd (search_of (JArr [JInt 1])))
                                          ltac:(vm_compute;
                                                repeat (econstructor; try reflexivity))
                                          ltac:(by intros [])))))) as [s' Hrun].
  by exists (fst (search_of (JArr [JInt 1]))), (snd (search_of (JArr [JInt 1]))), s'.
Defined.

(** X15.  When the document an instance holds is something other than
    a mapping, every accessor and method of [ExplainResult] raises
    [AttributeError], [get_breakdown] before it looks at any node. *)
Theorem explain_body_not_a_mapping :
  forall self j s,
    repr (heap s) (ExplainResult._json self) j ->
    ~ is_mapping j ->
    (exists s', ExplainResult.explanation self s = (Raise AttributeError, s')) /\
    (exists s', ExplainResult.score self s = (Raise AttributeError, s')) /\
    (forall fuel,
       exists s', ExplainResult.get_breakdown fuel self s = (Raise AttributeError, s')) /\
    (forall fuel,
       exists s', ExplainResult.to_dataframe fuel self s = (Raise AttributeError, s')) /\
    (exists s', ExplainResult.__repr__ self s = (Raise AttributeError, s')).
Proof.
  intros self j s Hr Hno.
  assert (Doc.explanation j = Raise AttributeError) as Hex.
  { unfold Doc.explanation. by rewrite get_not_mapping. }
  assert (forall fuel,
            exists s', ExplainResult.get_breakdown fuel self s = (Raise AttributeError, s'))
    as Hb.
  { intros fuel. apply (get_breakdown_raises fuel self j s _ Hr).
    unfold Doc.get_breakdown. by rewrite Hex. }
  pose proof (score_refines self j s Hr) as Hs. unfold Doc.score in Hs. rewrite Hex in Hs.
  apply refines_raise in Hs as [ss Hs].
  split; [|split; [|split; [|split]]].
  - pose proof (explanation_refines self j s Hr) as H. rewrite Hex in H.
    by apply refines_raise in H.
  - by exists ss.
  - done.
  - intros fuel. destruct (Hb fuel) as [s' Hrun].
    exists s'. unfold ExplainResult.to_dataframe. by apply bind_raise.
  - exists ss. unfold ExplainResult.__repr__. by apply bind_raise.
Qed.

Lemma explain_body_not_a_mapping_witness :
  exists self s s',
    ExplainResult.__init__ (response_of (JStr "error")) empty_state = (Ok self, s) /\
    ExplainResult.get_breakdown 0 self s = (Raise AttributeError, s').
Proof.
  destruct (proj1 (proj2 (proj2 (explain_body_not_a_mapping
                                   (fst (explain_of (JStr "error"))) (JStr "error")
                                   (snd (explain_of (JStr "error")))
                                   ltac:(vm_compute; repeat (econstructor; try reflexivity))
                                   ltac:(by intros []))))
              O) as [s' Hrun].
  by exists (fst (explain_of (JStr "error"))), (snd (explain_of (JStr "error"))), s'.
Defined.

(** ** Construction *)

Lemma load_grows j s : length (heap s) <= length (heap (snd (Response.load j s))).
Proof.
  destruct (load_repr j s) as (v & s' & -> & [Hpre _] & _). simpl.
  by apply prefix_length.
Qed.

Lemma load_root_fresh j s v s' l :
  Response.load j s = (Ok v, s') -> v = VRef l -> length (heap s) <= l.
Proof.
  destruct j as [| b | z | f | str | js | ms]; simpl; try (by intros [= <- _] [=]).
  - match goal with |- context [bind (?F js)] => set (load_items := F) end.
    assert (forall s0, length (heap s0) <= length (heap (snd (load_items js s0)))) as Hgrow.
    { induction js as [|j js IH]; intros s0; [done|]. simpl.
      pose proof (load_grows j s0) as H1. unfold bind at 1.
      destruct (Response.load j s0) as [[v0 | e |] s1]; simpl in *; try done.
      fold load_items. specialize (IH s1). unfold bind at 1.
      destruct (load_items js s1) as [[vs | e |] s2]; simpl in *; lia. }
    specialize (Hgrow s). unfold bind.
    destruct (load_items js s) as [[vs | e |] s1]; simpl in *; try done.
    intros [= <- _] [= <-]. done.
  - match goal with |- context [bind (?F ms)] => set (load_members := F) end.
    assert (forall s0, length (heap s0) <= length (heap (snd (load_members ms s0))))
      as Hgrow.
    { induction ms as [|[k j] ms IH]; intros s0; [done|]. simpl.
      pose proof (load_grows j s0) as H1. unfold bind at 1.
      destruct (Response.load j s0) as [[v0 | e |] s1]; simpl in *; try done.
      fold load_members. specialize (IH s1). unfold bind at 1.
      destruct (load_members ms s1) as [[kvs | e |] s2]; simpl in *; lia. }
    specialize (Hgrow s). unfold bind.
    destruct (load_members ms s) as [[kvs | e |] s1]; simpl in *; try done.
    intros [= <- _] [= <-]. done.
Qed.

Lemma json_fresh response s v s' l :
  Response.json response s = (Ok v, s') -> v = VRef l -> length (heap s) <= l.
Proof.
  unfold Response.json, bind, tick_parse.
  destruct (Response.body response) as [j|]; [|done].
  intros Hrun Hv. by apply (load_root_fresh j _ v s' l Hrun Hv).
Qed.

Lemma repr_ref_allocated h l j : repr h (VRef l) j -> is_Some (h !! l).
Proof. inversion 1; by eexists. Qed.

(** X16.  Constructing an [ExplainResult] from a response whose body is
    not valid JSON raises the decoder's error; from a body that is
    valid JSON it returns an instance that keeps the response and the
    decoded document, the body having been decoded once, the document
    being a new object and the objects there were being left as they
    were. *)
Theorem explain_init_decodes_body :
  forall response s,
    (Response.body response = None ->
       ExplainResult.__init__ response s =
         (Raise JSONDecodeError, {| heap := heap s; parses := S (parses s) |})) /\
    (forall j,
       Response.body response = Some j ->
       exists self s',
         ExplainResult.__init__ response s = (Ok self, s') /\
         ExplainResult._response self = response /\
         parses s' = S (parses s) /\
         heap s `prefix_of` heap s' /\
         repr (heap s') (ExplainResult._json self) j /\
         forall l, ExplainResult._json self = VRef l -> heap s !! l = None).
Proof.
  intros response s. split.
  - intros Hb. unfold ExplainResult.__init__.
    by rewrite (bind_raise _ _ _ _ _ (json_raise response s Hb)).
  - intros j Hb. destruct (json_ok response j s Hb) as (v & s' & Hrun & Hpre & Hpar & Hr).
    eexists _, s'. unfold ExplainResult.__init__. rewrite (bind_ok _ _ _ _ _ Hrun).
    split; [reflexivity|]. simpl. split; [done|]. split; [done|]. split; [done|].
    split; [done|]. intros l ->. apply lookup_ge_None.
    by apply (json_fresh response s (VRef l) s' l Hrun).
Qed.

Lemma explain_init_decodes_body_witness :
  ExplainResult.__init__ invalid_response empty_state =
    (Raise JSONDecodeError, {| heap := []; parses := 1 |}) /\
  exists self s',
    ExplainResult.__init__ example_response empty_state = (Ok self, s') /\
    ExplainResult._response self = example_response /\
    parses s' = 1 /\
    repr (heap s') (ExplainResult._json self) (JObj [("explanation", example_tree)]).
Proof.
  split.
  - apply (proj1 (explain_init_decodes_body invalid_response empty_state)). reflexivity.
  - destruct (proj2 (explain_init_decodes_body example_response empty_state)
                (JObj [("explanation", example_tree)]) eq_refl)
      as (self & s' & Hrun & Hresp & Hpar & _ & Hr & _).
    by exists self, s'.
Defined.

(** X17.  Two [SearchResults] built one after the other from the same
    response decode its body twice and hold two separate copies of the
    document: the second is built of new objects, the first is left as
    it was, and when the document is a container the two instances do
    not hold the same object.  Both give back the response they were
    built from, and its status code. *)
Theorem two_wrappers_of_one_response :
  forall response j s,
    Response.body response = Some j ->
    exists a s1 b s2,
      SearchResults.__init__ response s = (Ok a, s1) /\
      SearchResults.__init__ response s1 = (Ok b, s2) /\
      parses s2 = S (S (parses s)) /\
      repr (heap s2) (SearchResults._json a) j /\
      repr (heap s2) (SearchResults._json b) j /\
      (forall l, SearchResults._json a = VRef l -> SearchResults._json b <> VRef l) /\
      SearchResults.raw a s2 = (Ok response, s2) /\
      SearchResults.raw b s2 = (Ok response, s2) /\
      SearchResults.status_code b s2 = (Ok (Response.status_code response), s2).
Proof.
  intros response j s Hb.
  destruct (json_ok response j s Hb) as (va & s1 & Hrun1 & Hpre1 & Hpar1 & Hr1).
  destruct (json_ok response j s1 Hb) as (vb & s2 & Hrun2 & Hpre2 & Hpar2 & Hr2).
  exists {| SearchResults._response := response; SearchResults._json := va |}, s1,
         {| SearchResults._response := response; SearchResults._json := vb |}, s2.
  unfold SearchResults.__init__.
  rewrite (bind_ok _ _ _ _ _ Hrun1), (bind_ok _ _ _ _ _ Hrun2). simpl.
  split; [done|]. split; [done|]. split; [congruence|]. split.
  { eapply repr_mono; [exact Hr1 | by apply sub_store_prefix]. }
  split; [done|]. split; [|done].
  intros l -> ->. apply repr_ref_allocated in Hr1 as [o Ho].
  pose proof (json_fresh response s1 (VRef l) s2 l Hrun2 eq_refl) as Hfresh.
  apply lookup_lt_Some in Ho. lia.
Qed.

Lemma two_wrappers_of_one_response_witness :
  exists a s1 b s2,
    SearchResults.__init__ (response_of (JObj total_body)) empty_state = (Ok a, s1) /\
    SearchResults.__init__ (response_of (JObj total_body)) s1 = (Ok b, s2) /\
    parses s2 = 2 /\
    (forall l, SearchResults._json a = VRef l -> SearchResults._json b <> VRef l).
Proof.
  destruct (two_wrappers_of_one_response (response_of (JObj total_body)) (JObj total_body)
              empty_state eq_refl)
    as (a & s1 & b & s2 & Ha & Hb & Hpar & _ & _ & Hne & _).
  by exists a, s1, b, s2.
Defined.

(** ** The shape of the table *)

Lemma repr_records s items ds :
  Forall2 (repr (heap s)) items ds ->
  Forall is_mapping ds ->
  exists records, Forall2 (record_at s) items records.
Proof.
  induction 1 as [|item d items ds Hitem _ IH]; intros Hall; [by exists []|].
  inversion Hall as [|? ? Hd Hrest]; subst. destruct (IH Hrest) as [records Hrecords].
  destruct d as [| | | | | |m]; try done.
  inversion Hitem as [ | | | | | | c its ? Hc _ _]; subst.
  exists (its :: records). constructor; [by exists c | done].
Qed.

Lemma get_sources_records include_id include_score self body hd hs s :
  repr (heap s) (SearchResults._json self) (JObj body) ->
  assoc_get "hits" body = Some (JObj hd) ->
  assoc_get "hits" hd = Some (JArr hs) ->
  Forall (complete_hit true) hs ->
  exists l items records s',
    SearchResults.get_sources include_id include_score self s = (Ok (VRef l), s') /\
    heap s' !! l = Some (OList items) /\
    Forall2 (record_at s') items records /\
    length records = length hs.
Proof.
  intros Hr Hh Hhs Hall.
  assert (exists ds res s',
            SearchResults.get_sources include_id include_score self s = (res, s') /\
            agrees (fresh_list s s' (repr (heap s'))) res (Ok ds) /\
            Forall is_mapping ds /\ length ds = length hs)
    as (ds & res & s' & Hrun & Hag & Hmaps & Hlen).
  { destruct (include_id || include_score) eqn:Hflag.
    - destruct (get_sources_flagged_refines include_id include_score self (JObj body) s
                  Hflag Hr) as (res & s' & Hrun & _ & Hag).
      destruct (Forall_Forall2_ok (Doc.merged include_id include_score) hs) as [ds Hds].
      { eapply Forall_impl; [exact Hall|]. intros hit. apply merged_complete_any. }
      assert (Doc.get_sources include_id include_score (JObj body) = Ok ds) as Hdoc.
      { unfold Doc.get_sources, Doc.hits, Doc.get, field.
        rewrite Hh. simpl. rewrite Hhs. simpl.
        assert (negb include_id && negb include_score = false) as ->.
        { by destruct include_id, include_score. }
        simpl. by rewrite (each_single_all _ hs ds). }
      rewrite Hdoc in Hag. exists ds, res, s'. split; [done|]. split.
      { eapply agrees_impl; [exact Hag|]. intros v d (l & vs & -> & Hge & Hl & Hvs).
        exists l, vs. split; [done|]. split; [done|]. split; [done|].
        eapply Forall2_impl; [exact Hvs|]. by intros ? ? [_ ?]. }
      split; [|symmetry; by eapply Forall2_length].
      clear -Hds Hall. induction Hds as [|hit d hs ds Hd _ IH]; [constructor|].
      inversion Hall as [|? ? Hhit Hall']; subst. constructor; [|by apply IH].
      destruct hit as [| | | | | |ms]; try done.
      destruct Hhit as ([src Hsrc] & [idj Hid] & Hscore).
      destruct (Hscore eq_refl) as [scj Hsc].
      destruct (merged_complete_fields include_id include_score ms src idj scj Hsrc Hid Hsc)
        as (m & Hm & _). rewrite Hm in Hd. by injection Hd as <-.
    - apply orb_false_elim in Hflag as [-> ->].
      destruct (get_sources_plain_refines self (JObj body) s Hr)
        as (res & s' & Hrun & _ & Hag).
      destruct (Forall_Forall2_ok (fun hit => Doc.subscript hit "_source") hs) as [ds Hds].
      { eapply Forall_impl; [exact Hall|]. intros hit. apply subscript_complete. }
      assert (Doc.get_sources false false (JObj body) = Ok ds) as Hdoc.
      { unfold Doc.get_sources, Doc.comprehension, Doc.hits, Doc.get, field.
        rewrite Hh. simpl. rewrite Hhs. simpl. by rewrite (each_single_all _ hs ds). }
      rewrite Hdoc in Hag. exists ds, res, s'. split; [done|]. split; [done|].
      split; [|symmetry; by eapply Forall2_length].
      clear -Hds Hall. induction Hds as [|hit d hs ds Hd _ IH]; [constructor|].
      inversion Hall as [|? ? Hhit Hall']; subst. constructor; [|by apply IH].
      destruct hit as [| | | | | |ms]; try done.
      destruct Hhit as ([src Hsrc] & _). simpl in Hd. rewrite Hsrc in Hd.
      by injection Hd as <-. }
  apply agrees_ok in Hag as (v & -> & l & items & -> & _ & Hl & Hitems).
  destruct (repr_records s' items ds Hitems Hmaps) as [records Hrecords].
  exists l, items, records, s'. split; [done|]. split; [done|]. split; [done|].
  rewrite <- Hlen. rewrite <- (Forall2_length _ _ _ Hrecords).
  by apply Forall2_length in Hitems.
Qed.

(** X18.  When every hit is complete, [to_dataframe] without columns
    returns a table, whatever the flags; and whenever [to_dataframe]
    returns a table, with or without columns, the table has one row per
    hit and every row has one cell per column. *)
Theorem dataframe_one_row_per_hit :
  forall include_id include_score self body hd hs s,
    repr (heap s) (SearchResults._json self) (JObj body) ->
    assoc_get "hits" body = Some (JObj hd) ->
    assoc_get "hits" hd = Some (JArr hs) ->
    Forall (complete_hit true) hs ->
    (exists df s',
       SearchResults.to_dataframe None include_id include_score self s = (Ok df, s')) /\
    (forall columns df s',
       SearchResults.to_dataframe columns include_id include_score self s = (Ok df, s') ->
       length (pd.rows df) = length hs /\
       Forall (fun row => length row = length (pd.columns df)) (pd.rows df)).
Proof.
  intros include_id include_score self body hd hs s Hr Hh Hhs Hall.
  destruct (get_sources_records include_id include_score self body hd hs s Hr Hh Hhs Hall)
    as (l & items & records & s1 & Hrun & Hl & Hrecords & Hlen).
  split.
  - eexists _, s1.
    by rewrite (to_dataframe_of_records None _ _ _ _ _ _ _ _ Hrun Hl Hrecords).
  - intros columns df s'.
    rewrite (to_dataframe_of_records columns _ _ _ _ _ _ _ _ Hrun Hl Hrecords).
    assert (forall cols,
              length (pd.rows (project cols records)) = length hs /\
              Forall (fun row => length row = length (pd.columns (project cols records)))
                (pd.rows (project cols records))) as Hshape.
    { intros cols. split; [by rewrite length_rows_project|].
      apply Forall_forall. intros row Hrow.
      apply list_elem_of_lookup in Hrow as [i Hrow].
      apply rows_project_lookup in Hrow as [_ ->]. by rewrite length_map. }
    destruct (truthy columns).
    + destruct (forallb (mentions records) (default [] columns)); [|done].
      intros [= <- _]. apply Hshape.
    + intros [= <- _]. apply (Hshape (pd.union_keys [] records)).
Qed.

Lemma dataframe_one_row_per_hit_witness :
  exists df s',
    SearchResults.to_dataframe (Some ["title"]) true false (fst example_search)
      (snd example_search) = (Ok df, s') /\
    length (pd.rows df) = 2 /\
    Forall (fun row => length row = length (pd.columns df)) (pd.rows df).
Proof.
  exists (project ["title"] [[("title", VStr "x"); ("_id", VStr "1")];
                             [("title", VStr "y"); ("_id", VStr "2")]]),
         (snd (SearchResults.to_dataframe (Some ["title"]) true false (fst example_search)
                 (snd example_search))).
  split; [vm_compute; reflexivity|].
  apply (proj2 (dataframe_one_row_per_hit true false (fst example_search) hits_body
                  [("total", JObj [("value", JInt 2)]);
                   ("hits",
                    JArr [JObj [("_id", JStr "1");
                                ("_score", JFloat (S754_finite false 3 (-1)));
                                ("_source", JObj [("title", JStr "x"); ("_id", JStr "old")])];
                          JObj [("_id", JStr "2"); ("_score", JInt 1);
                                ("_source", JObj [("title", JStr "y")])]])]
                  [JObj [("_id", JStr "1");
                         ("_score", JFloat (S754_finite false 3 (-1)));
                         ("_source", JObj [("title", JStr "x"); ("_id", JStr "old")])];
                   JObj [("_id", JStr "2"); ("_score", JInt 1);
                         ("_source", JObj [("title", JStr "y")])]]
                  (snd example_search)
                  ltac:(vm_compute; repeat (econstructor; try reflexivity))
                  eq_refl eq_refl
                  ltac:(repeat constructor; simpl; eauto))
           (Some ["title"])
           (project ["title"] [[("title", VStr "x"); ("_id", VStr "1")];
                               [("title", VStr "y"); ("_id", VStr "2")]])
           (snd (SearchResults.to_dataframe (Some ["title"]) true false (fst example_search)
                   (snd example_search)))).
  vm_compute. reflexivity.
Defined.

(** ** Requested keys as columns *)

Lemma complete_hit_fields include_id include_score hit :
  complete_hit true hit ->
  exists ms src m,
    hit = JObj ms /\ assoc_get "_source" ms = Some (JObj src) /\
    is_Some (assoc_get "_id" ms) /\ is_Some (assoc_get "_score" ms) /\
    (if negb include_id && negb include_score
     then Doc.subscript hit "_source"
     else Doc.merged include_id include_score hit) = Ok (JObj m) /\
    forall key,
      assoc_get key m =
        assoc_get key (if from_hit include_id include_score key then ms else src).
Proof.
  destruct hit as [| | | | | |ms]; try done.
  intros ([src Hsrc] & [idj Hid] & Hscore). destruct (Hscore eq_refl) as [scj Hsc].
  destruct (merged_complete_fields include_id include_score ms src idj scj Hsrc Hid Hsc)
    as (m & Hm & _ & Hfields).
  destruct (negb include_id && negb include_score) eqn:Hplain.
  - apply andb_prop in Hplain as [Hi Hs].
    apply negb_true_iff in Hi as ->. apply negb_true_iff in Hs as ->.
    exists ms, src, src. split; [done|]. split; [done|].
    split; [by eexists|]. split; [by eexists|]. split; [|done].
    simpl. by rewrite Hsrc.
  - exists ms, src, m. split; [done|]. split; [done|].
    split; [by eexists|]. split; [by eexists|]. done.
Qed.

Lemma get_sources_fields include_id include_score self body hd hs s :
  repr (heap s) (SearchResults._json self) (JObj body) ->
  assoc_get "hits" body = Some (JObj hd) ->
  assoc_get "hits" hd = Some (JArr hs) ->
  Forall (complete_hit true) hs ->
  exists l items records s',
    SearchResults.get_sources include_id include_score self s = (Ok (VRef l), s') /\
    heap s' !! l = Some (OList items) /\
    Forall2 (record_at s') items records /\
    Forall2 (fun r hit =>
               exists ms src,
                 hit = JObj ms /\ assoc_get "_source" ms = Some (JObj src) /\
                 is_Some (assoc_get "_id" ms) /\ is_Some (assoc_get "_score" ms) /\
                 forall key,
                   same_binding (heap s') key r
                     (if from_hit include_id include_score key then ms else src))
            records hs.
Proof.
  intros Hr Hh Hhs Hall.
  set (f := fun hit => if negb include_id && negb include_score
                       then Doc.subscript hit "_source"
                       else Doc.merged include_id include_score hit).
  destruct (Forall_Forall2_ok f hs) as [ds Hds].
  { eapply Forall_impl; [exact Hall|]. intros hit Hhit.
    destruct (complete_hit_fields include_id include_score hit Hhit)
      as (ms & src & m & _ & _ & _ & _ & Hm & _). by exists (JObj m). }
  assert (Doc.get_sources include_id include_score (JObj body) = Ok ds) as Hdoc.
  { unfold Doc.get_sources, Doc.comprehension, Doc.hits, Doc.get, field.
    rewrite Hh. simpl. rewrite Hhs. simpl. subst f.
    destruct (negb include_id && negb include_score); simpl;
      by rewrite (each_single_all _ hs ds). }
  assert (exists res s',
            SearchResults.get_sources include_id include_score self s = (res, s') /\
            agrees (fresh_list s s' (repr (heap s'))) res (Ok ds))
    as (res & s' & Hrun & Hag).
  { rewrite <- Hdoc. destruct (include_id || include_score) eqn:Hflag.
    - destruct (get_sources_flagged_refines include_id include_score self (JObj body) s
                  Hflag Hr) as (res & s' & Hrun & _ & Hag).
      exists res, s'. split; [done|].
      eapply agrees_impl; [exact Hag|]. intros v d (l & vs & -> & Hge & Hl & Hvs).
      exists l, vs. split; [done|]. split; [done|]. split; [done|].
      eapply Forall2_impl; [exact Hvs|]. by intros ? ? [_ ?].
    - apply orb_false_elim in Hflag as [-> ->].
      destruct (get_sources_plain_refines self (JObj body) s Hr)
        as (res & s' & Hrun & _ & Hag).
      by exists res, s'. }
  apply agrees_ok in Hag as (v & -> & l & items & -> & _ & Hl & Hitems).
  assert (exists records,
            Forall2 (record_at s') items records /\
            Forall2 (fun r hit =>
                       exists ms src,
                         hit = JObj ms /\ assoc_get "_source" ms = Some (JObj src) /\
                         is_Some (assoc_get "_id" ms) /\ is_Some (assoc_get "_score" ms) /\
                         forall key,
                           same_binding (heap s') key r
                             (if from_hit include_id include_score key then ms else src))
                    records hs) as (records & Hrecords & Hfields).
  { clear Hrun Hdoc Hl Hhs. revert items Hitems.
    induction Hds as [|hit d hs ds Hd _ IH]; intros items Hitems.
    { inversion Hitems; subst. exists []. split; constructor. }
    inversion Hitems as [|item ? items' ? Hitem Hrest]; subst.
    inversion Hall as [|? ? Hhit Hall']; subst.
    destruct (IH Hall' items' Hrest) as (records & Hrecords & Hfields).
    destruct (complete_hit_fields include_id include_score hit Hhit)
      as (ms & src & m & -> & Hsrc & Hid & Hsc & Hm & Hkeys).
    subst f. cbv beta in Hd. rewrite Hm in Hd. injection Hd as <-.
    inversion Hitem as [ | | | | | | c its ? Hc Hk Hvs]; subst.
    exists (its :: records). split; constructor; try done; [by exists c|].
    exists ms, src. split; [done|]. split; [done|]. split; [done|]. split; [done|].
    intros key. unfold same_binding. rewrite <- Hkeys.
    apply (repr_members _ _ _ key Hk Hvs). }
  by exists l, items, records, s'.
Qed.

Lemma from_hit_key include_id include_score key :
  from_hit include_id include_score key = true -> key = "_id" \/ key = "_score".
Proof.
  unfold from_hit. intros H. apply orb_prop in H as [H | H];
    apply andb_prop in H as [_ H]; apply String.eqb_eq in H; auto.
Qed.

(** X19.  With every hit complete, [to_dataframe] asked for the single
    column [_id] or [_score] returns, when the matching flag is set and
    there is a hit, a table of that one column with one row per hit; the
    column is the one that the table returned without [columns] has
    under that key, and it is made of the values the hits themselves
    have for the key, in hit order (as pandas stores them in a column,
    not necessarily as the Python values they were).  Asked for a key
    whose flag is not set and that no source has, [to_dataframe] raises
    [KeyError]. *)
Theorem requested_key_is_a_column :
  forall include_id include_score self body hd hs s,
    repr (heap s) (SearchResults._json self) (JObj body) ->
    assoc_get "hits" body = Some (JObj hd) ->
    assoc_get "hits" hd = Some (JArr hs) ->
    Forall (complete_hit true) hs ->
    (forall key,
       from_hit include_id include_score key = true -> hs <> [] ->
       exists df full column s',
         SearchResults.to_dataframe (Some [key]) include_id include_score self s =
           (Ok df, s') /\
         SearchResults.to_dataframe None include_id include_score self s =
           (Ok full, s') /\
         pd.columns df = [key] /\
         length (pd.rows df) = length hs /\
         Forall2 (fun input hit =>
                    exists v ms j,
                      input = Some v /\ hit = JObj ms /\
                      assoc_get key ms = Some j /\ repr (heap s') v j)
                 column hs /\
         forall i,
           i < length hs ->
           pd.rows df !! i = Some [{| pd.inputs := column; pd.position := i |}] /\
           pd.cell_at full i key = Some {| pd.inputs := column; pd.position := i |}) /\
    (forall key,
       from_hit include_id include_score key = false ->
       Forall (source_lacks key) hs ->
       exists s',
         SearchResults.to_dataframe (Some [key]) include_id include_score self s =
           (Raise KeyError, s')).
Proof.
  intros include_id include_score self body hd hs s Hr Hh Hhs Hall.
  destruct (get_sources_fields include_id include_score self body hd hs s Hr Hh Hhs Hall)
    as (l & items & records & s' & Hrun & Hl & Hrecords & Hfields).
  pose proof (fun columns =>
                to_dataframe_of_records columns _ _ _ _ _ _ _ _ Hrun Hl Hrecords) as Hdf.
  split.
  - intros key Hkey Hne.
    assert (Forall2 (fun r hit =>
                       exists v ms j,
                         assoc_get key r = Some v /\ hit = JObj ms /\
                         assoc_get key ms = Some j /\ repr (heap s') v j) records hs)
      as Hcells.
    { eapply Forall2_impl; [exact Hfields|].
      intros r hit (ms & src & -> & Hsrc & [idj Hid] & [scj Hsc] & Hb).
      specialize (Hb key). rewrite Hkey in Hb. unfold same_binding in Hb.
      assert (is_Some (assoc_get key ms)) as [j Hj].
      { destruct (from_hit_key _ _ _ Hkey) as [-> | ->]; by eexists. }
      rewrite Hj in Hb. destruct (assoc_get key r) as [v|] eqn:Hv; [|done].
      by exists v, ms, j. }
    assert (mentions records key = true) as Hmentions.
    { destruct Hcells as [|r hit records' hs' (v & _ & _ & Hv & _) _]; [done|].
      simpl. unfold has_key at 1. by rewrite Hv. }
    pose proof (Forall2_length _ _ _ Hcells) as Hlen.
    exists (project [key] records), (pd.of_records records),
           (map (fun r => assoc_get key r) records), s'.
    split. { rewrite (Hdf (Some [key])). simpl. by rewrite Hmentions. }
    split. { by rewrite (Hdf None). }
    split; [done|]. split. { by rewrite length_rows_project. }
    split.
    + apply Forall2_fmap_l. eapply Forall2_impl; [exact Hcells|].
      intros r hit (v & ms & j & Hv & H). by exists v, ms, j.
    + intros i Hi. rewrite <- Hlen in Hi. split.
      * unfold project. by rewrite rows_table_at.
      * apply (cell_at_project records (pd.union_keys [] records) i key Hi).
        by rewrite has_column_union_keys.
  - intros key Hkey Hlacks. exists s'. rewrite (Hdf (Some [key])). simpl.
    assert (mentions records key = false) as ->; [|done].
    clear -Hfields Hkey Hlacks. unfold mentions.
    induction Hfields as [|r hit records hs (ms & src & -> & Hsrc & _ & _ & Hb) _ IH];
      [done|].
    inversion Hlacks as [|? ? Hhit Hrest]; subst. simpl.
    rewrite (IH Hrest), orb_false_r.
    simpl in Hhit. rewrite Hsrc in Hhit.
    specialize (Hb key). rewrite Hkey in Hb. unfold same_binding in Hb.
    rewrite Hhit in Hb. unfold has_key. by destruct (assoc_get key r).
Qed.

Lemma requested_key_is_a_column_witness :
  (exists df s',
     SearchResults.to_dataframe (Some ["_score"]) false true (fst example_search)
       (snd example_search) = (Ok df, s') /\
     pd.columns df = ["_score"] /\
     pd.rows df =
       [[{| pd.inputs := [Some (VFloat (S754_finite false 3 (-1))); Some (VInt 1)];
            pd.position := 0 |}];
        [{| pd.inputs := [Some (VFloat (S754_finite false 3 (-1))); Some (VInt 1)];
            pd.position := 1 |}]]) /\
  (exists s',
     SearchResults.to_dataframe (Some ["_score"]) true false (fst example_search)
       (snd example_search) = (Raise KeyError, s')).
Proof.
  split.
  - destruct (proj1 (requested_key_is_a_column false true (fst example_search) hits_body
                       [("total", JObj [("value", JInt 2)]);
                        ("hits",
                         JArr [JObj [("_id", JStr "1");
                                     ("_score", JFloat (S754_finite false 3 (-1)));
                                     ("_source",
                                      JObj [("title", JStr "x"); ("_id", JStr "old")])];
                               JObj [("_id", JStr "2"); ("_score", JInt 1);
                                     ("_source", JObj [("title", JStr "y")])]])]
                       [JObj [("_id", JStr "1");
                              ("_score", JFloat (S754_finite false 3 (-1)));
                              ("_source", JObj [("title", JStr "x"); ("_id", JStr "old")])];
                        JObj [("_id", JStr "2"); ("_score", JInt 1);
                              ("_source", JObj [("title", JStr "y")])]]
                       (snd example_search)
                       ltac:(vm_compute; repeat (econstructor; try reflexivity))
                       eq_refl eq_refl
                       ltac:(repeat constructor; simpl; eauto))
                "_score" eq_refl ltac:(done))
      as (df & full & column & s' & Hrun & _ & Hcols & _).
    exists df, s'. split; [done|]. split; [done|].
    vm_compute in Hrun. by injection Hrun as <- _.
  - apply (proj2 (requested_key_is_a_column true false (fst example_search) hits_body
                    [("total", JObj [("value", JInt 2)]);
                     ("hits",
                      JArr [JObj [("_id", JStr "1");
                                  ("_score", JFloat (S754_finite false 3 (-1)));
                                  ("_source",
                                   JObj [("title", JStr "x"); ("_id", JStr "old")])];
                            JObj [("_id", JStr "2"); ("_score", JInt 1);
                                  ("_source", JObj [("title", JStr "y")])]])]
                    [JObj [("_id", JStr "1");
                           ("_score", JFloat (S754_finite false 3 (-1)));
                           ("_source", JObj [("title", JStr "x"); ("_id", JStr "old")])];
                     JObj [("_id", JStr "2"); ("_score", JInt 1);
                           ("_source", JObj [("title", JStr "y")])]]
                    (snd example_search)
                    ltac:(vm_compute; repeat (econstructor; try reflexivity))
                    eq_refl eq_refl
                    ltac:(repeat constructor; simpl; eauto))
             "_score" eq_refl).
    repeat constructor.
Defined.

(** ** A hit that is not a mapping *)

Lemma get_sources_doc_raises include_id include_score self j s e :
  repr (heap s) (SearchResults._json self) j ->
  Doc.get_sources include_id include_score j = Raise e ->
  exists s', SearchResults.get_sources include_id include_score self s = (Raise e, s').
Proof.
  intros Hr Hdoc. destruct (include_id || include_score) eqn:Hflag.
  - destruct (get_sources_flagged_refines include_id include_score self j s Hflag Hr)
      as (res & s' & Hrun & _ & Hag).
    rewrite Hdoc in Hag. apply agrees_raise in Hag as ->. by exists s'.
  - apply orb_false_elim in Hflag as [-> ->].
    destruct (get_sources_plain_refines self j s Hr) as (res & s' & Hrun & _ & Hag).
    rewrite Hdoc in Hag. apply agrees_raise in Hag as ->. by exists s'.
Qed.

Lemma subscript_not_mapping hit key :
  ~ is_mapping hit -> Doc.subscript hit key = Raise TypeError.
Proof. intros Hno. by destruct hit; try done; destruct Hno. Qed.

(** X20.  When an element of the array of hits is not a mapping (null,
    say) and the hits before it are complete, [get_ids], [get_sources]
    with any flags and [to_dataframe] with any arguments raise
    [TypeError]. *)
Theorem non_mapping_hit_raises :
  forall self body hd pre hit post s,
    repr (heap s) (SearchResults._json self) (JObj body) ->
    assoc_get "hits" body = Some (JObj hd) ->
    assoc_get "hits" hd = Some (JArr (pre ++ hit :: post)) ->
    Forall (complete_hit true) pre ->
    ~ is_mapping hit ->
    (exists s', SearchResults.get_ids self s = (Raise TypeError, s')) /\
    (forall include_id include_score,
       exists s',
         SearchResults.get_sources include_id include_score self s =
           (Raise TypeError, s')) /\
    (forall columns include_id include_score,
       exists s',
         SearchResults.to_dataframe columns include_id include_score self s =
           (Raise TypeError, s')).
Proof.
  intros self body hd pre hit post s Hr Hh Hhs Hpre Hno.
  assert (forall include_id include_score,
            exists s',
              SearchResults.get_sources include_id include_score self s =
                (Raise TypeError, s')) as Hsources.
  { intros include_id include_score.
    apply (get_sources_doc_raises _ _ _ (JObj body) _ _ Hr).
    unfold Doc.get_sources, Doc.comprehension, Doc.hits, Doc.get, field.
    rewrite Hh. simpl. rewrite Hhs. simpl.
    destruct (negb include_id && negb include_score); simpl; apply each_first_raise.
    - eapply Forall_impl; [exact Hpre|]. intros x. apply subscript_complete.
    - by apply subscript_not_mapping.
    - eapply Forall_impl; [exact Hpre|]. intros x. apply merged_complete_any.
    - unfold Doc.merged. by rewrite subscript_not_mapping. }
  split; [|split; [done|]].
  - destruct (get_ids_refines self (JObj body) s Hr) as (res & s' & Hrun & _ & Hag).
    assert (Doc.get_ids (JObj body) = Raise TypeError) as Hdoc.
    { unfold Doc.get_ids, Doc.comprehension, Doc.hits, Doc.get, field.
      rewrite Hh. simpl. rewrite Hhs. simpl. apply each_first_raise.
      - eapply Forall_impl; [exact Hpre|]. intros x Hx.
        destruct x as [| | | | | |ms]; try done. destruct Hx as (_ & [idj Hid] & _).
        simpl. rewrite Hid. by eexists.
      - by apply subscript_not_mapping. }
    rewrite Hdoc in Hag. apply agrees_raise in Hag as ->. by exists s'.
  - intros columns include_id include_score.
    destruct (Hsources include_id include_score) as [s' Hrun].
    exists s'. unfold SearchResults.to_dataframe. by apply bind_raise.
Qed.

Lemma non_mapping_hit_raises_witness :
  exists s',
    SearchResults.get_ids
      (fst (search_of (JObj [("hits", JObj [("hits", JArr [JNull])])])))
      (snd (search_of (JObj [("hits", JObj [("hits", JArr [JNull])])]))) =
      (Raise TypeError, s').
Proof.
  apply (proj1 (non_mapping_hit_raises
                  (fst (search_of (JObj [("hits", JObj [("hits", JArr [JNull])])])))
                  [("hits", JObj [("hits", JArr [JNull])])]
                  [("hits", JArr [JNull])] [] JNull []
                  (snd (search_of (JObj [("hits", JObj [("hits", JArr [JNull])])])))
                  ltac:(vm_compute; repeat (econstructor; try reflexivity))
                  eq_refl eq_refl ltac:(constructor) ltac:(by intros []))).
Defined.
